(** * NasriyaData: the authorization-aware CRUD / query pipeline

    A shallow embedding of the client of the MongoDB adapter
    (client.ts, assets/query.ts, assets/filter.ts, utils/helpers.ts) and the
    properties of its access evaluator, schema validator, item normalizer,
    hook pipeline, failure reporter and query executor.

    Conventions of the embedding.
    - A JavaScript object used as a record of data (an item, a filter, a
      criteria object) is a plain object: a finite map from the names of its
      own properties to values, with [Object.prototype] as its prototype.
    - A string is the sequence of its UTF-16 code units, for the texts whose
      code units are all below 256 (Latin-1).
    - Objects that the code mutates in place or shares by reference (the item
      handed to [insert]/[update], the query object of a [DataFilter]) live in
      a heap and are addressed by location.
    - Numbers are integral; a Date is its time value in milliseconds, or
      nothing for an Invalid Date.
    - An asynchronous function is run to completion: awaiting a resolved
      promise yields its value, awaiting a rejected one throws.
    - A user hook may change the objects it is handed as items; it is taken
      to leave the context object as it is.
    - The document store is an interface ([Storage]); every call that the
      client makes on it is also recorded in the world, in call order. *)

From stdpp Require Import base strings pretty gmap list.
From Stdlib Require Import Ascii ZArith Lia.

#[local] Set Warnings "-register-all".
#[local] Open Scope Z_scope.

(** ** Values *)

Inductive value :=
| VUndefined
| VNull
| VBool (b : bool)
| VNumber (n : Z)
| VString (s : string)
| VDate (t : option Z)
| VArray (xs : list value)
| VObject (fields : gmap string value)
| VRegExp (source flags : string)
| VError (message : string)
| VFunction.

(** A plain object, by its own properties; its prototype is
    [Object.prototype]. *)
Abbreviation obj := (gmap string value).

(** [typeof v] *)
Definition typeof (v : value) : string :=
  match v with
  | VUndefined => "undefined"
  | VBool _ => "boolean"
  | VNumber _ => "number"
  | VString _ => "string"
  | VFunction => "function"
  | VNull | VDate _ | VArray _ | VObject _ | VRegExp _ _ | VError _ => "object"
  end.

(** The methods of [Object.prototype]. *)
Definition Object_prototype_methods : list string :=
  ["constructor"; "__defineGetter__"; "__defineSetter__"; "hasOwnProperty";
   "__lookupGetter__"; "__lookupSetter__"; "isPrototypeOf"; "propertyIsEnumerable";
   "toString"; "valueOf"; "toLocaleString"]%string.

(** [Object.prototype], by its own properties; its [__proto__] reads
    [null]. *)
Definition Object_prototype : obj :=
  <[ "__proto__" := VNull ]>
    (list_to_map ((fun method => (method, VFunction)) <$> Object_prototype_methods)).

(** What a plain object inherits under a name: a method of
    [Object.prototype], or the prototype itself under [__proto__]. *)
Definition inherited (property : string) : option value :=
  if String.eqb property "__proto__" then Some (VObject Object_prototype)
  else if existsb (String.eqb property) Object_prototype_methods then Some VFunction
  else None.

(** [Object.prototype.hasOwnProperty.call(o, property)] *)
Definition has_own (property : string) (o : obj) : bool :=
  match o !! property with Some _ => true | None => false end.

(** [o[property]] on a document of the store, which has own properties
    only. *)
Definition own_prop (property : string) (o : obj) : value :=
  default VUndefined (o !! property).

(** [property in o]: an own property, or one found along the prototype
    chain. *)
Definition has_prop (property : string) (o : obj) : bool :=
  match o !! property with
  | Some _ => true
  | None => match inherited property with Some _ => true | None => false end
  end.

(** [o[property]]: the own property, else the inherited one, else
    [undefined]. *)
Definition get_prop (property : string) (o : obj) : value :=
  match o !! property with
  | Some v => v
  | None => default VUndefined (inherited property)
  end.

(** [o[property] = v].  Under the name [__proto__] an object that has no own
    property of that name takes the assignment by the setter it inherits:
    the setter changes the prototype for an object or [null] and ignores any
    other value, and no own property is written.  Of the objects that the
    code assigns to under a name it is given (a query object, a sort, a
    projection), only the own properties are read afterwards. *)
Definition assign (property : string) (v : value) (o : obj) : obj :=
  if String.eqb property "__proto__" && negb (has_own property o) then o
  else <[ property := v ]> o.

(** [{ ...a, ...b }]: the properties of [b] override those of [a]. *)
Definition spread (a b : obj) : obj := b ∪ a.

(** ** Identities, roles, permissions *)

Inductive Role := Admin | Member | Visitor.
Inductive Authorization := User | System.
Inductive Verdict := Allowed | Denied | OwnedItems.

Definition Role_eqb (a b : Role) : bool :=
  match a, b with
  | Admin, Admin | Member, Member | Visitor, Visitor => true
  | _, _ => false
  end.

Definition Verdict_eqb (a b : Verdict) : bool :=
  match a, b with
  | Allowed, Allowed | Denied, Denied | OwnedItems, OwnedItems => true
  | _, _ => false
  end.

Definition Role_text (r : Role) : string :=
  match r with Admin => "Admin" | Member => "Member" | Visitor => "Visitor" end.

(** [ClientUser] *)
Record ClientUser := {
  user_id : option string;
  user_loggedIn : bool;
  user_role : Role
}.

(** [`${id}`] for an optional string. *)
Definition id_text (id : option string) : string := default "undefined"%string id.

(** [userId] as a value. *)
Definition id_value (id : option string) : value :=
  match id with Some s => VString s | None => VUndefined end.

(** The context passed to every hook. *)
Record HookContext := {
  collectionName : string;
  userId : option string;
  userRole : Role
}.

(** ** Thrown values *)

Inductive thrown :=
| TString (message : string)
| TTypeError (message : string)
| TRangeError (message : string)
| TSyntaxError (message : string)
| TError (message : string)
| TMessage (message : string) (error : option thrown)
| TValue (v : value)
| TFailure (type : string) (context : HookContext) (error : thrown).

Inductive result (A : Type) :=
| Ok (a : A)
| Throw (e : thrown).
Arguments Ok {A} a.
Arguments Throw {A} e.

(** ** Schemas (docs/docs.ts) *)

(** [validity: { handler, message }]; the handler may throw. *)
Record Validity := {
  validity_handler : value -> result value;
  validity_message : string
}.

(** A custom schema field.  [cs_required] and [cs_default] are [Some] exactly
    when the key is present in the object; [cs_validity] is [None] when the
    key is absent or its value is [undefined]. *)
Record CustomSchema := {
  cs_type : value;
  cs_required : option bool;
  cs_default : option value;
  cs_validity : option Validity
}.

Inductive SchemaField :=
| TypeTag (t : string)
| Custom (c : CustomSchema).

(** A schema, in the order its properties are enumerated. *)
Definition Schema : Type := list (string * SchemaField).

(** ** utils/helpers.ts *)

Module helpers.

Definition schemaTypes : list string :=
  ["String"; "Number"; "Object"; "Array"; "Date"; "Boolean"]%string.

Definition isRealObject (v : value) : bool :=
  match v with
  | VObject _ => true
  | _ => false
  end.

Definition isUndefined (v : value) : bool :=
  match v with
  | VUndefined => true
  | _ => false
  end.

Definition isSchemaType (schemaType : value) : bool :=
  match schemaType with
  | VString s => existsb (String.eqb s) (schemaTypes ++ ["Any"%string])
  | _ => false
  end.

(** [hasOwnProperty(obj, prop)] *)
Definition hasOwnProperty (o : value) (prop : string) : bool :=
  match o with
  | VObject fields => has_own prop fields
  | _ => false
  end.

Definition isCustomSchema (schema : SchemaField) : bool :=
  match schema with
  | TypeTag _ => false
  | Custom c =>
    if isUndefined (cs_type c) then false
    else if isSchemaType (cs_type c) then true
    else false
  end.

End helpers.

(** ** The access evaluator: [authUser]

    The same function appears in the client and in [DataQuery]; it reads the
    authorization mode and the user of its owner.  A permission is the string
    the collection declares ([prepareEvent] may also pass the literal
    ['Allowed']); [None] is [undefined]. *)

Definition authUser (authorization : Authorization) (user : ClientUser)
    (permission : option string) : Verdict :=
  match permission with
  | None => Allowed
  | Some permission =>
    match authorization with
    | User =>
      if String.eqb permission "Anyone" then Allowed
      else if negb (user_loggedIn user) then Denied
      else
        let rest :=
          if String.eqb permission "MemberAuthor" then OwnedItems
          else if String.eqb permission "Member" then Allowed
          else Denied in
        if String.eqb permission "Admin"
        then if negb (Role_eqb (user_role user) Admin) then Denied else rest
        else rest
    | System => Allowed
    end
  end.

(** ** A state and exception monad

    [ST S A] is a computation over a state [S] that returns an [A] or throws.
    State changes made before a throw persist, as in JavaScript. *)

Definition ST (S A : Type) : Type := S -> result A * S.

Definition ret {S A} (a : A) : ST S A := fun s => (Ok a, s).

Definition throw {S A} (e : thrown) : ST S A := fun s => (Throw e, s).

Definition bind {S A B} (m : ST S A) (k : A -> ST S B) : ST S B :=
  fun s =>
    match m s with
    | (Ok a, s') => k a s'
    | (Throw e, s') => (Throw e, s')
    end.

(** [try { m } catch (e) { handler e }] *)
Definition try_catch {S A} (m : ST S A) (handler : thrown -> ST S A) : ST S A :=
  fun s =>
    match m s with
    | (Ok a, s') => (Ok a, s')
    | (Throw e, s') => handler e s'
    end.

Definition get {S} : ST S S := fun s => (Ok s, s).
Definition modify {S} (f : S -> S) : ST S unit := fun s => (Ok tt, f s).

(** [if (c) { throw e }] *)
Definition throw_if {S} (c : bool) (e : thrown) : ST S unit :=
  if c then throw e else ret tt.

Declare Scope st_scope.
Delimit Scope st_scope with st.
Notation "'let*' x := m 'in' k" := (bind m (fun x => k))
  (at level 10, x name, m at level 100, k at level 200) : st_scope.
#[local] Open Scope st_scope.

(** ** Collection definitions (docs/docs.ts, docs/hooks.ts) *)

Definition loc := nat.

(** What a hook hands back: an object by reference, or any other value. *)
Inductive hook_ret :=
| RObj (l : loc)
| RVal (v : value).

(** How a call of a user hook ends: it returns or throws, or it returns a
    promise that resolves or rejects. *)
Inductive hook_outcome (R : Type) :=
| HReturn (r : R)
| HThrow (e : thrown)
| HResolve (r : R)
| HReject (e : thrown).
Arguments HReturn {R} r.
Arguments HThrow {R} e.
Arguments HResolve {R} r.
Arguments HReject {R} e.

(** A hook on an item receives the item (an object by reference, or [null]
    when the store found none) and may mutate the objects of the heap.  A
    hook reads the context that it is handed and is taken to leave it as it
    is. *)
Definition item_hook : Type :=
  hook_ret -> HookContext -> list obj -> hook_outcome hook_ret * list obj.
(** A hook on an item id; it too is taken to leave the context as it is. *)
Definition id_hook : Type := value -> HookContext -> hook_outcome value.
(** The [onFailure] hook. *)
Definition failure_hook : Type := thrown -> HookContext -> hook_outcome value.

Record Hooks := {
  hook_beforeGetItem : option id_hook;
  hook_afterGetItem : option item_hook;
  hook_beforeInsert : option item_hook;
  hook_afterInsert : option item_hook;
  hook_beforeRemove : option id_hook;
  hook_afterRemove : option id_hook;
  hook_beforeUpdate : option item_hook;
  hook_afterUpdate : option id_hook;
  hook_onFailure : option failure_hook
}.

Definition no_hooks : Hooks :=
  {| hook_beforeGetItem := None; hook_afterGetItem := None;
     hook_beforeInsert := None; hook_afterInsert := None;
     hook_beforeRemove := None; hook_afterRemove := None;
     hook_beforeUpdate := None; hook_afterUpdate := None;
     hook_onFailure := None |}.

Inductive AccessType := read | write | modify_ | delete_.

Definition AccessType_upper (a : AccessType) : string :=
  match a with
  | read => "READ" | write => "WRITE" | modify_ => "MODIFY" | delete_ => "DELETE"
  end.

Record Permissions := {
  perm_read : option string;
  perm_write : option string;
  perm_modify : option string;
  perm_delete : option string
}.

Definition permission_for (p : Permissions) (a : AccessType) : option string :=
  match a with
  | read => perm_read p
  | write => perm_write p
  | modify_ => perm_modify p
  | delete_ => perm_delete p
  end.

Record CollectionDefinition := {
  col_name : string;
  col_schema : option Schema;
  col_permissions : option Permissions;
  col_hooks : option Hooks
}.

Record DatabaseDefinition := {
  db_name : string;
  db_collections : list CollectionDefinition
}.

(** [collection.hooks?.h] *)
Definition hook_of {H} (collection : CollectionDefinition) (h : Hooks -> option H)
  : option H :=
  match col_hooks collection with
  | Some hooks => h hooks
  | None => None
  end.

(** [NasriyaDataOptions]: each key is [Some v] when present. *)
Record NasriyaDataOptions := {
  suppressAuth : option value;
  suppressHooks : option value
}.

Definition default_options : NasriyaDataOptions :=
  {| suppressAuth := Some (VBool false); suppressHooks := Some (VBool false) |}.

(** [v === true] for an optional property. *)
Definition is_true (v : option value) : bool :=
  match v with
  | Some (VBool true) => true
  | _ => false
  end.

(** ** The document store and the world *)

Record CursorOptions := {
  cur_sort : list (string * Z);
  cur_projection : list (string * Z);
  cur_limit : Z;
  cur_skip : Z
}.

(** The capability interface of the store.  Reads are functions of the store
    state, writes also return the next state; every call may fail.  The filter
    of [countDocuments] may be [null]. *)
Class Storage := {
  db_state : Type;
  listCollections : option string -> db_state -> result (list string);
  findOne : option string -> string -> obj -> db_state -> result (option obj);
  find_toArray : option string -> string -> obj -> CursorOptions -> db_state
                 -> result (list obj);
  countDocuments : option string -> string -> option obj -> db_state -> result Z;
  insertOne : option string -> string -> obj -> db_state -> result value * db_state;
  updateOne : option string -> string -> obj -> obj -> db_state -> result bool * db_state;
  deleteOne : option string -> string -> obj -> db_state -> result bool * db_state
}.

(** The calls made on the store. *)
Inductive StorageCall :=
| CallListCollections (db : option string)
| CallFindOne (db : option string) (collection : string) (filter : obj)
| CallFind (db : option string) (collection : string) (filter : obj)
    (options : CursorOptions)
| CallCountDocuments (db : option string) (collection : string) (filter : option obj)
| CallInsertOne (db : option string) (collection : string) (doc : obj)
| CallUpdateOne (db : option string) (collection : string) (filter update : obj)
| CallDeleteOne (db : option string) (collection : string) (filter : obj).

Definition is_write (c : StorageCall) : bool :=
  match c with
  | CallInsertOne _ _ _ | CallUpdateOne _ _ _ _ | CallDeleteOne _ _ _ => true
  | _ => false
  end.

(** What the runtime provides: the clock ([new Date()]), the id generator
    ([uuidx.v4()], one id per draw), the parser behind [new Date(string)],
    the [toString] methods of the built-in objects, and the parser behind
    [new RegExp(source)]: the message of the [SyntaxError] that it throws on
    a source that is not a pattern. *)
Record Runtime := {
  now : Z;
  uuid_v4 : nat -> string;
  Date_parse : string -> option Z;
  toString : value -> string;
  RegExp_error : string -> option string
}.

(** [`${v}`]: the text of a value in a template literal; dates, arrays,
    regular expressions, errors and functions print through their own
    [toString], which the runtime provides. *)
Definition template_text (rt : Runtime) (v : value) : string :=
  match v with
  | VUndefined => "undefined"
  | VNull => "null"
  | VBool true => "true"
  | VBool false => "false"
  | VNumber n => pretty n
  | VString s => s
  | VObject _ => "[object Object]"
  | _ => toString rt v
  end.

(** ** The schema validator: [validateItemSchema]

    The validators work on the item in place; here they are computations over
    the item as state. *)

(** The double-quote character, for the messages. *)
Definition dq : string := String "034"%char EmptyString.

Inductive Operation := Insert | Update.

Definition is_array (v : value) : bool :=
  match v with VArray _ => true | _ => false end.

Definition is_date (v : value) : bool :=
  match v with VDate _ => true | _ => false end.

(** [`${schema?.[property]}`] *)
Definition SchemaField_text (f : SchemaField) : string :=
  match f with
  | TypeTag t => t
  | Custom _ => "[object Object]"
  end.

(** The schema entry as the value that [switch] inspects. *)
Definition SchemaField_value (f : SchemaField) : value :=
  match f with
  | TypeTag t => VString t
  | Custom c => VObject {[ "type" := cs_type c ]}
  end.

Definition type_mismatch (property schemaType : string) (v : value) : thrown :=
  TString ("The " +:+ property +:+ " type is defined in the collection's schema as '"
           +:+ schemaType +:+ "', but instead got " +:+ typeof v).

Definition checkType {S} (property schemaText : string) (schemaType : value)
    (v : value) : ST S unit :=
  let invalid : ST S unit :=
    throw (TString ("'" +:+ schemaText +:+ "' is not a valid database schema type")) in
  match schemaType with
  | VString t =>
    if String.eqb t "Array" then
      throw_if (negb (is_array v)) (type_mismatch property t v)
    else if String.eqb t "Boolean" then
      throw_if (negb (String.eqb (typeof v) "boolean")) (type_mismatch property t v)
    else if String.eqb t "Date" then
      throw_if (negb (is_date v)) (type_mismatch property t v)
    else if String.eqb t "Number" then
      throw_if (negb (String.eqb (typeof v) "number")) (type_mismatch property t v)
    else if String.eqb t "String" then
      throw_if (negb (String.eqb (typeof v) "string")) (type_mismatch property t v)
    else if String.eqb t "Object" then
      throw_if (negb (helpers.isRealObject v)) (type_mismatch property t v)
    else if String.eqb t "Any" then ret tt
    else invalid
  | _ => invalid
  end.

Definition missing_required (property : string) : thrown :=
  TString ("The " +:+ property
           +:+ " property is required but is missing on the provided object").

(** [valid !== true] *)
Definition not_true (v : value) : bool :=
  match v with VBool true => false | _ => true end.

(** The body of the loop over the schema, for one property. *)
Definition validateProperty (operation : option Operation) (property : string)
    (propSchema : SchemaField) : ST obj unit :=
  let* item := get in
  if helpers.isCustomSchema propSchema then
    match propSchema with
    | Custom c =>
      if has_prop property item then
        match cs_validity c with
        | Some validity =>
          match validity_handler validity (get_prop property item) with
          | Ok valid => throw_if (not_true valid) (TString (validity_message validity))
          | Throw e => throw e
          end
        | None =>
          checkType property (SchemaField_text propSchema) (cs_type c)
            (get_prop property item)
        end
      else
        match operation with
        | Some Insert =>
          match cs_required c with
          | Some _ =>
            match cs_default c with
            | Some d => modify (insert property d)
            | None => throw (missing_required property)
            end
          | None =>
            match cs_default c with
            | Some d => modify (insert property d)
            | None => ret tt
            end
          end
        | Some Update => ret tt
        | None => ret tt
        end
    | TypeTag _ => ret tt
    end
  else
    if has_prop property item then
      checkType property (SchemaField_text propSchema) (SchemaField_value propSchema)
        (get_prop property item)
    else ret tt.

Fixpoint validateProperties (operation : option Operation) (schema : Schema)
  : ST obj unit :=
  match schema with
  | [] => ret tt
  | (property, propSchema) :: rest =>
    let* _ := validateProperty operation property propSchema in
    validateProperties operation rest
  end.

(** [validateItemSchema(item, schema?, operation?)]; the item is an object by
    type, so the leading [isRealObject(item)] test passes. *)
Definition validateItemSchema (schema : option Schema) (operation : option Operation)
  : ST obj unit :=
  match schema with
  | Some schema => validateProperties operation schema
  | None => ret tt
  end.

(** ** The item normalizer: [validateInsertItem], [validateUpdateItem] *)

(** The lower case of a code unit below 256: the letters A to Z, and the
    letters from U+00C0 to U+00DE but for the sign U+00D7, are 32 below their
    lower case; every other one is its own. *)
Definition lower_unit (c : ascii) : ascii :=
  let n := Ascii.nat_of_ascii c in
  if ((Nat.leb 65 n && Nat.leb n 90)
      || (Nat.leb 192 n && Nat.leb n 222 && negb (Nat.eqb n 215)))%bool
  then Ascii.ascii_of_nat (n + 32) else c.

(** [s.toLowerCase()] *)
Fixpoint toLowerCase (s : string) : string :=
  match s with
  | EmptyString => EmptyString
  | String c rest => String (lower_unit c) (toLowerCase rest)
  end.

Definition is_empty (s : string) : bool := Nat.eqb (String.length s) 0.

(** [date < createdDate] on Date objects: a comparison of time values, false
    when either is an Invalid Date. *)
Definition date_lt (date : option Z) (createdDate : value) : bool :=
  match date, createdDate with
  | Some d, VDate (Some c) => d <? c
  | _, _ => false
  end.

(** The check of a supplied [_id], shared by both normalizers. *)
Definition check_id (id : value) : ST obj unit :=
  match id with
  | VString s =>
    throw_if (is_empty s) (TRangeError "The provided item _id cannot be an empty string")
  | _ =>
    throw (TTypeError ("The item ID is expected to be a string, instead got " +:+ typeof id))
  end.

Definition invalid_date_field (field : string) (v : value) : thrown :=
  TTypeError ("The items's " +:+ dq +:+ field +:+ dq
              +:+ " is invalid. Expected a Date instance or a date ISO but got "
              +:+ typeof v).

Definition updated_before_created : thrown :=
  TString ("The inserted items's " +:+ dq +:+ "_updatedDate" +:+ dq
           +:+ " is cannot be before the " +:+ dq +:+ "_createdDate" +:+ dq
           +:+ " of the document").

(** [validateInsertItem(item, userId)], block by block.  [fresh] is the id
    that [uuidx.v4()] would return.  [new Date(string)] does not throw, so the
    [catch] blocks around it in the source are never entered. *)

(** The [_id] block. *)
Definition insert_id (fresh : string) : ST obj unit :=
  let* item := get in
  if has_prop "_id" item then check_id (get_prop "_id" item)
  else modify (insert "_id" (VString fresh)).

(** The [_createdDate] block. *)
Definition insert_createdDate (rt : Runtime) : ST obj unit :=
  let* item := get in
  if has_prop "_createdDate" item then
    match get_prop "_createdDate" item with
    | VString s => modify (insert "_createdDate" (VDate (Date_parse rt s)))
    | VDate t => modify (insert "_createdDate" (VDate t))
    | v => throw (invalid_date_field "_createdDate" v)
    end
  else modify (insert "_createdDate" (VDate (Some (now rt)))).

(** The [_updatedDate] block. *)
Definition insert_updatedDate (rt : Runtime) : ST obj unit :=
  let* item := get in
  if has_prop "_updatedDate" item then
    let* date :=
      match get_prop "_updatedDate" item with
      | VString s => ret (Date_parse rt s)
      | VDate t => ret t
      | v => throw (invalid_date_field "_updatedDate" v)
      end in
    let* _ := throw_if (date_lt date (get_prop "_createdDate" item))
                updated_before_created in
    modify (insert "_updatedDate" (VDate date))
  else modify (insert "_updatedDate" (get_prop "_createdDate" item)).

(** The [_owner] block. *)
Definition insert_owner (authorization : Authorization) (userId : option string)
  : ST obj unit :=
  let* item := get in
  match authorization with
  | System => modify (insert "_owner" (VString "system"))
  | User =>
    if has_prop "_owner" item then
      match get_prop "_owner" item with
      | VString s =>
        let* _ := throw_if (is_empty s)
                    (TRangeError ("The " +:+ dq +:+ "_owner" +:+ dq
                                  +:+ " value cannot be an empty string")) in
        throw_if (String.eqb (toLowerCase s) "system")
          (TRangeError ("The " +:+ dq +:+ "_owner" +:+ dq
                        +:+ " value cannot be set to the value " +:+ dq +:+ "System"
                        +:+ dq +:+ "."))
      | v =>
        throw (TTypeError ("The " +:+ dq +:+ "_owner" +:+ dq
                           +:+ " value should be a string, but instead got " +:+ typeof v))
      end
    else modify (insert "_owner" (id_value userId))
  end.

Definition validateInsertItem (rt : Runtime) (fresh : string)
    (authorization : Authorization) (userId : option string) : ST obj unit :=
  let* _ := insert_id fresh in
  let* _ := insert_createdDate rt in
  let* _ := insert_updatedDate rt in
  insert_owner authorization userId.

(** [validateUpdateItem(item)] *)
Definition validateUpdateItem (rt : Runtime) : ST obj unit :=
  let* item := get in
  let* _ :=
    if has_prop "_id" item then check_id (get_prop "_id" item)
    else throw (TSyntaxError ("An item in the update list is missing its " +:+ dq +:+ "_id"
                              +:+ dq +:+ " field. All items must include the " +:+ dq
                              +:+ "_id" +:+ dq +:+ " property")) in
  let* _ := modify (delete "_createdDate") in
  let* _ := modify (delete "_owner") in
  modify (insert "_updatedDate" (VDate (Some (now rt)))).

(** ** The client (client.ts) *)

(** The [#_config] of a client. *)
Record Client := {
  authorization : Authorization;
  selected : option string;
  default_database : option string;
  user : ClientUser
}.

Record UserOptions := {
  uo_id : option string;
  uo_loggedIn : option value;
  uo_role : option Role
}.

Record ClientConstructorOptions := {
  co_authorization : option Authorization;
  co_defaultDatabase : option string;
  co_user : option UserOptions
}.

(** [x || undefined] on an optional string: the empty string is falsy. *)
Definition truthy_string (s : option string) : option string :=
  match s with
  | Some s => if is_empty s then None else Some s
  | None => None
  end.

(** [new NasriyaDataClient(options)] *)
Definition new_client (options : ClientConstructorOptions) : Client :=
  let authorization := default User (co_authorization options) in
  let database := truthy_string (co_defaultDatabase options) in
  {| authorization := authorization;
     selected := database;
     default_database := database;
     user :=
       match authorization with
       | User =>
         {| user_id := truthy_string (co_user options ≫= uo_id);
            user_loggedIn := is_true (co_user options ≫= uo_loggedIn);
            user_role := default Visitor (co_user options ≫= uo_role) |}
       | System =>
         {| user_id := None; user_loggedIn := false; user_role := Visitor |}
       end |}.

(** [`${name}`] for a database name that may be [null]. *)
Definition name_text (name : option string) : string := default "null"%string name.

(** The argument that [checkArgs] inspects. *)
Inductive ArgData :=
| ArgString (v : string)
| ArgObject (l : loc).

Section Worlds.
Context `{store : Storage}.

(** The world an operation runs in: the heap of shared objects, the state
    of the store, the calls made on the store (latest last), the console,
    and the number of ids drawn from the generator. *)
Record World := {
  w_heap : list obj;
  w_db : db_state;
  w_calls : list StorageCall;
  w_console : list string;
  w_uuid : nat
}.

Definition M : Type -> Type := ST World.

Definition with_heap (h : list obj) (w : World) : World :=
  {| w_heap := h; w_db := w_db w; w_calls := w_calls w;
     w_console := w_console w; w_uuid := w_uuid w |}.

Definition with_call (c : StorageCall) (d : db_state) (w : World) : World :=
  {| w_heap := w_heap w; w_db := d; w_calls := w_calls w ++ [c];
     w_console := w_console w; w_uuid := w_uuid w |}.

Definition with_console (line : string) (w : World) : World :=
  {| w_heap := w_heap w; w_db := w_db w; w_calls := w_calls w;
     w_console := w_console w ++ [line]; w_uuid := w_uuid w |}.

Definition with_uuid (n : nat) (w : World) : World :=
  {| w_heap := w_heap w; w_db := w_db w; w_calls := w_calls w;
     w_console := w_console w; w_uuid := n |}.

(** *** The heap *)

Definition heap_get (l : loc) (h : list obj) : obj := default ∅ (h !! l).

(** The object at [l]. *)
Definition read_obj (l : loc) : M obj := fun w => (Ok (heap_get l (w_heap w)), w).

(** A new object. *)
Definition alloc (o : obj) : M loc :=
  fun w => (Ok (length (w_heap w)), with_heap (w_heap w ++ [o]) w).

(** Run a computation over the object at [l], in place. *)
Definition on_obj {A} (l : loc) (m : ST obj A) : M A :=
  fun w =>
    let (r, o) := m (heap_get l (w_heap w)) in
    (r, with_heap (<[l := o]> (w_heap w)) w).

(** *** Calls on the store *)

Definition call_read {A} (c : StorageCall) (f : db_state -> result A) : M A :=
  fun w => (f (w_db w), with_call c (w_db w) w).

Definition call_write {A} (c : StorageCall) (f : db_state -> result A * db_state)
  : M A :=
  fun w => let (r, d) := f (w_db w) in (r, with_call c d w).

Definition call_listCollections (db : option string) : M (list string) :=
  call_read (CallListCollections db) (listCollections db).

Definition call_findOne (db : option string) (collection : string) (filter : obj)
  : M (option obj) :=
  call_read (CallFindOne db collection filter) (findOne db collection filter).

Definition call_find (db : option string) (collection : string) (filter : obj)
    (options : CursorOptions) : M (list obj) :=
  call_read (CallFind db collection filter options)
    (find_toArray db collection filter options).

Definition call_countDocuments (db : option string) (collection : string)
    (filter : option obj) : M Z :=
  call_read (CallCountDocuments db collection filter)
    (countDocuments db collection filter).

Definition call_insertOne (db : option string) (collection : string) (doc : obj)
  : M value :=
  call_write (CallInsertOne db collection doc) (insertOne db collection doc).

Definition call_updateOne (db : option string) (collection : string)
    (filter update : obj) : M bool :=
  call_write (CallUpdateOne db collection filter update)
    (updateOne db collection filter update).

Definition call_deleteOne (db : option string) (collection : string) (filter : obj)
  : M bool :=
  call_write (CallDeleteOne db collection filter) (deleteOne db collection filter).

Definition console (line : string) : M unit :=
  fun w => (Ok tt, with_console line w).

(** *** Calling user hooks *)

(** Call a hook and await what it returns. *)
Definition settle {R} (outcome : hook_outcome R) : M R :=
  match outcome with
  | HReturn r | HResolve r => ret r
  | HThrow e | HReject e => throw e
  end.

Definition call_item_hook (hook : item_hook) (item : hook_ret) (context : HookContext)
  : M hook_ret :=
  fun w =>
    let (outcome, h) := hook item context (w_heap w) in
    settle outcome (with_heap h w).

(** [helpers.isRealObject(cache.item)]: the object, if it is one. *)
Definition as_real_object (r : hook_ret) : M (option loc) :=
  match r with
  | RObj l => ret (Some l)
  | RVal (VObject fields) => let* l := alloc fields in ret (Some l)
  | RVal _ => ret None
  end.

(** The value behind what a hook handed back. *)
Definition deref (r : hook_ret) : M value :=
  match r with
  | RObj l => let* o := read_obj l in ret (VObject o)
  | RVal v => ret v
  end.

End Worlds.

Module NasriyaDataClient.
Section Operations.
Context `{store : Storage}.

Variable rt : Runtime.
(** The databases registered with the database manager. *)
Variable databaseManager : list DatabaseDefinition.
Variable this : Client.

(** *** [#_utils] *)

Definition checkCollectionValidity (collectionName : string) : M unit :=
  let* exist :=
    try_catch
      (let* collections := call_listCollections (selected this) in
       ret (existsb (String.eqb collectionName) collections))
      (fun error =>
         throw (TMessage "Unable to check collection validity" (Some error))) in
  if exist then ret tt
  else throw (TMessage ("The (" +:+ collectionName
                        +:+ ") does not exist on your [object Object] database.") None).

(** [databaseManager.getDatabase(name)] *)
Definition getDatabase (name : option string) : option DatabaseDefinition :=
  match name with
  | Some name => List.find (fun i => String.eqb (db_name i) name) databaseManager
  | None => None
  end.

Definition access_denied (accessType : AccessType) (collection : CollectionDefinition)
  : thrown :=
  TString ("Access Denied: The current user (" +:+ id_text (user_id (user this))
           +:+ ") does not have " +:+ AccessType_upper accessType
           +:+ " permissions on the " +:+ col_name collection +:+ " collection").

(** [collection.permissions?.[accessType] || 'Allowed'] *)
Definition declared_permission (collection : CollectionDefinition)
    (accessType : AccessType) : string :=
  match col_permissions collection ≫= (fun p => permission_for p accessType) with
  | Some p => if is_empty p then "Allowed" else p
  | None => "Allowed"
  end.

Definition prepareEvent (collectionName : string) (accessType : AccessType)
    (options : NasriyaDataOptions) : M (Verdict * CollectionDefinition) :=
  match getDatabase (selected this) with
  | None =>
    throw (TString ("The database " +:+ name_text (selected this)
                    +:+ " is not a defined database"))
  | Some database =>
    match List.find (fun i => String.eqb (col_name i) collectionName)
            (db_collections database) with
    | None =>
      throw (TString ("The collection " +:+ collectionName +:+ " does not exist on the "
                      +:+ name_text (selected this) +:+ " database"))
    | Some collection =>
      let permission := declared_permission collection accessType in
      let auth :=
        if negb (is_true (suppressAuth options))
        then authUser (authorization this) (user this) (Some permission)
        else Allowed in
      if Verdict_eqb auth Denied then throw (access_denied accessType collection)
      else ret (auth, collection)
    end
  end.

Definition check_boolean_option (name : string) (v : option value) : M unit :=
  match v with
  | Some v =>
    throw_if (negb (String.eqb (typeof v) "boolean"))
      (TTypeError ("The '" +:+ name
                   +:+ "' option can only accept a boolean value, instead got "
                   +:+ typeof v))
  | None => ret tt
  end.

(** [checkArgs(collectionName, argData, options)]; the collection name, the
    item id and the item have their declared types. *)
Definition checkArgs (collectionName : string) (argData : ArgData)
    (options : NasriyaDataOptions) : M unit :=
  let* _ := checkCollectionValidity collectionName in
  let* _ :=
    match argData with
    | ArgString v =>
      throw_if (is_empty v) (TRangeError "The itemId cannot be an empty string")
    | ArgObject _ => ret tt
    end in
  let* _ := check_boolean_option "suppressAuth" (suppressAuth options) in
  check_boolean_option "suppressHooks" (suppressHooks options).

(** *** [#_events] *)

Definition context_of (collection : CollectionDefinition) : HookContext :=
  {| collectionName := col_name collection;
     userId := user_id (user this);
     userRole := user_role (user this) |}.

(** The hooks on an item id ([beforeGetItem], [beforeRemove], [afterRemove],
    [afterUpdate]) have the same body in the source. *)
Definition id_event (hook : option id_hook) (itemId : value) (context : HookContext)
    (options : NasriyaDataOptions) : M value :=
  if negb (is_true (suppressHooks options)) then
    match hook with
    | Some hook =>
      let* r := settle (hook itemId context) in
      if String.eqb (typeof r) "string" then ret r else ret itemId
    | None => ret itemId
    end
  else ret itemId.

Definition beforeGetItem := id_event.
Definition beforeRemove := id_event.
Definition afterRemove := id_event.
Definition afterUpdate := id_event.

(** [afterGetItem] and [afterInsert] have the same body in the source. *)
Definition after_item_event (hook : option item_hook) (item : hook_ret)
    (context : HookContext) (options : NasriyaDataOptions) : M hook_ret :=
  if negb (is_true (suppressHooks options)) then
    match hook with
    | Some hook =>
      let* r := call_item_hook hook item context in
      let* o := as_real_object r in
      match o with
      | Some l => ret (RObj l)
      | None => ret item
      end
    | None => ret item
    end
  else ret item.

Definition afterGetItem := after_item_event.
Definition afterInsert := after_item_event.

(** [validateInsertItem] on the object at [item]; an id is drawn from the
    generator when the item has none. *)
Definition normalize_insert (item : loc) (userId : option string) : M unit :=
  fun w =>
    let draws :=
      if has_prop "_id" (heap_get item (w_heap w)) then w_uuid w else S (w_uuid w) in
    on_obj item
      (validateInsertItem rt (uuid_v4 rt (w_uuid w)) (authorization this) userId)
      (with_uuid draws w).

Definition beforeInsert (hook : option item_hook) (item : loc) (context : HookContext)
    (options : NasriyaDataOptions) : M loc :=
  let* _ := normalize_insert item (userId context) in
  if negb (is_true (suppressHooks options)) then
    match hook with
    | Some hook =>
      let* r := call_item_hook hook (RObj item) context in
      let* o := as_real_object r in
      match o with
      | Some l => let* _ := normalize_insert l (userId context) in ret l
      | None => ret item
      end
    | None => ret item
    end
  else ret item.

Definition beforeUpdate (hook : option item_hook) (item : loc) (context : HookContext)
    (options : NasriyaDataOptions) : M loc :=
  let* _ := on_obj item (validateUpdateItem rt) in
  if negb (is_true (suppressHooks options)) then
    match hook with
    | Some hook =>
      let* r := call_item_hook hook (RObj item) context in
      let* o := as_real_object r in
      match o with
      | Some l => let* _ := on_obj l (validateUpdateItem rt) in ret l
      | None => ret item
      end
    | None => ret item
    end
  else ret item.

Definition onFailure_warning (context : HookContext) : string :=
  "An error has been thrown in your onFailure data hook for the "
  +:+ collectionName context
  +:+ " collection. Do not use the onFailure hook to throw errors. An error is already thrown".

(** [onFailure(args)]: the hook is called synchronously and what it returns
    is dropped; only a synchronous throw reaches the [catch]. *)
Definition onFailure {A} (hook : option failure_hook)
    (options : option NasriyaDataOptions) (dataOperation : string)
    (context : HookContext) (error : thrown) : M A :=
  let failure := TFailure (dataOperation +:+ "_error") context error in
  let* _ :=
    if negb (is_true (options ≫= suppressHooks)) then
      match hook with
      | Some hook =>
        match hook error context with
        | HThrow _ => console (onFailure_warning context)
        | HReturn _ | HResolve _ | HReject _ => ret tt
        end
      | None => ret tt
      end
    else ret tt in
  throw failure.

(** *** The operations *)

(** [...(permission === 'Owned-Items' ? { _owner: context.userId } : {})] *)
Definition owner_scope (permission : Verdict) (context : HookContext) : obj :=
  if Verdict_eqb permission OwnedItems
  then {[ "_owner" := id_value (userId context) ]}
  else ∅.

(** A document read from the store, as a new object; [null] if none. *)
Definition fetched (item : option obj) : M hook_ret :=
  match item with
  | Some doc => let* l := alloc doc in ret (RObj l)
  | None => ret (RVal VNull)
  end.

Definition getItem (collectionName itemId : string) (options : NasriyaDataOptions)
  : M value :=
  let accessType := read in
  let* _ := checkArgs collectionName (ArgString itemId) options in
  let* prepared := prepareEvent collectionName accessType options in
  let (permission, collection) := prepared in
  let context := context_of collection in
  try_catch
    (let* newItemId :=
       beforeGetItem (hook_of collection hook_beforeGetItem) (VString itemId)
         context options in
     let criteria := spread {[ "_id" := newItemId ]} (owner_scope permission context) in
     let* item := call_findOne (selected this) collectionName criteria in
     match item with
     | None => ret VNull
     | Some _ =>
       let* item := fetched item in
       let* newItem :=
         afterGetItem (hook_of collection hook_afterGetItem) item context options in
       deref newItem
     end)
    (fun error =>
       onFailure (hook_of collection hook_onFailure) (Some options) "getItem"
         context error).

(** [insert]: the schema validator is called without an operation, and the
    promise of [afterInsert] is returned without being awaited, so a failure
    of the after hook does not pass through the [catch]. *)
Definition insert (collectionName : string) (item : loc)
    (options : NasriyaDataOptions) : M value :=
  let accessType := write in
  let* _ := checkArgs collectionName (ArgObject item) options in
  let* prepared := prepareEvent collectionName accessType options in
  let (permission, collection) := prepared in
  let context := context_of collection in
  let* insertedItem :=
    try_catch
      (let* beforeItem :=
         beforeInsert (hook_of collection hook_beforeInsert) item context options in
       let* _ := on_obj beforeItem (validateItemSchema (col_schema collection) None) in
       let finalItem := beforeItem in
       let* doc := read_obj finalItem in
       let* insertedId := call_insertOne (selected this) collectionName doc in
       call_findOne (selected this) collectionName {[ "_id" := insertedId ]})
      (fun error =>
         onFailure (hook_of collection hook_onFailure) (Some options) "insert"
           context error) in
  let* insertedItem := fetched insertedItem in
  let* newItem :=
    afterInsert (hook_of collection hook_afterInsert) insertedItem context options in
  deref newItem.

(** [remove]: the after event is given [collection.hooks?.beforeRemove]. *)
Definition remove (collectionName itemId : string) (options : NasriyaDataOptions)
  : M value :=
  let accessType := delete_ in
  let* _ := checkArgs collectionName (ArgString itemId) options in
  let* prepared := prepareEvent collectionName accessType options in
  let (permission, collection) := prepared in
  let context := context_of collection in
  try_catch
    (let* beforeItemId :=
       beforeRemove (hook_of collection hook_beforeRemove) (VString itemId)
         context options in
     let criteria :=
       spread {[ "_id" := beforeItemId ]} (owner_scope permission context) in
     let* acknowledged := call_deleteOne (selected this) collectionName criteria in
     let* _ :=
       throw_if (negb acknowledged)
         (TMessage ("The data adapter is unable to remove "
                    +:+ template_text rt beforeItemId +:+ ".") None) in
     afterRemove (hook_of collection hook_beforeRemove) beforeItemId context options)
    (fun error =>
       onFailure (hook_of collection hook_onFailure) (Some options) "remove"
         context error).

(** [update]: the criteria come from [finalItem], the [$set] payload is the
    [item] argument. *)
Definition update (collectionName : string) (item : loc)
    (options : NasriyaDataOptions) : M value :=
  let accessType := modify_ in
  let* _ := checkArgs collectionName (ArgObject item) options in
  let* prepared := prepareEvent collectionName accessType options in
  let (permission, collection) := prepared in
  let context := context_of collection in
  try_catch
    (let* beforeItem :=
       beforeUpdate (hook_of collection hook_beforeUpdate) item context options in
     let* _ :=
       on_obj beforeItem (validateItemSchema (col_schema collection) (Some Update)) in
     let* finalItem := read_obj beforeItem in
     let criteria :=
       spread {[ "_id" := get_prop "_id" finalItem ]} (owner_scope permission context) in
     let* payload := read_obj item in
     let* acknowledged :=
       call_updateOne (selected this) collectionName criteria
         {[ "$set" := VObject payload ]} in
     let* _ :=
       throw_if (negb acknowledged)
         (TError ("The data adapter is unable to update "
                  +:+ template_text rt (get_prop "_id" finalItem) +:+ ".")) in
     afterUpdate (hook_of collection hook_afterUpdate) (get_prop "_id" finalItem)
       context options)
    (fun error =>
       onFailure (hook_of collection hook_onFailure) (Some options) "update"
         context error).

End Operations.
End NasriyaDataClient.


(** ** The filter builder (assets/filter.ts) *)

Module DataFilter.

(** A [DataFilter] owns one query object, [#_queryObject], on the heap. *)
Record t := { queryObject : loc }.

Definition checkProperty (prop : string) : ST obj unit :=
  throw_if (is_empty prop)
    (TString "Missing or invalid property passed to the data refiner. The property cannot be an empty string").

Definition regex_special (c : ascii) : bool :=
  existsb (Ascii.eqb c)
    ["."; "*"; "+"; "?"; "^"; "$"; "{"; "}"; "("; ")"; "|"; "["; "]"; "\"]%char.

(** [value.replace(/[.*+?^${}()|[\]\\]/g, '\\$&')] *)
Fixpoint escape (s : string) : string :=
  match s with
  | EmptyString => EmptyString
  | String c rest =>
    if regex_special c then String "\"%char (String c (escape rest))
    else String c (escape rest)
  end.

(** The checks of the [options] argument of [eq] and [ne]. *)
Definition check_options (valueIsString : bool) (options : option value)
  : ST obj unit :=
  match options with
  | Some options =>
    let* _ :=
      throw_if (negb (helpers.isRealObject options))
        (TTypeError ("The provided options object is invalid. Expected an object but instead got "
                     +:+ typeof options +:+ ".")) in
    if helpers.hasOwnProperty options "caseSensitive" then
      let* _ :=
        throw_if (negb valueIsString)
          (TSyntaxError ("The " +:+ dq +:+ "caseSensitive" +:+ dq
                         +:+ " option is only valid for string values.")) in
      let caseSensitive :=
        match options with
        | VObject fields => get_prop "caseSensitive" fields
        | _ => VUndefined
        end in
      throw_if (negb (String.eqb (typeof caseSensitive) "boolean"))
        (TTypeError ("The " +:+ dq +:+ "caseSensitive" +:+ dq
                     +:+ " option is invalid. Expected a boolean but instead got "
                     +:+ typeof caseSensitive +:+ "."))
    else ret tt
  | None => ret tt
  end.

(** [(options?.caseSensitive ?? true) === false] *)
Definition case_insensitive (options : option value) : bool :=
  match options with
  | Some (VObject fields) =>
    match get_prop "caseSensitive" fields with
    | VBool false => true
    | _ => false
    end
  | _ => false
  end.

(** In [eq] and [ne] the text is escaped before it goes into the pattern, so
    [new RegExp] does not throw on it. *)
Definition eq (property : string) (v : value) (options : option value)
  : ST obj unit :=
  let* _ := checkProperty property in
  let valueIsString := String.eqb (typeof v) "string" in
  let* _ := check_options valueIsString options in
  match v with
  | VString s =>
    if case_insensitive options
    then modify (assign property (VRegExp ("^" +:+ escape s +:+ "$") "i"))
    else modify (assign property (VObject {[ "$eq" := v ]}))
  | _ => modify (assign property (VObject {[ "$eq" := v ]}))
  end.

Definition ne (property : string) (v : value) (options : option value)
  : ST obj unit :=
  let* _ := checkProperty property in
  let valueIsString := String.eqb (typeof v) "string" in
  let* _ := check_options valueIsString options in
  match v with
  | VString s =>
    if case_insensitive options
    then modify (assign property
                   (VObject {[ "$ne" := VRegExp ("^" +:+ escape s +:+ "$") "i" ]}))
    else modify (assign property (VObject {[ "$ne" := v ]}))
  | _ => modify (assign property (VObject {[ "$ne" := v ]}))
  end.

(** [gte], [gt], [lt] and [lte] differ in the operator key only. *)
Definition compare (key property : string) (v : value) : ST obj unit :=
  let* _ := checkProperty property in
  modify (assign property (VObject {[ key := v ]})).

Definition gte := compare "$gte".
Definition gt := compare "$gt".
Definition lt := compare "$lt".
Definition lte := compare "$lte".

Definition not_an_array (name property : string) (v : value) : thrown :=
  TString ("Unable to use the " +:+ dq +:+ name +:+ dq +:+ " filter on the " +:+ dq
           +:+ property +:+ dq
           +:+ " property. The passed value is invalid. Expected an array as a value but instead got "
           +:+ typeof v +:+ ".").

Definition in_ (property : string) (v : value) : ST obj unit :=
  let* _ := checkProperty property in
  let* _ := throw_if (negb (is_array v)) (not_an_array "in" property v) in
  modify (assign property (VObject {[ "$in" := v ]})).

Definition nin (property : string) (v : value) : ST obj unit :=
  let* _ := checkProperty property in
  let* _ := throw_if (negb (is_array v)) (not_an_array "nin" property v) in
  modify (assign property (VObject {[ "$nin" := v ]})).

Definition exists_ (property : string) (v : value) : ST obj unit :=
  let* _ := checkProperty property in
  let* _ :=
    throw_if (helpers.isUndefined v)
      (TString ("The " +:+ dq +:+ "exists" +:+ dq
                +:+ " data operator was called without passing a boolean value.")) in
  let* _ :=
    throw_if (negb (String.eqb (typeof v) "boolean"))
      (TString ("The value that was passed to the " +:+ dq +:+ "exists" +:+ dq
                +:+ " data operator is invalid. Expected a boolean value but instead got "
                +:+ typeof v +:+ ".")) in
  modify (assign property (VObject {[ "$exists" := v ]})).

(** A call of one of the operators above. *)
Inductive operator :=
| Eq (property : string) (v : value) (options : option value)
| Ne (property : string) (v : value) (options : option value)
| Gte (property : string) (v : value)
| Gt (property : string) (v : value)
| Lt (property : string) (v : value)
| Lte (property : string) (v : value)
| In (property : string) (v : value)
| Nin (property : string) (v : value)
| Exists (property : string) (v : value).

Definition run (op : operator) : ST obj unit :=
  match op with
  | Eq property v options => eq property v options
  | Ne property v options => ne property v options
  | Gte property v => gte property v
  | Gt property v => gt property v
  | Lt property v => lt property v
  | Lte property v => lte property v
  | In property v => in_ property v
  | Nin property v => nin property v
  | Exists property v => exists_ property v
  end.

Section Methods.
Context `{store : Storage}.

(** [new DataFilter()] *)
Definition new : M t :=
  let* l := alloc ∅ in ret {| queryObject := l |}.

(** [this.op(...)]: the operator works on [#_queryObject] in place and
    returns [this]. *)
Definition call (this : t) (op : operator) : M t :=
  let* _ := on_obj (queryObject this) (run op) in ret this.

(** [get _filter()] *)
Definition _filter (this : t) : loc := queryObject this.

End Methods.
End DataFilter.


(** ** The query executor (assets/query.ts) *)

Module DataQuery.

(** [#_data] *)
Record Data := {
  database : DatabaseDefinition;
  collection : CollectionDefinition;
  data_user : ClientUser;
  data_authorization : Authorization
}.

(** [#_config]; [cfg_filter] is [None] while it is [null]. *)
Record Config := {
  cfg_filter : option loc;
  cfg_sort : list (string * Z);
  cfg_projection : list (string * Z);
  cfg_skip : Z;
  cfg_limit : Z
}.

Record t := { data : Data; config : Config }.

Record QueryResult := {
  totalCount : Z;
  pages : Z;
  pageSize : Z;
  items : list obj
}.

Definition with_filter (f : option loc) (c : Config) : Config :=
  {| cfg_filter := f; cfg_sort := cfg_sort c; cfg_projection := cfg_projection c;
     cfg_skip := cfg_skip c; cfg_limit := cfg_limit c |}.

Definition with_skip (n : Z) (c : Config) : Config :=
  {| cfg_filter := cfg_filter c; cfg_sort := cfg_sort c;
     cfg_projection := cfg_projection c; cfg_skip := n; cfg_limit := cfg_limit c |}.

Definition with_limit (n : Z) (c : Config) : Config :=
  {| cfg_filter := cfg_filter c; cfg_sort := cfg_sort c;
     cfg_projection := cfg_projection c; cfg_skip := cfg_skip c; cfg_limit := n |}.

Definition with_sort (s : list (string * Z)) (c : Config) : Config :=
  {| cfg_filter := cfg_filter c; cfg_sort := s;
     cfg_projection := cfg_projection c; cfg_skip := cfg_skip c;
     cfg_limit := cfg_limit c |}.

Definition with_config (c : Config) (q : t) : t := {| data := data q; config := c |}.

(** An object whose values are numbers (a sort, a projection) is the list of
    its own properties in the order in which they are enumerated: the names
    that are array indices first, in ascending order, then the other names in
    the order in which they were added. *)

Definition is_digit (c : ascii) : bool :=
  ((48 <=? nat_of_ascii c) && (nat_of_ascii c <=? 57))%nat.

(** The number that a string of decimal digits writes, after [number]. *)
Fixpoint numeral (number : N) (digits : string) : option N :=
  match digits with
  | EmptyString => Some number
  | String c rest =>
    if is_digit c then numeral (number * 10 + (N_of_ascii c - 48))%N rest else None
  end.

(** The number behind a name that is an array index: a decimal numeral
    without a sign or a leading zero, below 2^32 - 1. *)
Definition array_index (name : string) : option N :=
  match name with
  | EmptyString => None
  | String c rest =>
    if Ascii.eqb c "0" && negb (String.eqb rest "") then None
    else
      match numeral 0 name with
      | Some n => if (n <? 4294967295)%N then Some n else None
      | None => None
      end
  end.

(** The value of a property that exists is replaced in place. *)
Fixpoint replace_direction (property : string) (direction : Z)
    (sort : list (string * Z)) : list (string * Z) :=
  match sort with
  | [] => []
  | (p, d) :: rest =>
    if String.eqb p property then (p, direction) :: rest
    else (p, d) :: replace_direction property direction rest
  end.

(** A new property whose name is the array index [n] goes before the first
    name that is not an index or is a greater one. *)
Fixpoint place_index (n : N) (entry : string * Z) (sort : list (string * Z))
  : list (string * Z) :=
  match sort with
  | [] => [entry]
  | (p, d) :: rest =>
    match array_index p with
    | Some m =>
      if (m <? n)%N then (p, d) :: place_index n entry rest
      else entry :: (p, d) :: rest
    | None => entry :: (p, d) :: rest
    end
  end.

(** [sort[property] = direction] for a number [direction].  A property that
    exists takes the value in place.  The inherited setter of [__proto__]
    ignores a number, so that name adds nothing.  Any other new name is
    added: among the indices if it is one, else last. *)
Definition set_sort (property : string) (direction : Z) (sort : list (string * Z))
  : list (string * Z) :=
  if existsb (String.eqb property) sort.*1
  then replace_direction property direction sort
  else if String.eqb property "__proto__" then sort
  else
    match array_index property with
    | Some n => place_index n (property, direction) sort
    | None => sort ++ [(property, direction)]
    end.

(** [Math.ceil(totalCount / limit)] for a positive limit. *)
Definition ceil_div (totalCount limit : Z) : Z := - ((- totalCount) / limit).

Section Methods.
Context `{store : Storage}.

(** A method works on the executor and on the world. *)
Definition Q : Type -> Type := ST (t * World).

Definition in_world {A} (m : M A) : Q A :=
  fun s => let (r, w) := m (snd s) in (r, (fst s, w)).

Definition on_config (f : Config -> Config) : Q unit :=
  fun s => (Ok tt, (with_config (f (config (fst s))) (fst s), snd s)).

Definition this_ : Q t := fun s => (Ok (fst s), s).

(** [new DataQuery({ database, collection, authorization, user }, ...)] *)
Definition new (d : Data) : t :=
  {| data := d;
     config := {| cfg_filter := None; cfg_sort := []; cfg_projection := [];
                  cfg_skip := 0; cfg_limit := 100 |} |}.

(** [filter(filter)]: the executor keeps the query object of the builder. *)
Definition filter (f : DataFilter.t) : Q unit :=
  on_config (with_filter (Some (DataFilter._filter f))).

Definition skip (number : Z) : Q unit :=
  let* _ :=
    throw_if (number <? 0)
      (TRangeError "The query skip method only accepts numbers greater than zero (0)") in
  on_config (with_skip number).

Definition limit (n : Z) : Q unit :=
  let* _ := throw_if (n <? 1) (TString "The query limit cannot be less than one item") in
  let* _ := throw_if (2000 <? n) (TString "The query limit cannot exceed 2000 items") in
  on_config (with_limit n).

Definition sort_by (name : string) (direction : Z) (property : string) : Q unit :=
  if negb (is_empty property) then
    let* this := this_ in
    on_config (with_sort (set_sort property direction (cfg_sort (config this))))
  else
    throw (TString ("The " +:+ dq +:+ name +:+ dq
                    +:+ " sorting method is either missing a valid property or is missing the property.")).

Definition ascending := sort_by "ascending" 1.
Definition descending := sort_by "descending" (-1).

Definition checkCollectionValidity (collection_id : string) : Q unit :=
  let* this := this_ in
  let name := db_name (database (data this)) in
  let* exist :=
    try_catch
      (let* collections := in_world (call_listCollections (Some name)) in
       ret (existsb (String.eqb collection_id) collections))
      (fun error =>
         throw (TMessage "Unable to check collection validity" (Some error))) in
  if exist then ret tt
  else throw (TMessage ("The (" +:+ collection_id +:+ ") does not exist on your "
                        +:+ name +:+ " database.") None).

Definition prepareEvent (options : option NasriyaDataOptions) : Q Verdict :=
  let* this := this_ in
  let* _ := checkCollectionValidity (col_name (collection (data this))) in
  let readAccess := col_permissions (collection (data this)) ≫= perm_read in
  let permission :=
    if negb (is_true (options ≫= suppressAuth))
    then authUser (data_authorization (data this)) (data_user (data this)) readAccess
    else Allowed in
  if Verdict_eqb permission Denied then
    throw (TString ("Access Denied: The current user ("
                    +:+ id_text (user_id (data_user (data this)))
                    +:+ ") does not have READ permissions on the "
                    +:+ col_name (collection (data this)) +:+ " collection"))
  else ret permission.

Definition context_of (this : t) : HookContext :=
  {| collectionName := col_name (collection (data this));
     userId := user_id (data_user (data this));
     userRole := user_role (data_user (data this)) |}.

(** The filter handed to the store: [this.#_config.filter], with the owner
    property spread in front of it for an owned-items verdict. *)
Definition effective_filter (options : option NasriyaDataOptions)
    (permission : Verdict) (context : HookContext) (filter : option obj)
  : option obj :=
  if is_true (options ≫= suppressAuth) then filter
  else if Verdict_eqb permission OwnedItems
  then Some (spread {[ "_owner" := id_value (userId context) ]} (default ∅ filter))
  else filter.

(** The object behind [this.#_config.filter], if it is not [null]. *)
Definition current_filter : Q (option obj) :=
  let* this := this_ in
  match cfg_filter (config this) with
  | Some l => let* o := in_world (read_obj l) in ret (Some o)
  | None => ret None
  end.

(** Run a call to its end without throwing. *)
Definition attempt {A} (m : Q A) : Q (result A) :=
  fun s => let (r, s') := m s in (Ok r, s').

Definition settled {A} (r : result A) : Q A :=
  match r with
  | Ok a => ret a
  | Throw e => throw e
  end.

Definition find (options : option NasriyaDataOptions) : Q QueryResult :=
  let* this := this_ in
  let context := context_of this in
  try_catch
    (let* _ :=
       match cfg_filter (config this) with
       | Some _ => ret tt
       | None =>
         let* l := in_world (alloc ∅) in on_config (with_filter (Some l))
       end in
     let* permission := prepareEvent options in
     let* own := current_filter in
     let filter := default ∅ (effective_filter options permission context own) in
     let* this := this_ in
     let cursorOptions :=
       {| cur_sort := cfg_sort (config this);
          cur_projection := cfg_projection (config this);
          cur_limit := cfg_limit (config this);
          cur_skip := cfg_skip (config this) |} in
     let name := db_name (database (data this)) in
     let collection_name := col_name (collection (data this)) in
     let* counted :=
       attempt (in_world (call_countDocuments (Some name) collection_name (Some filter))) in
     let* fetched :=
       attempt (in_world (call_find (Some name) collection_name filter cursorOptions)) in
     let* totalCount := settled counted in
     let* items := settled fetched in
     let totalPages := ceil_div totalCount (cfg_limit (config this)) in
     ret {| totalCount := totalCount; pages := totalPages;
            pageSize := cfg_limit (config this); items := items |})
    (fun error =>
       in_world
         (NasriyaDataClient.onFailure (hook_of (collection (data this)) hook_onFailure)
            options "query" context error)).

Definition count (options : option NasriyaDataOptions) : Q Z :=
  let* this := this_ in
  let context := context_of this in
  try_catch
    (let* permission := prepareEvent options in
     let* own := current_filter in
     let filter := effective_filter options permission context own in
     let name := db_name (database (data this)) in
     let collection_name := col_name (collection (data this)) in
     in_world (call_countDocuments (Some name) collection_name filter))
    (fun error =>
       in_world
         (NasriyaDataClient.onFailure (hook_of (collection (data this)) hook_onFailure)
            options "count" context error)).

End Methods.
End DataQuery.


(** [client.query(collectionName)] *)
Definition query (databaseManager : list DatabaseDefinition) (this : Client)
    (collectionName : string) : result DataQuery.t :=
  match NasriyaDataClient.getDatabase databaseManager (selected this) with
  | None =>
    Throw (TString ("The database " +:+ name_text (selected this)
                    +:+ " is not a defined database"))
  | Some database =>
    match List.find (fun i => String.eqb (col_name i) collectionName)
            (db_collections database) with
    | None =>
      Throw (TString ("The collection " +:+ collectionName +:+ " does not exist on the "
                      +:+ name_text (selected this) +:+ " database"))
    | Some collection =>
      Ok (DataQuery.new
            {| DataQuery.database := database;
               DataQuery.collection := collection;
               DataQuery.data_user := user this;
               DataQuery.data_authorization := authorization this |})
    end
  end.

(** ** A reference store

    An in-memory store of one database, used to run the operations on
    concrete inputs.  A filter matches a document when each of its properties
    does: a primitive value or [{ $eq: v }] by equality with the property of
    the document; other predicates match nothing.  Sorting and projection are
    not applied. *)

Module MemStore.

Definition prim_eqb (a b : value) : bool :=
  match a, b with
  | VUndefined, VUndefined | VNull, VNull | VUndefined, VNull | VNull, VUndefined => true
  | VBool x, VBool y => Bool.eqb x y
  | VNumber x, VNumber y => x =? y
  | VString x, VString y => String.eqb x y
  | VDate (Some x), VDate (Some y) => x =? y
  | _, _ => false
  end.

Definition matches_property (doc : obj) (property : string) (condition : value) : bool :=
  match condition with
  | VObject c =>
    match c !! "$eq" with
    | Some v => prim_eqb (own_prop property doc) v
    | None => false
    end
  | _ => prim_eqb (own_prop property doc) condition
  end.

Definition matches (filter doc : obj) : bool :=
  forallb (fun kv => matches_property doc (fst kv) (snd kv)) (map_to_list filter).

Definition state : Type := list (string * list obj).

Definition docs (collection : string) (s : state) : list obj :=
  match List.find (fun c => String.eqb (fst c) collection) s with
  | Some c => snd c
  | None => []
  end.

Fixpoint set_docs (collection : string) (ds : list obj) (s : state) : state :=
  match s with
  | [] => [(collection, ds)]
  | (name, old) :: rest =>
    if String.eqb name collection then (name, ds) :: rest
    else (name, old) :: set_docs collection ds rest
  end.

Fixpoint update_first (filter set : obj) (ds : list obj) : list obj :=
  match ds with
  | [] => []
  | d :: rest =>
    if matches filter d then spread d set :: rest
    else d :: update_first filter set rest
  end.

Fixpoint delete_first (filter : obj) (ds : list obj) : list obj :=
  match ds with
  | [] => []
  | d :: rest => if matches filter d then rest else d :: delete_first filter rest
  end.

Definition set_of (update : obj) : obj :=
  match update !! "$set" with
  | Some (VObject fields) => fields
  | _ => ∅
  end.

Definition store : Storage :=
  {| db_state := state;
     listCollections := fun _ s => Ok (List.map fst s);
     findOne := fun _ c f s => Ok (List.find (matches f) (docs c s));
     find_toArray := fun _ c f o s =>
       Ok (take (Z.to_nat (cur_limit o))
             (drop (Z.to_nat (cur_skip o)) (List.filter (matches f) (docs c s))));
     countDocuments := fun _ c f s =>
       Ok (Z.of_nat (length (List.filter (matches (default ∅ f)) (docs c s))));
     insertOne := fun _ c d s =>
       if existsb (matches {[ "_id" := own_prop "_id" d ]}) (docs c s)
       then (Throw (TError "E11000 duplicate key error"), s)
       else (Ok (own_prop "_id" d), set_docs c (docs c s ++ [d]) s);
     updateOne := fun _ c f u s =>
       (Ok true, set_docs c (update_first f (set_of u) (docs c s)) s);
     deleteOne := fun _ c f s =>
       (Ok true, set_docs c (delete_first f (docs c s)) s) |}.

End MemStore.


(** ** The filter builder, continued (assets/filter.ts) *)

Module Operators.

(** [v instanceof Date ? 'date' : typeof v] *)
Definition range_type (v : value) : string :=
  if is_date v then "date" else typeof v.

(** [start > end] on two strings, two numbers or two dates: strings compare
    by code units, dates by time value (false on an Invalid Date). *)
Definition greater (start end_ : value) : bool :=
  match start, end_ with
  | VNumber a, VNumber b => b <? a
  | VString a, VString b => String.ltb b a
  | VDate (Some a), VDate (Some b) => b <? a
  | _, _ => false
  end.

Definition between_prefix (property : string) : string :=
  "Unable to use the " +:+ dq +:+ "between" +:+ dq +:+ " filter on the " +:+ dq
  +:+ property +:+ dq +:+ " property. ".

Definition between (rt : Runtime) (property : string) (start end_ : value)
  : ST obj unit :=
  let* _ := DataFilter.checkProperty property in
  let startType := range_type start in
  let endType := range_type end_ in
  let* _ :=
    throw_if (negb (String.eqb startType "string" || String.eqb startType "number"
                    || String.eqb startType "date"))
      (TTypeError (between_prefix property
                   +:+ "The passed start value is invalid. Expected a string, number, or a Date instance as a value but instead got "
                   +:+ typeof start +:+ ".")) in
  let* _ :=
    throw_if (negb (String.eqb startType endType))
      (TTypeError (between_prefix property
                   +:+ "The passed end value is not the same type as the start value")) in
  let* _ :=
    throw_if (greater start end_)
      (TRangeError (between_prefix property +:+ "The start value ("
                    +:+ template_text rt start
                    +:+ ") cannot be greater than the end value ("
                    +:+ template_text rt end_ +:+ ")")) in
  modify (assign property (VObject {[ "$gte" := start; "$lte" := end_ ]})).

Definition hasAll (property : string) (v : value) : ST obj unit :=
  let* _ := DataFilter.checkProperty property in
  let* _ := throw_if (negb (is_array v)) (DataFilter.not_an_array "hasAll" property v) in
  modify (assign property (VObject {[ "$all" := v ]})).

Definition hasSome (property : string) (v : value) : ST obj unit :=
  let* _ := DataFilter.checkProperty property in
  let* _ := throw_if (negb (is_array v)) (DataFilter.not_an_array "hasSome" property v) in
  modify (assign property (VObject {[ "$in" := v ]})).

(** [options?.caseSensitive === true ? '' : 'i'] *)
Definition flags (options : option value) : string :=
  match options with
  | Some (VObject fields) =>
    match get_prop "caseSensitive" fields with
    | VBool true => ""
    | _ => "i"
    end
  | _ => "i"
  end.

(** [new RegExp(source, flags)], for the flags of [flags]: a source that is
    not a pattern throws a [SyntaxError]. *)
Definition new_RegExp {S} (rt : Runtime) (source flags : string) : ST S value :=
  match RegExp_error rt source with
  | Some message => throw (TSyntaxError message)
  | None => ret (VRegExp source flags)
  end.

(** The text goes into the pattern as it is. *)
Definition startsWith (rt : Runtime) (property v : string) (options : option value)
  : ST obj unit :=
  let* _ := DataFilter.checkProperty property in
  let* pattern := new_RegExp rt ("^" +:+ v) (flags options) in
  modify (assign property pattern).

Definition endsWith (rt : Runtime) (property v : string) (options : option value)
  : ST obj unit :=
  let* _ := DataFilter.checkProperty property in
  let* pattern := new_RegExp rt (v +:+ "$") (flags options) in
  modify (assign property pattern).

(** The white space of [\s] and of [trim], among the code units below 256:
    tab, line feed, vertical tab, form feed, carriage return, space and
    no-break space. *)
Definition is_space (c : ascii) : bool :=
  existsb (Nat.eqb (nat_of_ascii c)) [9; 10; 11; 12; 13; 32; 160]%nat.

(** [value.split(/\s+/).map(word => word.trim()).filter(word => word.length > 0)]:
    the maximal runs of characters that are not white space.  [word] is the
    run being read, in reverse. *)
Fixpoint words_from (word : list ascii) (s : string) : list string :=
  let flush := match word with
               | [] => []
               | _ => [String.string_of_list_ascii (rev word)]
               end in
  match s with
  | EmptyString => flush
  | String c rest =>
    if is_space c then flush ++ words_from [] rest
    else words_from (c :: word) rest
  end.

(** [Array.from(new Set(words))]: the first occurrence of each word. *)
Fixpoint distinct (seen : list string) (words : list string) : list string :=
  match words with
  | [] => []
  | w :: rest =>
    if existsb (String.eqb w) seen then distinct seen rest
    else w :: distinct (w :: seen) rest
  end.

(** [words.join('|')] *)
Fixpoint join (separator : string) (words : list string) : string :=
  match words with
  | [] => ""
  | [w] => w
  | w :: rest => w +:+ separator +:+ join separator rest
  end.

Definition word_pattern (word : string) : string := "\b" +:+ word +:+ "\b".

Definition contains (rt : Runtime) (property v : string) (options : option value)
  : ST obj unit :=
  let* _ := DataFilter.checkProperty property in
  let words := distinct [] (words_from [] v) in
  let wordRegex := join "|" (List.map word_pattern words) in
  let* pattern := new_RegExp rt wordRegex (flags options) in
  modify (assign property pattern).

(** [bson.types] *)
Definition bson_types : list string :=
  ["number"; "string"; "bool"; "object"; "array"; "object"; "date"; "javascript";
   "null"]%string.

Definition isSupportedType (type : value) : bool :=
  match type with
  | VString s => existsb (String.eqb s) bson_types
  | _ => false
  end.

(** The loop of [type] over an array: [expressions] holds the types kept so
    far; an element equal to one of them is skipped. *)
Fixpoint collect_types (rt : Runtime) (expressions : list string) (types : list value)
  : result (list string) :=
  match types with
  | [] => Ok expressions
  | type :: rest =>
    match type with
    | VString s =>
      if existsb (String.eqb s) expressions then collect_types rt expressions rest
      else if isSupportedType type then collect_types rt (expressions ++ [s]) rest
      else Throw (TString ("The " +:+ dq +:+ "type" +:+ dq
                           +:+ " data operator received an array containing invalid type: "
                           +:+ template_text rt type +:+ "."))
    | _ =>
      Throw (TString ("The " +:+ dq +:+ "type" +:+ dq
                      +:+ " data operator received an array containing invalid type: "
                      +:+ template_text rt type +:+ "."))
    end
  end.

(** [type(property, value)]; the property is not checked. *)
Definition type_ (rt : Runtime) (property : string) (v : value) : ST obj unit :=
  match v with
  | VArray types =>
    match collect_types rt [] types with
    | Ok expressions =>
      modify (assign property (VObject {[ "$type" := VArray (VString <$> expressions) ]}))
    | Throw e => throw e
    end
  | _ =>
    let* _ :=
      throw_if (negb (isSupportedType v))
        (TString ("The passed type value (" +:+ template_text rt v
                  +:+ ") is not a supported type. Please provide a supported type.")) in
    modify (assign property (VObject {[ "$type" := v ]}))
  end.

End Operators.

(** ** The query executor, continued: [fields] (assets/query.ts) *)

Module Projection.

(** The loop over [options.include] or [options.exclude]. *)
Fixpoint project (rt : Runtime) (flag : Z) (fields : list value)
    (projection : list (string * Z)) : result (list (string * Z)) :=
  match fields with
  | [] => Ok projection
  | field :: rest =>
    match field with
    | VString s =>
      if is_empty s then Throw (TRangeError "Projection fields cannot be empty strings")
      else project rt flag rest (DataQuery.set_sort s flag projection)
    | _ =>
      Throw (TSyntaxError ("Projection fields must be strings, but found " +:+ dq
                           +:+ template_text rt field +:+ dq +:+ "."))
    end
  end.

(** The fields of an option that is present and is an array. *)
Definition listed (option_ : option value) : list value :=
  match option_ with
  | Some (VArray fields) => fields
  | _ => []
  end.

Definition with_projection (p : list (string * Z)) (c : DataQuery.Config)
  : DataQuery.Config :=
  {| DataQuery.cfg_filter := DataQuery.cfg_filter c;
     DataQuery.cfg_sort := DataQuery.cfg_sort c;
     DataQuery.cfg_projection := p;
     DataQuery.cfg_skip := DataQuery.cfg_skip c;
     DataQuery.cfg_limit := DataQuery.cfg_limit c |}.

(** [fields({ include, exclude })] on the configuration of a query; each
    option is [Some] when its key is present. *)
Definition fields (rt : Runtime) (include exclude : option value)
  : ST DataQuery.Config unit :=
  match include, exclude with
  | None, None =>
    throw (TSyntaxError ("The query's " +:+ dq +:+ "fields" +:+ dq
                         +:+ " cannot be called without either the " +:+ dq +:+ "include"
                         +:+ dq +:+ " or the " +:+ dq +:+ "exclude" +:+ dq +:+ " options"))
  | _, _ =>
    match project rt 1 (listed include) [] with
    | Throw e => throw e
    | Ok included =>
      match project rt 0 (listed exclude) included with
      | Throw e => throw e
      | Ok projection => modify (with_projection projection)
      end
    end
  end.

End Projection.

(** ** The client, continued: [db] *)

(** [getDatabase(name, { caseSensitivity: 'ignore' })] *)
Definition getDatabase_ignoring_case (databaseManager : list DatabaseDefinition)
    (name : string) : option DatabaseDefinition :=
  List.find (fun i => String.eqb (toLowerCase (db_name i)) (toLowerCase name))
    databaseManager.

Definition with_selected (name : option string) (this : Client) : Client :=
  {| authorization := authorization this;
     selected := name;
     default_database := default_database this;
     user := user this |}.

(** [db(name)]: the client with the selected database changed; [None] is
    [null] or [undefined]. *)
Definition db (databaseManager : list DatabaseDefinition) (this : Client)
    (name : option string) : result Client :=
  match name with
  | None => Ok (with_selected (default_database this) this)
  | Some name =>
    match getDatabase_ignoring_case databaseManager name with
    | None =>
      Throw (TString ("The database " +:+ name
                      +:+ " that you selected is not defined in the NasriyaData"))
    | Some database => Ok (with_selected (Some (db_name database)) this)
    end
  end.

(** ** Observations

    What the properties below speak about. *)

(** The options carry booleans where they carry anything. *)
Definition well_typed (options : NasriyaDataOptions) : bool :=
  match suppressAuth options, suppressHooks options with
  | (None | Some (VBool _)), (None | Some (VBool _)) => true
  | _, _ => false
  end.

(** [updated >= created] on Date objects: false when either is an Invalid
    Date or not a Date. *)
Definition date_ge (updated created : value) : bool :=
  match updated, created with
  | VDate (Some u), VDate (Some c) => c <=? u
  | _, _ => false
  end.

(** The filters handed to [find] and [countDocuments], in call order. *)
Definition sent_filters (calls : list StorageCall) : list (option obj) :=
  omap (fun c =>
          match c with
          | CallFind _ _ filter _ => Some (Some filter)
          | CallCountDocuments _ _ filter => Some filter
          | _ => None
          end) calls.


(** The name of the store method behind a call. *)
Definition call_method (c : StorageCall) : string :=
  match c with
  | CallListCollections _ => "listCollections"
  | CallFindOne _ _ _ => "findOne"
  | CallFind _ _ _ _ => "find"
  | CallCountDocuments _ _ _ => "countDocuments"
  | CallInsertOne _ _ _ => "insertOne"
  | CallUpdateOne _ _ _ _ => "updateOne"
  | CallDeleteOne _ _ _ => "deleteOne"
  end.

(** The criteria or filter of a call on documents. *)
Definition call_filter (c : StorageCall) : option obj :=
  match c with
  | CallFindOne _ _ filter | CallFind _ _ filter _ | CallUpdateOne _ _ filter _
  | CallDeleteOne _ _ filter => Some filter
  | CallCountDocuments _ _ filter => filter
  | CallListCollections _ | CallInsertOne _ _ _ => None
  end.

(** A call made through one of [methods]. *)
Definition through (methods : list string) (c : StorageCall) : Prop :=
  existsb (String.eqb (call_method c)) methods = true.

(** A call that lists the collections, or one on the documents owned by
    [owner]: its criteria carry [_owner = owner]. *)
Definition scoped_to (owner : value) (c : StorageCall) : Prop :=
  call_method c = "listCollections"%string
  \/ exists filter, call_filter c = Some filter /\ filter !! "_owner" = Some owner.

(** Every call that a computation makes on the store satisfies [P]: the log
    of calls grows by calls that satisfy [P], whatever the world. *)
Definition adds `{store : Storage} {A} (P : StorageCall -> Prop) (m : ST World A)
  : Prop :=
  forall w, exists tail,
    w_calls (snd (m w)) = w_calls w ++ tail /\ Forall P tail.

(** The property that an operator call writes. *)
Definition operator_property (op : DataFilter.operator) : string :=
  match op with
  | DataFilter.Eq property _ _ | DataFilter.Ne property _ _
  | DataFilter.Gte property _ | DataFilter.Gt property _
  | DataFilter.Lt property _ | DataFilter.Lte property _
  | DataFilter.In property _ | DataFilter.Nin property _
  | DataFilter.Exists property _ => property
  end.



(** A field name that [fields] accepts: a string that is not empty. *)
Definition field_name (field : value) : Prop :=
  exists s, field = VString s /\ is_empty s = false.

(** The verdict on a reader of the collection of a query. *)
Definition read_verdict (q : DataQuery.t) : Verdict :=
  authUser (DataQuery.data_authorization (DataQuery.data q))
    (DataQuery.data_user (DataQuery.data q))
    (col_permissions (DataQuery.collection (DataQuery.data q)) ≫= perm_read).

(** The filter object of a query in a world; [find] takes the empty object
    where the query has none. *)
Definition own_filter `{store : Storage} (q : DataQuery.t) (w : World) : option obj :=
  match DataQuery.cfg_filter (DataQuery.config q) with
  | Some l => Some (heap_get l (w_heap w))
  | None => None
  end.

(** ** A scenario

    One database with a few collections, three users and a runtime, on the
    reference store; the examples below run the operations on it. *)

Module Scenario.

(** A source made of letters, digits, spaces, [|], [^], [$] and [\b]; each
    of them is a pattern. *)
Fixpoint plain_pattern (source : string) : bool :=
  match source with
  | EmptyString => true
  | String c rest =>
    let n := nat_of_ascii c in
    if ((48 <=? n) && (n <=? 57) || (65 <=? n) && (n <=? 90) || (97 <=? n) && (n <=? 122)
        || existsb (Nat.eqb n) [32; 36; 94; 124])%nat
    then plain_pattern rest
    else
      match c, rest with
      | "\"%char, String "b"%char rest' => plain_pattern rest'
      | _, _ => false
      end
  end.

(** The runtime: a fixed clock, numbered ids, a date parser that knows two
    ISO strings and answers Invalid Date on anything else, and a pattern
    parser that knows the plain patterns and refuses any other source. *)
Definition runtime : Runtime :=
  {| now := 1700000000000;
     uuid_v4 := fun n => "uuid-" +:+ pretty n;
     Date_parse := fun s =>
       if String.eqb s "2024-01-01T00:00:00.000Z" then Some 1704067200000
       else if String.eqb s "2023-01-01T00:00:00.000Z" then Some 1672531200000
       else None;
     toString := fun _ => "[object]";
     RegExp_error := fun source =>
       if plain_pattern source then None
       else Some ("Invalid regular expression: /" +:+ source +:+ "/") |}.

Definition owned : Permissions :=
  {| perm_read := Some "MemberAuthor"; perm_write := Some "Member";
     perm_modify := Some "MemberAuthor"; perm_delete := Some "MemberAuthor" |}.

Definition admin_only : Permissions :=
  {| perm_read := Some "Admin"; perm_write := Some "Admin";
     perm_modify := Some "Admin"; perm_delete := Some "Admin" |}.

Definition members_only : Permissions :=
  {| perm_read := Some "Member"; perm_write := Some "Member";
     perm_modify := Some "Member"; perm_delete := Some "Member" |}.

(** [{ type: 'String', required: <required> }], with or without a default. *)
Definition name_field (required : bool) (default : option value) : CustomSchema :=
  {| cs_type := VString "String"; cs_required := Some required;
     cs_default := default; cs_validity := None |}.

(** [beforeUpdate: (item) => ({ _id: item._id, name: 'from-hook' })] *)
Definition replace_item : item_hook :=
  fun item _ heap =>
    match item with
    | RObj l =>
      (HReturn (RVal (VObject {[ "_id" := get_prop "_id" (default ∅ (heap !! l));
                                 "name" := VString "from-hook" ]})), heap)
    | RVal _ => (HReturn (RVal VUndefined), heap)
    end.

(** [afterRemove: () => 'from-after-hook'] *)
Definition rename_removed : id_hook := fun _ _ => HReturn (VString "from-after-hook").

(** [beforeRemove: (itemId) => itemId + '!'] *)
Definition mark_removed : id_hook :=
  fun itemId _ =>
    match itemId with
    | VString s => HReturn (VString (s +:+ "!"))
    | _ => HReturn VUndefined
    end.

(** [onFailure: () => { throw new Error('hook failed') }] *)
Definition failing_reporter : failure_hook := fun _ _ => HThrow (TError "hook failed").

Definition Members : CollectionDefinition :=
  {| col_name := "Members"; col_schema := None;
     col_permissions := Some owned; col_hooks := None |}.

Definition Passwords : CollectionDefinition :=
  {| col_name := "Passwords"; col_schema := None;
     col_permissions := Some admin_only; col_hooks := None |}.

Definition Profiles : CollectionDefinition :=
  {| col_name := "Profiles";
     col_schema := Some [("name"%string, Custom (name_field true None))];
     col_permissions := Some members_only; col_hooks := None |}.

Definition Guests : CollectionDefinition :=
  {| col_name := "Guests";
     col_schema :=
       Some [("name"%string, Custom (name_field true (Some (VString "anonymous"))))];
     col_permissions := Some members_only; col_hooks := None |}.

Definition Notes : CollectionDefinition :=
  {| col_name := "Notes"; col_schema := None;
     col_permissions := Some members_only;
     col_hooks :=
       Some {| hook_beforeGetItem := None; hook_afterGetItem := None;
               hook_beforeInsert := None; hook_afterInsert := None;
               hook_beforeRemove := None; hook_afterRemove := Some rename_removed;
               hook_beforeUpdate := Some replace_item; hook_afterUpdate := None;
               hook_onFailure := Some failing_reporter |} |}.

Definition Drafts : CollectionDefinition :=
  {| col_name := "Drafts"; col_schema := None;
     col_permissions := Some members_only;
     col_hooks :=
       Some {| hook_beforeGetItem := None; hook_afterGetItem := None;
               hook_beforeInsert := None; hook_afterInsert := None;
               hook_beforeRemove := Some mark_removed;
               hook_afterRemove := Some rename_removed;
               hook_beforeUpdate := None; hook_afterUpdate := None;
               hook_onFailure := None |} |}.

Definition databases : list DatabaseDefinition :=
  [ {| db_name := "App";
       db_collections := [Members; Passwords; Profiles; Guests; Notes; Drafts] |} ].

Definition client_of (id : string) (role : Role) : Client :=
  new_client
    {| co_authorization := Some User;
       co_defaultDatabase := Some "App"%string;
       co_user := Some {| uo_id := Some id; uo_loggedIn := Some (VBool true);
                          uo_role := Some role |} |}.

Definition alice : Client := client_of "alice" Member.
Definition root : Client := client_of "root" Admin.

(** A document of the [Members] collection owned by [owner]. *)
Definition member (id owner : string) : obj :=
  {[ "_id" := VString id; "_owner" := VString owner; "name" := VString id ]}.

(** The store at the start: bob owns the only member document. *)
Definition stored : MemStore.state :=
  [ ("Members"%string, [member "m-bob" "bob"]);
    ("Passwords"%string, []);
    ("Profiles"%string, []);
    ("Guests"%string, []);
    ("Notes"%string,
     [ {[ "_id" := VString "n1"; "_owner" := VString "alice";
          "name" := VString "stored" ]} ]);
    ("Drafts"%string, [ {[ "_id" := VString "d1!"; "_owner" := VString "alice" ]} ]) ].

(** [client.query('Members')] for alice. *)
Definition Members_query : DataQuery.t :=
  DataQuery.new
    {| DataQuery.database :=
         {| db_name := "App";
            db_collections := [Members; Passwords; Profiles; Guests; Notes; Drafts] |};
       DataQuery.collection := Members;
       DataQuery.data_user := user alice;
       DataQuery.data_authorization := authorization alice |}.

(** The world at the start, with the objects of [heap] allocated. *)
Definition world (heap : list obj) : @World MemStore.store :=
  {| w_heap := heap; w_db := stored : @db_state MemStore.store;
     w_calls := []; w_console := []; w_uuid := 0 |}.

(** What an item looks like after the insert normalizer, for alice. *)
Definition normalized : obj :=
  {[ "_id" := VString "uuid-0";
     "_createdDate" := VDate (Some 1700000000000);
     "_updatedDate" := VDate (Some 1700000000000);
     "_owner" := VString "alice" ]}.

(** alice builds a filter on [_owner], hands it to a query and runs it. *)
Definition find_by_owner (owner : string) : @DataQuery.Q MemStore.store DataQuery.QueryResult :=
  let* f := DataQuery.in_world DataFilter.new in
  let* f :=
    DataQuery.in_world (DataFilter.call f (DataFilter.Eq "_owner" (VString owner) None)) in
  let* _ := DataQuery.filter f in
  DataQuery.find None.

(** alice builds the filter [eq('name', 'stored')], hands it to a query,
    then maybe calls one more operator on the builder, and runs the query. *)
Definition hand_over (later : option DataFilter.operator)
  : @DataQuery.Q MemStore.store DataQuery.QueryResult :=
  let* f := DataQuery.in_world DataFilter.new in
  let* f :=
    DataQuery.in_world (DataFilter.call f (DataFilter.Eq "name" (VString "stored") None)) in
  let* _ := DataQuery.filter f in
  let* _ :=
    match later with
    | Some op => let* _ := DataQuery.in_world (DataFilter.call f op) in ret tt
    | None => ret tt
    end in
  DataQuery.find None.

End Scenario.

(** ** Properties *)

(** Goals about a run on concrete inputs are settled by evaluation, one
    conjunct at a time. *)
Ltac evaluate :=
  cbv zeta; repeat apply conj;
  try (vm_compute; reflexivity);
  try (vm_compute; discriminate).

(** *** The monad *)

Lemma bind_Ok {S A B} (m : ST S A) (k : A -> ST S B) s a s' :
  m s = (Ok a, s') -> bind m k s = k a s'.
Proof. intros Hm. unfold bind. now rewrite Hm. Qed.

Lemma bind_Throw {S A B} (m : ST S A) (k : A -> ST S B) s e s' :
  m s = (Throw e, s') -> bind m k s = (Throw e, s').
Proof. intros Hm. unfold bind. now rewrite Hm. Qed.

Lemma try_catch_Ok {S A} (m : ST S A) handler s a s' :
  m s = (Ok a, s') -> try_catch m handler s = (Ok a, s').
Proof. intros Hm. unfold try_catch. now rewrite Hm. Qed.

Lemma try_catch_Throw {S A} (m : ST S A) handler s e s' :
  m s = (Throw e, s') -> try_catch m handler s = handler e s'.
Proof. intros Hm. unfold try_catch. now rewrite Hm. Qed.

(** *** The access evaluator *)

(** Under [System] authorization every declared permission is allowed. *)
Lemma authUser_System user permission :
  authUser System user permission = Allowed.
Proof. now destruct permission. Qed.

(** A logged-in user whose role is not [Admin] is denied by an [Admin]
    permission. *)
Lemma authUser_Admin_denies_other_roles user :
  user_role user <> Admin -> authUser User user (Some "Admin"%string) = Denied.
Proof.
  intros Hrole. unfold authUser. simpl.
  destruct (user_loggedIn user); simpl; [|reflexivity].
  destruct (user_role user); simpl; congruence.
Qed.

(** C2, on the code: a logged-in user whose role is [Admin], evaluated against
    an [Admin] permission, falls through both role tests of [authUser] and
    reaches its final [return 'Denied']. *)
Theorem authUser_Admin_role_Admin_permission id :
  authUser User {| user_id := id; user_loggedIn := true; user_role := Admin |}
    (Some "Admin"%string) = Denied.
Proof. reflexivity. Qed.

(** *** The schema validator *)

Lemma validateProperties_app_Ok operation pre post item item' :
  validateProperties operation pre item = (Ok tt, item') ->
  validateProperties operation (pre ++ post) item
  = validateProperties operation post item'.
Proof.
  revert item. induction pre as [|[property propSchema] pre IH]; intros item Hpre.
  - cbn in Hpre. injection Hpre as <-. reflexivity.
  - cbn [validateProperties app] in *. unfold bind in *.
    destruct (validateProperty operation property propSchema item) as [[[]|e] item1].
    + now apply IH.
    + discriminate.
Qed.

(** An absent property of a custom field with a [required] key and no
    [default] fails an [Insert] validation, whatever the value of the key. *)
Lemma validateProperty_required_key property c b item :
  helpers.isCustomSchema (Custom c) = true ->
  cs_required c = Some b ->
  cs_default c = None ->
  has_prop property item = false ->
  validateProperty (Some Insert) property (Custom c) item
  = (Throw (missing_required property), item).
Proof.
  intros Hcustom Hrequired Hdefault Habsent.
  unfold validateProperty, bind, get.
  now rewrite Hcustom, Habsent, Hrequired, Hdefault.
Qed.

(** C10, as the code has it: in a schema, a custom field that carries the
    key [required] (with the value [false] as well as [true]) and no
    [default] makes the validator fail with the missing-required-property
    error on an [Insert] of an item in which the field is not found, neither
    as an own property nor along the prototype chain ([property in item] is
    false), once the fields declared before it have passed. *)
Theorem required_false_is_required pre post property c b item item' :
  helpers.isCustomSchema (Custom c) = true ->
  cs_required c = Some b ->
  cs_default c = None ->
  validateProperties (Some Insert) pre item = (Ok tt, item') ->
  has_prop property item' = false ->
  validateItemSchema (Some (pre ++ (property, Custom c) :: post)) (Some Insert) item
  = (Throw (missing_required property), item').
Proof.
  intros Hcustom Hrequired Hdefault Hpre Habsent.
  unfold validateItemSchema.
  rewrite (validateProperties_app_Ok _ _ _ _ _ Hpre).
  cbn [validateProperties].
  apply bind_Throw.
  now apply validateProperty_required_key with (b := b).
Qed.

(** C10 at [{ name: { type: 'String', required: false } }] and an empty item. *)
Lemma required_false_is_required_witness :
  validateItemSchema
    (Some ([] ++ [("name"%string, Custom (Scenario.name_field false None))]))
    (Some Insert) ∅
  = (Throw (missing_required "name"), ∅).
Proof.
  apply (required_false_is_required [] [] "name" (Scenario.name_field false None)
           false ∅ ∅); reflexivity.
Defined.

(** C10 as stated fails for a field whose name every item inherits.  The
    empty item has no property [constructor] of its own, yet
    [constructor in item] holds: the validator takes the field as present,
    checks the inherited function against the declared type and, for the
    type [Any], passes; for the type [String] it throws the type error, not
    the missing-required-property error. *)
Lemma inherited_name_is_not_missing :
  let field type :=
    Custom {| cs_type := VString type; cs_required := Some false;
              cs_default := None; cs_validity := None |} in
  (∅ : obj) !! "constructor" = None
  /\ validateItemSchema (Some [("constructor"%string, field "Any"%string)])
       (Some Insert) ∅
     = (Ok tt, ∅)
  /\ validateItemSchema (Some [("constructor"%string, field "String"%string)])
       (Some Insert) ∅
     = (Throw (type_mismatch "constructor" "String" VFunction), ∅).
Proof. evaluate. Qed.

(** *** The failure reporter *)

Section FailureReporter.
Context `{store : Storage}.



End FailureReporter.


(** *** Denied operations *)

Section Denied.
Context `{store : Storage}.
Variable rt : Runtime.
Variable databaseManager : list DatabaseDefinition.
Variable this : Client.

(** A [Member] is denied by an [Admin] permission, logged in or not. *)
Lemma authUser_Admin_denies_Member (u : ClientUser) :
  user_role u = Member -> authUser User u (Some "Admin"%string) = Denied.
Proof. intros Hrole. apply authUser_Admin_denies_other_roles. congruence. Qed.

(** The pre-checks pass on a collection that the store lists, for an item and
    well-typed options; they only list the collections. *)
Lemma checkArgs_item_Ok collectionName item options names (w : World) :
  listCollections (selected this) (w_db w) = Ok names ->
  existsb (String.eqb collectionName) names = true ->
  well_typed options = true ->
  NasriyaDataClient.checkArgs this collectionName (ArgObject item) options w
  = (Ok tt, with_call (CallListCollections (selected this)) (w_db w) w).
Proof.
  intros Hlist Hexists Htyped.
  unfold NasriyaDataClient.checkArgs, NasriyaDataClient.checkCollectionValidity.
  unfold bind, try_catch, call_listCollections, call_read. rewrite Hlist.
  cbn -[String.eqb]. rewrite Hexists. cbn.
  unfold well_typed in Htyped.
  destruct (suppressAuth options) as [[]|], (suppressHooks options) as [[]|];
    try discriminate; reflexivity.
Qed.

(** [prepareEvent] throws the access-denied error for a [Member] on an
    [Admin] permission, and leaves the world alone. *)
Lemma prepareEvent_Admin_denies_Member collectionName accessType options database
    collection (w : World) :
  authorization this = User ->
  user_role (user this) = Member ->
  NasriyaDataClient.getDatabase databaseManager (selected this) = Some database ->
  List.find (fun i => String.eqb (col_name i) collectionName) (db_collections database)
  = Some collection ->
  col_permissions collection ≫= (fun p => permission_for p accessType)
  = Some "Admin"%string ->
  is_true (suppressAuth options) = false ->
  NasriyaDataClient.prepareEvent databaseManager this collectionName accessType options w
  = (Throw (NasriyaDataClient.access_denied this accessType collection), w).
Proof.
  intros Hauth Hrole Hdb Hcol Hperm Hsuppress.
  unfold NasriyaDataClient.prepareEvent, NasriyaDataClient.declared_permission.
  rewrite Hdb, Hcol, Hperm, Hsuppress, Hauth. cbn [negb is_empty String.length Nat.eqb].
  now rewrite authUser_Admin_denies_Member.
Qed.

(** C7: a [User]-mode client with role [Member] that calls [insert] on a
    collection declaring [write: 'Admin'], auth not suppressed, gets the
    access-denied error; up to then the client has only listed the
    collections, so no write reaches the store, whose state and the heap are
    as before. *)
Theorem insert_denied_before_any_write collectionName item options database
    collection names (w : World) :
  authorization this = User ->
  user_role (user this) = Member ->
  NasriyaDataClient.getDatabase databaseManager (selected this) = Some database ->
  List.find (fun i => String.eqb (col_name i) collectionName) (db_collections database)
  = Some collection ->
  col_permissions collection ≫= perm_write = Some "Admin"%string ->
  is_true (suppressAuth options) = false ->
  well_typed options = true ->
  listCollections (selected this) (w_db w) = Ok names ->
  existsb (String.eqb collectionName) names = true ->
  let outcome :=
    NasriyaDataClient.insert rt databaseManager this collectionName item options w in
  fst outcome = Throw (NasriyaDataClient.access_denied this write collection)
  /\ w_db (snd outcome) = w_db w
  /\ w_heap (snd outcome) = w_heap w
  /\ w_calls (snd outcome) = w_calls w ++ [CallListCollections (selected this)]
  /\ List.filter is_write (w_calls (snd outcome)) = List.filter is_write (w_calls w).
Proof.
  intros Hauth Hrole Hdb Hcol Hperm Hsuppress Htyped Hlist Hexists outcome.
  assert (Hrun : outcome
                 = (Throw (NasriyaDataClient.access_denied this write collection),
                    with_call (CallListCollections (selected this)) (w_db w) w)).
  { unfold outcome, NasriyaDataClient.insert.
    rewrite (bind_Ok _ _ _ _ _ (checkArgs_item_Ok _ _ _ _ _ Hlist Hexists Htyped)).
    apply bind_Throw.
    now apply prepareEvent_Admin_denies_Member with (database := database). }
  rewrite Hrun. cbn. repeat split.
  rewrite List.filter_app. cbn. now rewrite app_nil_r.
Qed.

End Denied.

(** C7 on the scenario: alice, a member, inserts into [Passwords]. *)
Lemma insert_denied_before_any_write_witness :
  let outcome :=
    NasriyaDataClient.insert Scenario.runtime Scenario.databases Scenario.alice
      "Passwords" 0%nat default_options
      (Scenario.world [ {[ "secret" := VString "hunter2" ]} ]) in
  fst outcome
  = Throw (NasriyaDataClient.access_denied Scenario.alice write Scenario.Passwords)
  /\ w_db (snd outcome) = Scenario.stored
  /\ w_heap (snd outcome) = [ {[ "secret" := VString "hunter2" ]} ]
  /\ w_calls (snd outcome) = [] ++ [CallListCollections (Some "App"%string)]
  /\ List.filter is_write (w_calls (snd outcome)) = List.filter is_write [].
Proof.
  apply (insert_denied_before_any_write (store := MemStore.store) Scenario.runtime
           Scenario.databases Scenario.alice "Passwords" 0%nat default_options
           (hd {| db_name := ""; db_collections := [] |} Scenario.databases)
           Scenario.Passwords
           ["Members"; "Passwords"; "Profiles"; "Guests"; "Notes"; "Drafts"]%string
           (Scenario.world [ {[ "secret" := VString "hunter2" ]} ]));
    reflexivity.
Defined.

(** *** Ownership scoping *)

(** [getItem], [remove] and [update] spread the owner property last: under an
    owned-items verdict their criteria carry [_owner = callerId]. *)
Lemma criteria_owner_scoped (id : value) (context : HookContext) :
  spread {[ "_id" := id ]} (NasriyaDataClient.owner_scope OwnedItems context)
  = {[ "_id" := id; "_owner" := id_value (userId context) ]}.
Proof.
  unfold spread, NasriyaDataClient.owner_scope. cbn [Verdict_eqb].
  apply map_eq. intros k.
  rewrite lookup_union.
  destruct (decide (k = "_owner"%string)) as [Howner|Howner];
    destruct (decide (k = "_id"%string)) as [Hid|Hid]; subst; try discriminate.
  all: simplify_map_eq.
  all: reflexivity.
Qed.

(** [find] and [count] spread the caller's filter last: a filter that has its
    own [_owner] property is sent as it is, and the owner scope is lost. *)
Lemma effective_filter_owner_overridden options context (filter : obj) (v : value) :
  is_true (options ≫= suppressAuth) = false ->
  filter !! "_owner" = Some v ->
  DataQuery.effective_filter options OwnedItems context (Some filter) = Some filter.
Proof.
  intros Hsuppress Howner. unfold DataQuery.effective_filter, spread.
  rewrite Hsuppress. cbn [Verdict_eqb default from_option id]. f_equal.
  apply map_eq. intros k. rewrite lookup_union.
  destruct (decide (k = "_owner"%string)) as [->|Hk].
  - rewrite Howner, lookup_singleton_eq. reflexivity.
  - rewrite lookup_singleton_ne by congruence. now destruct (filter !! k).
Qed.

(** Without an [_owner] property in the caller's filter, the filter that
    [find] and [count] send is scoped to the caller. *)
Lemma effective_filter_owner_scoped options context (filter : obj) :
  is_true (options ≫= suppressAuth) = false ->
  filter !! "_owner" = None ->
  DataQuery.effective_filter options OwnedItems context (Some filter)
  = Some (<[ "_owner" := id_value (userId context) ]> filter).
Proof.
  intros Hsuppress Howner. unfold DataQuery.effective_filter, spread.
  rewrite Hsuppress. cbn [Verdict_eqb default from_option id]. f_equal.
  apply map_eq. intros k. rewrite lookup_union.
  destruct (decide (k = "_owner"%string)) as [->|Hk].
  - rewrite Howner, lookup_singleton_eq, lookup_insert_eq. reflexivity.
  - rewrite lookup_singleton_ne, lookup_insert_ne by congruence.
    now destruct (filter !! k).
Qed.

(** C1, on the code: on [Members], whose read permission is [MemberAuthor],
    alice runs a query with the filter [eq('_owner', 'bob')].  The filter sent
    to [countDocuments] and to [find] is [{ _owner: { $eq: 'bob' } }], without
    alice's id, and the result holds bob's document.  With the same filter on
    her own id the scope is the filter's, too. *)
Theorem find_owner_filter_replaces_scope :
  let outcome := Scenario.find_by_owner "bob" (Scenario.Members_query, Scenario.world []) in
  let sent : obj := {[ "_owner" := VObject {[ "$eq" := VString "bob" ]} ]} in
  query Scenario.databases Scenario.alice "Members" = Ok Scenario.Members_query
  /\ authUser User (user Scenario.alice) (Some "MemberAuthor"%string) = OwnedItems
  /\ sent_filters (w_calls (snd (snd outcome))) = [Some sent; Some sent]
  /\ sent !! "_owner" <> Some (VString "alice")
  /\ fst outcome
     = Ok {| DataQuery.totalCount := 1; DataQuery.pages := 1; DataQuery.pageSize := 100;
             DataQuery.items := [Scenario.member "m-bob" "bob"] |}.
Proof. evaluate. Qed.

(** *** Required fields and defaults on insert *)

(** Without an operation, the validator leaves an absent property of a custom
    field alone: no error, no default. *)
Lemma validateProperty_without_operation property c item :
  has_prop property item = false ->
  validateProperty None property (Custom c) item = (Ok tt, item).
Proof.
  intros Habsent. unfold validateProperty, bind, get. rewrite Habsent.
  cbn [has_prop]. now destruct (helpers.isCustomSchema (Custom c)).
Qed.

(** With the operation [Insert], as [save] passes it, the default of an
    absent field is applied. *)
Lemma validateProperty_default_on_Insert property c d item :
  helpers.isCustomSchema (Custom c) = true ->
  cs_default c = Some d ->
  has_prop property item = false ->
  validateProperty (Some Insert) property (Custom c) item
  = (Ok tt, <[ property := d ]> item).
Proof.
  intros Hcustom Hdefault Habsent. unfold validateProperty, bind, get.
  rewrite Hcustom, Habsent, Hdefault. now destruct (cs_required c).
Qed.

(** C3, on the code: [insert] calls the schema validator without an
    operation.  On [Profiles], whose schema declares
    [name: { type: 'String', required: true }], alice's insert of an empty item
    succeeds and the document written has no [name]; on [Guests], where the
    field also declares [default: 'anonymous'], the document written has no
    [name] either. *)
Theorem insert_skips_required_and_default :
  let run collection :=
    NasriyaDataClient.insert Scenario.runtime Scenario.databases Scenario.alice
      collection 0%nat default_options (Scenario.world [∅]) in
  fst (run "Profiles"%string) = Ok (VObject Scenario.normalized)
  /\ w_calls (snd (run "Profiles"%string))
     = [ CallListCollections (Some "App"%string);
         CallInsertOne (Some "App"%string) "Profiles" Scenario.normalized;
         CallFindOne (Some "App"%string) "Profiles" {[ "_id" := VString "uuid-0" ]} ]
  /\ MemStore.docs "Profiles" (w_db (snd (run "Profiles"%string)))
     = [Scenario.normalized]
  /\ fst (run "Guests"%string) = Ok (VObject Scenario.normalized)
  /\ MemStore.docs "Guests" (w_db (snd (run "Guests"%string))) = [Scenario.normalized]
  /\ Scenario.normalized !! "name" = None.
Proof. evaluate. Qed.

(** *** The before-update hook *)

(** C4, on the code: on [Notes], whose [beforeUpdate] hook returns the new
    object [{ _id, name: 'from-hook' }], alice updates [n1] with
    [name: 'from-caller'].  The hook's object, normalized and validated, is the
    second object of the heap; the criteria of [updateOne] come from it, but
    the [$set] payload is the normalized [item] argument, and the stored
    document ends with the caller's name. *)
Theorem update_sets_the_argument :
  let item : obj := {[ "_id" := VString "n1"; "name" := VString "from-caller" ]} in
  let outcome :=
    NasriyaDataClient.update Scenario.runtime Scenario.databases Scenario.alice
      "Notes" 0%nat default_options (Scenario.world [item]) in
  let from_caller : obj :=
    {[ "_id" := VString "n1"; "name" := VString "from-caller";
       "_updatedDate" := VDate (Some 1700000000000) ]} in
  let from_hook : obj :=
    {[ "_id" := VString "n1"; "name" := VString "from-hook";
       "_updatedDate" := VDate (Some 1700000000000) ]} in
  fst outcome = Ok (VString "n1")
  /\ w_heap (snd outcome) = [from_caller; from_hook]
  /\ w_calls (snd outcome)
     = [ CallListCollections (Some "App"%string);
         CallUpdateOne (Some "App"%string) "Notes" {[ "_id" := VString "n1" ]}
           {[ "$set" := VObject from_caller ]} ]
  /\ get_prop "name" <$> MemStore.docs "Notes" (w_db (snd outcome))
     = [VString "from-caller"].
Proof. evaluate. Qed.

(** *** The after-remove hook *)

(** C9, on the code: [remove] hands [collection.hooks?.beforeRemove] to the
    after event.  On [Notes], which only has an [afterRemove] hook (returning
    ['from-after-hook']), the removal of [n1] returns [n1]; on [Drafts], whose
    [beforeRemove] hook appends ['!'], the removal of [d1] deletes [d1!] and
    returns [d1!!]: the before hook has run a second time. *)
Theorem remove_runs_beforeRemove_after :
  let run collection itemId :=
    NasriyaDataClient.remove Scenario.runtime Scenario.databases Scenario.alice
      collection itemId default_options (Scenario.world []) in
  hook_of Scenario.Notes hook_afterRemove = Some Scenario.rename_removed
  /\ fst (run "Notes" "n1")%string = Ok (VString "n1")
  /\ w_calls (snd (run "Notes" "n1"))%string
     = [ CallListCollections (Some "App"%string);
         CallDeleteOne (Some "App"%string) "Notes" {[ "_id" := VString "n1" ]} ]
  /\ hook_of Scenario.Drafts hook_afterRemove = Some Scenario.rename_removed
  /\ fst (run "Drafts" "d1")%string = Ok (VString "d1!!")
  /\ w_calls (snd (run "Drafts" "d1"))%string
     = [ CallListCollections (Some "App"%string);
         CallDeleteOne (Some "App"%string) "Drafts" {[ "_id" := VString "d1!" ]} ].
Proof. evaluate. Qed.

(** *** The date ordering of the insert normalizer *)

Ltac run_block :=
  unfold bind, get, modify, throw_if, throw, ret, has_prop, get_prop in *;
  cbn [default from_option id] in *.

Lemma insert_id_other fresh item item' (k : string) :
  k <> "_id"%string ->
  insert_id fresh item = (Ok tt, item') ->
  item' !! k = item !! k.
Proof.
  intros Hk. unfold insert_id, check_id. run_block.
  destruct (item !! "_id") as [[]|]; cbn; try discriminate.
  - destruct (is_empty s); intros [= <-]; reflexivity.
  - intros [= <-]. now rewrite lookup_insert_ne by congruence.
Qed.

Lemma insert_createdDate_Ok rt item item' :
  insert_createdDate rt item = (Ok tt, item') ->
  (exists created, item' !! "_createdDate" = Some (VDate created))
  /\ forall k : string, k <> "_createdDate"%string -> item' !! k = item !! k.
Proof.
  unfold insert_createdDate. run_block.
  destruct (item !! "_createdDate") as [[]|]; cbn; try discriminate;
    intros [= <-]; (split; [eexists; apply lookup_insert_eq|]);
    intros k Hk; now rewrite lookup_insert_ne by congruence.
Qed.

Lemma insert_updatedDate_Ok rt item item' created :
  item !! "_createdDate" = Some (VDate created) ->
  insert_updatedDate rt item = (Ok tt, item') ->
  item' !! "_createdDate" = Some (VDate created)
  /\ exists updated,
       item' !! "_updatedDate" = Some (VDate updated)
       /\ match created, updated with
          | Some c, Some u => c <= u
          | _, _ => True
          end.
Proof.
  intros Hcreated. unfold insert_updatedDate, date_lt. run_block.
  rewrite Hcreated. cbn [default from_option id].
  assert (Hkeep : forall v : value,
             <[ "_updatedDate" := v ]> item !! "_createdDate" = Some (VDate created))
    by (intros v; now rewrite lookup_insert_ne by discriminate).
  assert (Horder : forall date : option Z,
             match date, created with
             | Some d, Some c => d <? c
             | _, _ => false
             end = false ->
             match created, date with
             | Some c, Some u => c <= u
             | _, _ => True
             end)
    by (intros [d|] Hlt; destruct created as [c|]; trivial; lia).
  destruct (item !! "_updatedDate") as [[]|]; cbn; try discriminate.
  - destruct (match Date_parse rt s with
              | Some d => match created with Some c => d <? c | None => false end
              | None => false
              end) eqn:Hlt; cbn; intros [= <-].
    split; [apply Hkeep|]. eexists. split; [apply lookup_insert_eq|].
    apply Horder. destruct (Date_parse rt s); exact Hlt.
  - destruct (match t with
              | Some d => match created with Some c => d <? c | None => false end
              | None => false
              end) eqn:Hlt; cbn; intros [= <-].
    split; [apply Hkeep|]. eexists. split; [apply lookup_insert_eq|].
    apply Horder. destruct t; exact Hlt.
  - intros [= <-]. split; [apply Hkeep|]. eexists. split; [apply lookup_insert_eq|].
    destruct created; trivial; lia.
Qed.

Lemma insert_owner_other authorization userId item item' (k : string) :
  k <> "_owner"%string ->
  insert_owner authorization userId item = (Ok tt, item') ->
  item' !! k = item !! k.
Proof.
  intros Hk. unfold insert_owner. run_block.
  destruct authorization.
  - destruct (item !! "_owner") as [[]|]; cbn; try discriminate.
    + destruct (is_empty s); cbn; try discriminate.
      destruct (String.eqb (toLowerCase s) "system"); intros [= <-]; reflexivity.
    + intros [= <-]. now rewrite lookup_insert_ne by congruence.
  - intros [= <-]. now rewrite lookup_insert_ne by congruence.
Qed.

(** What the normalizer does establish: an item it returns carries two Date
    objects, and when both are valid dates the update is not before the
    creation. *)
Lemma validateInsertItem_dates rt fresh authorization userId item item' :
  validateInsertItem rt fresh authorization userId item = (Ok tt, item') ->
  exists created updated,
    item' !! "_createdDate" = Some (VDate created)
    /\ item' !! "_updatedDate" = Some (VDate updated)
    /\ match created, updated with
       | Some c, Some u => c <= u
       | _, _ => True
       end.
Proof.
  unfold validateInsertItem, bind.
  destruct (insert_id fresh item) as [[[]|] item1] eqn:Hid; try discriminate.
  destruct (insert_createdDate rt item1) as [[[]|] item2] eqn:Hcreated;
    try discriminate.
  destruct (insert_updatedDate rt item2) as [[[]|] item3] eqn:Hupdated;
    try discriminate.
  intros Howner.
  destruct (insert_createdDate_Ok _ _ _ Hcreated) as [[created Hc] _].
  destruct (insert_updatedDate_Ok _ _ _ _ Hc Hupdated) as [Hc3 [updated [Hu Horder]]].
  exists created, updated. repeat split; trivial.
  - rewrite (insert_owner_other _ _ _ _ "_createdDate" ltac:(discriminate) Howner).
    exact Hc3.
  - rewrite (insert_owner_other _ _ _ _ "_updatedDate" ltac:(discriminate) Howner).
    exact Hu.
Qed.

(** A supplied [_updatedDate] that is a valid date, as a Date or as a string
    that parses, and is earlier than the creation date is rejected. *)
Lemma insert_updatedDate_rejects_earlier rt item (supplied : value) (c u : Z) :
  item !! "_createdDate" = Some (VDate (Some c)) ->
  item !! "_updatedDate" = Some supplied ->
  supplied = VDate (Some u)
  \/ (exists s, supplied = VString s /\ Date_parse rt s = Some u) ->
  u < c ->
  insert_updatedDate rt item = (Throw updated_before_created, item).
Proof.
  intros Hcreated Hupdated Hsupplied Hlt.
  assert (Hltb : (u <? c) = true) by lia.
  unfold insert_updatedDate, date_lt. run_block.
  rewrite Hcreated, Hupdated. cbn [default from_option id].
  destruct Hsupplied as [->|[s [-> Hparse]]]; [|rewrite Hparse]; now rewrite Hltb.
Qed.

(** C8, on the code: an [_updatedDate] that is not a valid date passes the
    normalizer.  With [_createdDate] the first of January 2024, the string
    ['not a date'] (which [new Date] turns into an Invalid Date without
    throwing) and an Invalid Date object are both accepted, and the item
    returned carries an Invalid Date as [_updatedDate], which is not [>=] its
    [_createdDate]; a valid earlier date is rejected. *)
Theorem validateInsertItem_keeps_an_invalid_updatedDate :
  let run updated :=
    validateInsertItem Scenario.runtime "uuid-0" User (Some "alice"%string)
      {[ "_createdDate" := VString "2024-01-01T00:00:00.000Z";
         "_updatedDate" := updated ]} in
  let ordered (item : obj) :=
    date_ge (get_prop "_updatedDate" item) (get_prop "_createdDate" item) in
  Date_parse Scenario.runtime "not a date" = None
  /\ fst (run (VString "not a date")) = Ok tt
  /\ snd (run (VString "not a date")) !! "_createdDate"
     = Some (VDate (Some 1704067200000))
  /\ snd (run (VString "not a date")) !! "_updatedDate" = Some (VDate None)
  /\ ordered (snd (run (VString "not a date"))) = false
  /\ fst (run (VDate None)) = Ok tt
  /\ ordered (snd (run (VDate None))) = false
  /\ fst (run (VString "2023-01-01T00:00:00.000Z")) = Throw updated_before_created.
Proof. evaluate. Qed.

(** *** The filter of a query is the builder's live object *)

Section LiveFilter.
Context `{store : Storage}.

(** The reporter changes the console at most. *)
Lemma onFailure_preserves {A} hook options dataOperation context error (w : World) :
  let w' := snd (NasriyaDataClient.onFailure (A := A) hook options dataOperation
                   context error w) in
  w_heap w' = w_heap w /\ w_db w' = w_db w /\ w_calls w' = w_calls w.
Proof.
  unfold NasriyaDataClient.onFailure, bind.
  destruct (negb (is_true (options ≫= suppressHooks))); [|now cbn].
  destruct hook as [hook|]; [|now cbn].
  now destruct (hook error context).
Qed.

(** A suppressed verdict does not change the filter sent. *)
Lemma effective_filter_verdict options permission context filter :
  DataQuery.effective_filter options
    (if negb (is_true (options ≫= suppressAuth)) then permission else Allowed)
    context filter
  = DataQuery.effective_filter options permission context filter.
Proof.
  unfold DataQuery.effective_filter.
  now destruct (is_true (options ≫= suppressAuth)).
Qed.

Ltac reporter :=
  match goal with
  | |- context [@NasriyaDataClient.onFailure ?st ?A ?h ?o ?d ?c ?e ?w] =>
    let H := fresh "H" in
    pose proof (@onFailure_preserves A h o d c e w) as H; cbn zeta in H;
    destruct (@NasriyaDataClient.onFailure st A h o d c e w) as [? ?];
    cbn [fst snd] in *;
    destruct H as (Hheap & Hdb & Hcalls)
  end.

Lemma find_sends_the_object_at (q : DataQuery.t) (w : World) options (l : loc) :
  DataQuery.cfg_filter (DataQuery.config q) = Some l ->
  let outcome := DataQuery.find options (q, w) in
  let name := db_name (DataQuery.database (DataQuery.data q)) in
  let collection := col_name (DataQuery.collection (DataQuery.data q)) in
  let sent :=
    default ∅
      (DataQuery.effective_filter options
         (authUser (DataQuery.data_authorization (DataQuery.data q))
            (DataQuery.data_user (DataQuery.data q))
            (col_permissions (DataQuery.collection (DataQuery.data q)) ≫= perm_read))
         (DataQuery.context_of q) (Some (heap_get l (w_heap w)))) in
  fst (snd outcome) = q
  /\ w_heap (snd (snd outcome)) = w_heap w
  /\ w_db (snd (snd outcome)) = w_db w
  /\ exists tail,
       w_calls (snd (snd outcome)) = w_calls w ++ CallListCollections (Some name) :: tail
       /\ (tail = []
           \/ tail = [ CallCountDocuments (Some name) collection (Some sent);
                       CallFind (Some name) collection sent
                         {| cur_sort := DataQuery.cfg_sort (DataQuery.config q);
                            cur_projection := DataQuery.cfg_projection (DataQuery.config q);
                            cur_limit := DataQuery.cfg_limit (DataQuery.config q);
                            cur_skip := DataQuery.cfg_skip (DataQuery.config q) |} ]).
Proof.
  intros Hfilter outcome name collection sent.
  unfold outcome, DataQuery.find, DataQuery.prepareEvent,
    DataQuery.checkCollectionValidity, DataQuery.current_filter, DataQuery.attempt,
    DataQuery.settled, DataQuery.in_world, DataQuery.this_, call_listCollections,
    call_countDocuments, call_find, call_read, read_obj, bind, try_catch, ret, throw.
  cbn [fst snd]. rewrite Hfilter. cbn [fst snd].
  match goal with
  | |- context [listCollections ?d ?s] =>
    destruct (listCollections d s) as [names|e]; cbn [fst snd]
  end.
  2: { reporter. repeat apply conj; trivial. rewrite Hcalls. cbn. eauto. }
  match goal with
  | |- context [existsb ?f names] => destruct (existsb f names); cbn [fst snd]
  end.
  2: { reporter. repeat apply conj; trivial. rewrite Hcalls. cbn. eauto. }
  match goal with
  | |- context [Verdict_eqb ?v Denied] =>
    destruct (Verdict_eqb v Denied) eqn:Hverdict; cbn [fst snd]
  end.
  { reporter. repeat apply conj; trivial. rewrite Hcalls. cbn. eauto. }
  rewrite Hfilter. cbn [fst snd w_heap w_db with_call].
  match goal with
  | |- context [@countDocuments ?st ?d ?c ?f ?s] =>
    destruct (@countDocuments st d c f s) as [n|e]; cbn [fst snd]
  end.
  all: try match goal with
           | |- context [@find_toArray ?st ?d ?c ?f ?o ?s] =>
             destruct (@find_toArray st d c f o s) as [found|e']; cbn [fst snd]
           end.
  all: try reporter.
  all: rewrite ?effective_filter_verdict.
  all: repeat apply conj; trivial.
  all: try rewrite Hcalls.
  all: cbn [w_calls with_call]; rewrite <- ?app_assoc; cbn [app].
  all: eexists; (split; [reflexivity|]); auto.
  all: right; unfold sent, collection, name.
  all: now rewrite effective_filter_verdict.
Qed.

(** An operator call on a builder rewrites the builder's object in place. *)
Lemma call_rewrites_in_place (f : DataFilter.t) (op : DataFilter.operator) (w : World) :
  (DataFilter.queryObject f < length (w_heap w))%nat ->
  let w' := snd (DataFilter.call f op w) in
  heap_get (DataFilter.queryObject f) (w_heap w')
  = snd (DataFilter.run op (heap_get (DataFilter.queryObject f) (w_heap w)))
  /\ w_calls w' = w_calls w.
Proof.
  intros Hallocated. unfold DataFilter.call, on_obj, bind.
  destruct (DataFilter.run op (heap_get (DataFilter.queryObject f) (w_heap w)))
    as [[[]|e] o]; cbn [fst snd w_heap w_calls with_heap ret].
  all: unfold heap_get at 1; now rewrite list_lookup_insert_eq.
Qed.

(** C5, as the code has it: [DataQuery.filter] keeps a reference to the
    builder's query object and leaves the world alone, so handing a builder to
    an executor (a first or a second one) changes nothing.  An operator called
    on the builder after the hand-over rewrites that object, and the filter
    that [find] then sends to [countDocuments] and [find] is built from the
    object as the operator left it.  Running the executor does not change the
    object. *)
Theorem executor_filter_is_the_live_object (q : DataQuery.t) (f : DataFilter.t)
    (op : DataFilter.operator) options (w : World) :
  (DataFilter.queryObject f < length (w_heap w))%nat ->
  let handed := snd (DataQuery.filter f (q, w)) in
  let later := snd (DataFilter.call f op (snd handed)) in
  let outcome := DataQuery.find options (fst handed, later) in
  let object :=
    snd (DataFilter.run op (heap_get (DataFilter.queryObject f) (w_heap w))) in
  let name := db_name (DataQuery.database (DataQuery.data q)) in
  let collection := col_name (DataQuery.collection (DataQuery.data q)) in
  let sent :=
    default ∅
      (DataQuery.effective_filter options
         (authUser (DataQuery.data_authorization (DataQuery.data q))
            (DataQuery.data_user (DataQuery.data q))
            (col_permissions (DataQuery.collection (DataQuery.data q)) ≫= perm_read))
         (DataQuery.context_of q) (Some object)) in
  snd handed = w
  /\ DataQuery.cfg_filter (DataQuery.config (fst handed))
     = Some (DataFilter.queryObject f)
  /\ heap_get (DataFilter.queryObject f) (w_heap later) = object
  /\ w_heap (snd (snd outcome)) = w_heap later
  /\ exists tail,
       w_calls (snd (snd outcome)) = w_calls w ++ CallListCollections (Some name) :: tail
       /\ (tail = []
           \/ tail = [ CallCountDocuments (Some name) collection (Some sent);
                       CallFind (Some name) collection sent
                         {| cur_sort := DataQuery.cfg_sort (DataQuery.config q);
                            cur_projection := DataQuery.cfg_projection (DataQuery.config q);
                            cur_limit := DataQuery.cfg_limit (DataQuery.config q);
                            cur_skip := DataQuery.cfg_skip (DataQuery.config q) |} ]).
Proof.
  intros Hallocated handed later outcome object name collection sent.
  assert (Hhanded : handed
                    = (DataQuery.with_config
                         (DataQuery.with_filter (Some (DataFilter.queryObject f))
                            (DataQuery.config q)) q, w)) by reflexivity.
  destruct (call_rewrites_in_place f op w Hallocated) as [Hobject Hcalls].
  destruct (find_sends_the_object_at (fst handed) later options
              (DataFilter.queryObject f))
    as (_ & Hheap & _ & tail & Hsent & Htail); [now rewrite Hhanded|].
  repeat apply conj; trivial.
  exists tail. split.
  - fold outcome in Hsent. rewrite Hsent.
    change (w_calls later) with (w_calls (snd (DataFilter.call f op w))).
    now rewrite Hcalls.
  - destruct Htail as [-> | ->]; [now left | right].
    change (heap_get (DataFilter.queryObject f) (w_heap later))
      with (heap_get (DataFilter.queryObject f)
              (w_heap (snd (DataFilter.call f op w)))).
    rewrite Hobject. reflexivity.
Qed.

End LiveFilter.

(** C5 on the scenario: the builder's object is the first object of the heap;
    [gt('age', 18)], called after the hand-over, is in the object that the
    executor reads. *)
Lemma executor_filter_is_the_live_object_witness :
  let w := Scenario.world [ {[ "name" := VObject {[ "$eq" := VString "stored" ]} ]} ] in
  let f := {| DataFilter.queryObject := 0%nat |} in
  let op := DataFilter.Gt "age" (VNumber 18) in
  (DataFilter.queryObject f < length (w_heap w))%nat
  /\ heap_get 0%nat (w_heap (snd (DataFilter.call f op w)))
     = snd (DataFilter.run op (heap_get 0%nat (w_heap w))).
Proof.
  intros w f op.
  assert (Hallocated : (DataFilter.queryObject f < length (w_heap w))%nat)
    by (vm_compute; lia).
  split; [exact Hallocated|].
  exact (proj1 (proj2 (proj2
           (executor_filter_is_the_live_object Scenario.Members_query f op None w
              Hallocated)))).
Defined.

(** C5 as stated fails: with the operator [gt('age', 18)] called on the
    builder after the hand-over, the filters that the executor sends differ
    from those it sends without that call. *)
Lemma later_operator_reaches_the_sent_filter :
  sent_filters
    (w_calls (snd (snd (Scenario.hand_over (Some (DataFilter.Gt "age" (VNumber 18)))
                          (Scenario.Members_query, Scenario.world [])))))
  <> sent_filters
       (w_calls (snd (snd (Scenario.hand_over None
                             (Scenario.Members_query, Scenario.world []))))).
Proof.
  intros Hsame.
  apply (f_equal (fun filters : list (option obj) =>
                    match filters with
                    | Some filter :: _ => filter !! "age"
                    | _ => None
                    end)) in Hsame.
  vm_compute in Hsame. discriminate.
Qed.

(** The other owned paths on the scenario: alice asks for, updates and
    removes bob's member document.  Each criteria object carries
    [_owner: 'alice'], so [getItem] finds nothing and the stored document is
    neither changed nor removed. *)
Lemma getItem_update_remove_scope_to_the_caller :
  let scoped : obj := {[ "_id" := VString "m-bob"; "_owner" := VString "alice" ]} in
  let got :=
    NasriyaDataClient.getItem Scenario.databases Scenario.alice
      "Members" "m-bob" default_options (Scenario.world []) in
  let updated :=
    NasriyaDataClient.update Scenario.runtime Scenario.databases Scenario.alice
      "Members" 0%nat default_options
      (Scenario.world [ {[ "_id" := VString "m-bob"; "name" := VString "taken" ]} ]) in
  let removed :=
    NasriyaDataClient.remove Scenario.runtime Scenario.databases Scenario.alice
      "Members" "m-bob" default_options (Scenario.world []) in
  fst got = Ok VNull
  /\ w_calls (snd got)
     = [ CallListCollections (Some "App"%string);
         CallFindOne (Some "App"%string) "Members" scoped ]
  /\ MemStore.docs "Members" (w_db (snd updated)) = [Scenario.member "m-bob" "bob"]
  /\ (exists payload,
        w_calls (snd updated)
        = [ CallListCollections (Some "App"%string);
            CallUpdateOne (Some "App"%string) "Members" scoped payload ])
  /\ MemStore.docs "Members" (w_db (snd removed)) = [Scenario.member "m-bob" "bob"]
  /\ w_calls (snd removed)
     = [ CallListCollections (Some "App"%string);
         CallDeleteOne (Some "App"%string) "Members" scoped ].
Proof.
  cbv zeta. repeat apply conj; try (vm_compute; reflexivity).
  eexists. vm_compute. reflexivity.
Qed.

(** ** Further properties *)

(** *** The verdicts of the access evaluator *)

Lemma eqb_true (a b : string) : String.eqb a b = true <-> a = b.
Proof. apply String.eqb_eq. Qed.

(** X1: the owned-items verdict is given exactly to a logged-in caller of a
    [User]-mode client on a [MemberAuthor] permission. *)
Theorem authUser_OwnedItems_iff authorization user permission :
  authUser authorization user permission = OwnedItems
  <-> authorization = User
      /\ permission = Some "MemberAuthor"%string
      /\ user_loggedIn user = true.
Proof.
  unfold authUser. split.
  - destruct permission as [p|]; [|discriminate].
    destruct authorization; [|discriminate].
    destruct (String.eqb p "Anyone"); [discriminate|].
    destruct (user_loggedIn user); cbn [negb]; [|discriminate].
    destruct (String.eqb p "MemberAuthor") eqn:Hp.
    + apply eqb_true in Hp. subst p. auto.
    + destruct (String.eqb p "Member"), (String.eqb p "Admin"),
        (negb (Role_eqb (user_role user) Admin)); discriminate.
  - intros (-> & -> & ->). reflexivity.
Qed.

(** X2: the evaluator fails closed: it allows a call only under [System]
    authorization, for an undeclared permission, for [Anyone], or for a
    logged-in caller on [Member].  No role is allowed by [Admin], and an
    unknown permission allows nobody. *)
Theorem authUser_Allowed_iff authorization user permission :
  authUser authorization user permission = Allowed
  <-> authorization = System
      \/ permission = None
      \/ permission = Some "Anyone"%string
      \/ (permission = Some "Member"%string /\ user_loggedIn user = true).
Proof.
  unfold authUser. split.
  - destruct permission as [p|]; [|auto].
    destruct authorization; [|auto].
    destruct (String.eqb p "Anyone") eqn:Hanyone.
    { apply eqb_true in Hanyone. subst p. auto. }
    destruct (user_loggedIn user); cbn [negb]; [|discriminate].
    destruct (String.eqb p "MemberAuthor") eqn:Hauthor.
    { destruct (String.eqb p "Admin"), (negb (Role_eqb (user_role user) Admin));
        discriminate. }
    destruct (String.eqb p "Member") eqn:Hmember.
    { apply eqb_true in Hmember. subst p. auto. }
    destruct (String.eqb p "Admin"), (negb (Role_eqb (user_role user) Admin));
      discriminate.
  - intros [-> | [-> | [-> | [-> ->]]]].
    + now destruct permission.
    + reflexivity.
    + now destruct authorization.
    + now destruct authorization.
Qed.

(** *** Collections without declared permissions *)

Lemma authUser_Allowed_literal user :
  authUser User user (Some "Allowed"%string) = Denied.
Proof. unfold authUser. cbn. now destruct (user_loggedIn user), (user_role user). Qed.

Section Undeclared.
Context `{store : Storage}.
Variable databaseManager : list DatabaseDefinition.
Variable this : Client.

(** X3: for an access type that the collection does not declare, the client
    evaluates the literal ['Allowed'] as if it were a permission, and
    [authUser] knows no such permission: in [User] mode every caller is
    denied, logged in or not, whatever the role. *)
Theorem prepareEvent_undeclared_permission_denies collectionName accessType options
    database collection (w : World) :
  authorization this = User ->
  NasriyaDataClient.getDatabase databaseManager (selected this) = Some database ->
  List.find (fun i => String.eqb (col_name i) collectionName) (db_collections database)
  = Some collection ->
  col_permissions collection ≫= (fun p => permission_for p accessType) = None ->
  is_true (suppressAuth options) = false ->
  NasriyaDataClient.prepareEvent databaseManager this collectionName accessType options w
  = (Throw (NasriyaDataClient.access_denied this accessType collection), w).
Proof.
  intros Hauth Hdb Hcol Hperm Hsuppress.
  unfold NasriyaDataClient.prepareEvent, NasriyaDataClient.declared_permission.
  rewrite Hdb, Hcol, Hperm, Hsuppress, Hauth. cbn [negb].
  now rewrite authUser_Allowed_literal.
Qed.

(** X4: under [System] authorization, or with [suppressAuth: true], the verdict
    on a registered collection is [Allowed] whatever the collection
    declares, and the world is left alone. *)
Theorem prepareEvent_bypass collectionName accessType options database collection
    (w : World) :
  authorization this = System \/ is_true (suppressAuth options) = true ->
  NasriyaDataClient.getDatabase databaseManager (selected this) = Some database ->
  List.find (fun i => String.eqb (col_name i) collectionName) (db_collections database)
  = Some collection ->
  NasriyaDataClient.prepareEvent databaseManager this collectionName accessType options w
  = (Ok (Allowed, collection), w).
Proof.
  intros Hbypass Hdb Hcol.
  unfold NasriyaDataClient.prepareEvent. rewrite Hdb, Hcol.
  destruct Hbypass as [Hsystem | Hsuppress].
  - rewrite Hsystem.
    destruct (negb (is_true (suppressAuth options))); reflexivity.
  - rewrite Hsuppress. reflexivity.
Qed.

End Undeclared.

(** On the scenario: a collection without a [permissions] object, read by
    alice. *)
Lemma prepareEvent_undeclared_permission_denies_witness :
  let unprotected := {| col_name := "Open"; col_schema := None; col_permissions := None;
                 col_hooks := None |} in
  let databases := [ {| db_name := "App"; db_collections := [unprotected] |} ] in
  NasriyaDataClient.prepareEvent databases Scenario.alice "Open" read default_options
    (Scenario.world [])
  = (Throw (NasriyaDataClient.access_denied Scenario.alice read unprotected), Scenario.world []).
Proof.
  intros unprotected databases.
  apply (prepareEvent_undeclared_permission_denies (store := MemStore.store) databases
           Scenario.alice "Open" read default_options
           {| db_name := "App"; db_collections := [unprotected] |} unprotected (Scenario.world []));
    reflexivity.
Defined.

(** On the scenario: alice reads [Passwords] with [suppressAuth: true]. *)
Lemma prepareEvent_bypass_witness :
  NasriyaDataClient.prepareEvent Scenario.databases Scenario.alice "Passwords" read
    {| suppressAuth := Some (VBool true); suppressHooks := None |} (Scenario.world [])
  = (Ok (Allowed, Scenario.Passwords), Scenario.world []).
Proof.
  apply (prepareEvent_bypass (store := MemStore.store) Scenario.databases Scenario.alice
           "Passwords" read {| suppressAuth := Some (VBool true); suppressHooks := None |}
           (hd {| db_name := ""; db_collections := [] |} Scenario.databases)
           Scenario.Passwords (Scenario.world []));
    [right|..]; reflexivity.
Defined.

(** *** The schema validator, beyond required fields *)

Lemma has_prop_false (property : string) (o : obj) :
  has_prop property o = false <-> o !! property = None /\ inherited property = None.
Proof.
  unfold has_prop. destruct (o !! property), (inherited property); split;
    try discriminate; auto; intros [? ?]; discriminate.
Qed.

Lemma has_prop_own (property : string) (o : obj) (v : value) :
  o !! property = Some v -> has_prop property o = true /\ get_prop property o = v.
Proof. unfold has_prop, get_prop. now intros ->. Qed.

Lemma checkType_state {S} property text schemaType v (s : S) :
  snd (checkType property text schemaType v s) = s.
Proof.
  unfold checkType, throw_if, throw, ret.
  destruct schemaType; try reflexivity.
  repeat match goal with
         | |- context [if ?c then _ else _] => destruct c
         end; reflexivity.
Qed.

(** One property changes the item by a default at most, and only on an
    [Insert]. *)
Lemma validateProperty_state operation property propSchema item :
  snd (validateProperty operation property propSchema item) = item
  \/ exists c d,
       operation = Some Insert /\ propSchema = Custom c /\ cs_default c = Some d
       /\ has_prop property item = false
       /\ validateProperty operation property propSchema item
          = (Ok tt, <[ property := d ]> item).
Proof.
  unfold validateProperty, bind, get.
  destruct (helpers.isCustomSchema propSchema).
  - destruct propSchema as [t|c]; [now left|].
    destruct (has_prop property item) eqn:Hin.
    + left. destruct (cs_validity c) as [validity|].
      * destruct (validity_handler validity (get_prop property item)) as [valid|e];
          [|reflexivity].
        unfold throw_if. now destruct (not_true valid).
      * apply checkType_state.
    + destruct operation as [[]|]; [|now left|now left].
      destruct (cs_required c), (cs_default c) as [d|] eqn:Hdefault;
        try (now left); right; exists c, d; auto.
  - left. destruct (has_prop property item); [apply checkType_state|reflexivity].
Qed.

(** X5: a validation for an [Update], or without an operation, never changes
    the item, whether it passes or throws. *)
Theorem validateItemSchema_only_Insert_changes schema operation item :
  operation <> Some Insert ->
  snd (validateItemSchema schema operation item) = item.
Proof.
  intros Hoperation. destruct schema as [schema|]; [|reflexivity].
  cbn [validateItemSchema]. revert item.
  induction schema as [|[property propSchema] schema IH]; intros item; [reflexivity|].
  cbn [validateProperties]. unfold bind.
  destruct (validateProperty_state operation property propSchema item)
    as [Hsame | (c & d & Hinsert & _)]; [|contradiction].
  destruct (validateProperty operation property propSchema item) as [[[]|e] item1];
    cbn [snd] in *; subst item1; [apply IH|reflexivity].
Qed.

(** Validation against a schema keeps every property of the item and leaves
    alone the properties that the schema does not declare. *)
Lemma validation_grows_the_item schema operation item :
  let item' := snd (validateItemSchema (Some schema) operation item) in
  item ⊆ item'
  /\ forall k : string, k ∉ schema.*1 -> item' !! k = item !! k.
Proof.
  cbn [validateItemSchema]. revert item.
  induction schema as [|[property propSchema] schema IH]; intros item; [now cbn|].
  cbn [validateProperties fmap list_fmap fst]. unfold bind.
  destruct (validateProperty_state operation property propSchema item)
    as [Hsame | (c & d & _ & _ & _ & Habsent & Hrun)].
  - destruct (validateProperty operation property propSchema item) as [[[]|e] item1];
      cbn [snd] in *; subst item1.
    + destruct (IH item) as [Hsub Hframe]. split; [exact Hsub|].
      intros k Hk. apply Hframe. set_solver.
    + split; [reflexivity|]. intros; reflexivity.
  - rewrite Hrun. destruct (IH (<[ property := d ]> item)) as [Hsub Hframe].
    split.
    + etransitivity; [|exact Hsub].
      apply insert_subseteq. now apply has_prop_false in Habsent as [? _].
    + intros k Hk. rewrite Hframe by set_solver.
      apply lookup_insert_ne. set_solver.
Qed.

(** X6: a validation only adds properties, whether it passes or throws, with
    or without a schema: every property of the item keeps its value, and a
    property that the schema does not declare is looked up afterwards as
    before. *)
Theorem validateItemSchema_only_adds schema operation item :
  let item' := snd (validateItemSchema schema operation item) in
  item ⊆ item'
  /\ forall k : string,
       k ∉ (fst <$> default [] schema) -> item' !! k = item !! k.
Proof.
  destruct schema as [schema|]; [|now cbn].
  apply validation_grows_the_item.
Qed.

(** On [{ name: { type: 'String', required: true, default: 'anonymous' } }]
    and an [Update] of [{ age: 7 }]. *)
Lemma validateItemSchema_only_Insert_changes_witness :
  snd (validateItemSchema (col_schema Scenario.Guests) (Some Update)
         {[ "age" := VNumber 7 ]})
  = {[ "age" := VNumber 7 ]}.
Proof.
  apply (validateItemSchema_only_Insert_changes (col_schema Scenario.Guests)
           (Some Update) {[ "age" := VNumber 7 ]}).
  discriminate.
Defined.

(** On the same schema and an [Insert] of [{ age: 7 }]: [age] is kept and
    [nickname], which the schema does not declare, stays absent. *)
Lemma validateItemSchema_only_adds_witness :
  let item' :=
    snd (validateItemSchema (col_schema Scenario.Guests) (Some Insert)
           {[ "age" := VNumber 7 ]}) in
  {[ "age" := VNumber 7 ]} ⊆ item' /\ item' !! "nickname" = ({[ "age" := VNumber 7 ]} : obj) !! "nickname".
Proof.
  intros item'.
  destruct (validateItemSchema_only_adds (col_schema Scenario.Guests) (Some Insert)
              {[ "age" := VNumber 7 ]}) as [Hsub Hframe].
  split; [exact Hsub|]. apply Hframe. cbn. set_solver.
Defined.

(** X7: after an [Insert] validation that passes, every custom field of the
    schema that declares a default is found in the item ([property in item]
    holds); it is a property of the item itself unless its name is one that
    every item inherits. *)
Theorem validateItemSchema_defaults_present schema property c d item item' :
  (property, Custom c) ∈ schema ->
  helpers.isCustomSchema (Custom c) = true ->
  cs_default c = Some d ->
  validateItemSchema (Some schema) (Some Insert) item = (Ok tt, item') ->
  has_prop property item' = true
  /\ (inherited property = None -> is_Some (item' !! property)).
Proof.
  intros Hin Hcustom Hdefault. cbn [validateItemSchema]. revert item.
  induction schema as [|[p s] schema IH]; intros item Hrun; [set_solver|].
  cbn [validateProperties] in Hrun. unfold bind in Hrun.
  destruct (validateProperty (Some Insert) p s item) as [[[]|e] item1] eqn:Hfirst;
    [|discriminate].
  apply elem_of_cons in Hin as [[= <- <-] | Hin]; [|now apply (IH Hin item1)].
  assert (Hpresent : has_prop property item1 = true
                     /\ (inherited property = None -> is_Some (item1 !! property))).
  { destruct (has_prop property item) eqn:Hfound.
    - assert (Hsame : item1 = item).
      { destruct (validateProperty_state (Some Insert) property (Custom c) item)
          as [Hsame | (? & ? & _ & _ & _ & Habsent & _)]; [|congruence].
        now rewrite Hfirst in Hsame. }
      subst item1. split; [exact Hfound|].
      intros Hown. unfold has_prop in Hfound. rewrite Hown in Hfound.
      destruct (item !! property); [eauto | discriminate].
    - revert Hfirst. unfold validateProperty, bind, get.
      rewrite Hcustom, Hfound, Hdefault.
      assert (has_prop property (<[ property := d ]> item) = true
              /\ is_Some (<[ property := d ]> item !! property)) as [? ?].
      { unfold has_prop. rewrite lookup_insert_eq. eauto. }
      destruct (cs_required c); intros [= <-]; auto. }
  destruct Hpresent as [Hfound Hown].
  destruct (validation_grows_the_item schema (Some Insert) item1) as [Hsub _].
  cbn [validateItemSchema] in Hsub. rewrite Hrun in Hsub. cbn [snd] in Hsub.
  assert (forall v, item1 !! property = Some v -> item' !! property = Some v) as Hkept.
  { intros v Hv. eapply lookup_weaken; eauto. }
  split.
  - unfold has_prop in Hfound |- *.
    destruct (item1 !! property) as [v|] eqn:Hv; [now rewrite (Hkept v)|].
    destruct (item' !! property); [reflexivity | exact Hfound].
  - intros Hnone. destruct (Hown Hnone) as [v Hv]. exists v. auto.
Qed.

(** On [Guests]: the default of [name] on an empty item. *)
Lemma validateItemSchema_defaults_present_witness :
  has_prop "name" ({[ "name" := VString "anonymous" ]} : obj) = true
  /\ is_Some (({[ "name" := VString "anonymous" ]} : obj) !! "name").
Proof.
  destruct (validateItemSchema_defaults_present
              [("name"%string, Custom (Scenario.name_field true (Some (VString "anonymous"))))]
              "name" (Scenario.name_field true (Some (VString "anonymous")))
              (VString "anonymous") ∅ {[ "name" := VString "anonymous" ]})
    as [Hfound Hown]; [set_solver | reflexivity..|].
  split; [exact Hfound | apply Hown; reflexivity].
Defined.

(** X8: a custom field with a [validity] object is judged by its handler
    alone: a present value passes exactly when the handler returns [true],
    whatever the declared type, and the item is not changed. *)
Theorem validity_replaces_the_type_check operation property c validity v item :
  helpers.isCustomSchema (Custom c) = true ->
  cs_validity c = Some validity ->
  item !! property = Some v ->
  validateProperty operation property (Custom c) item
  = (match validity_handler validity v with
     | Ok (VBool true) => Ok tt
     | Ok _ => Throw (TString (validity_message validity))
     | Throw e => Throw e
     end, item).
Proof.
  intros Hcustom Hvalidity Hlookup.
  unfold validateProperty, bind, get, has_prop, get_prop.
  rewrite Hcustom, Hlookup, Hvalidity. cbn [default from_option id].
  destruct (validity_handler validity v) as [[| |[]| | | | | | | |]|e]; reflexivity.
Qed.

(** A field typed [String] whose handler accepts numbers takes the number 7. *)
Lemma validity_replaces_the_type_check_witness :
  let validity :=
    {| validity_handler := fun v => Ok (VBool (String.eqb (typeof v) "number"));
       validity_message := "not a number" |} in
  let c := {| cs_type := VString "String"; cs_required := None; cs_default := None;
              cs_validity := Some validity |} in
  validateProperty (Some Insert) "age" (Custom c) {[ "age" := VNumber 7 ]}
  = (Ok tt, {[ "age" := VNumber 7 ]}).
Proof.
  intros validity c.
  apply (validity_replaces_the_type_check (Some Insert) "age" c validity (VNumber 7)
           {[ "age" := VNumber 7 ]}); reflexivity.
Defined.

(** *** The item normalizers *)

Lemma insert_id_Ok fresh item item' :
  insert_id fresh item = (Ok tt, item') ->
  match item !! "_id" with
  | Some supplied =>
    exists s, supplied = VString s /\ is_empty s = false /\ item' !! "_id" = Some supplied
  | None => item' !! "_id" = Some (VString fresh)
  end.
Proof.
  unfold insert_id, check_id. run_block.
  destruct (item !! "_id") as [[]|] eqn:Hid; cbn; try discriminate.
  - destruct (is_empty s) eqn:Hempty; intros [= <-]. eauto.
  - intros [= <-]. apply lookup_insert_eq.
Qed.

Lemma insert_updatedDate_other rt item item' (k : string) :
  k <> "_updatedDate"%string ->
  insert_updatedDate rt item = (Ok tt, item') ->
  item' !! k = item !! k.
Proof.
  intros Hk. unfold insert_updatedDate. run_block.
  destruct (item !! "_updatedDate") as [[]|]; cbn; try discriminate.
  - destruct (date_lt _ _); cbn; intros [= <-].
    now rewrite lookup_insert_ne by congruence.
  - destruct (date_lt _ _); cbn; intros [= <-].
    now rewrite lookup_insert_ne by congruence.
  - intros [= <-]. now rewrite lookup_insert_ne by congruence.
Qed.

Lemma insert_owner_Ok authorization userId item item' :
  insert_owner authorization userId item = (Ok tt, item') ->
  match authorization with
  | System => item' !! "_owner" = Some (VString "system")
  | User =>
    match item !! "_owner" with
    | Some supplied =>
      exists s, supplied = VString s /\ is_empty s = false
                /\ toLowerCase s <> "system"%string
                /\ item' !! "_owner" = Some supplied
    | None => item' !! "_owner" = Some (id_value userId)
    end
  end.
Proof.
  unfold insert_owner. run_block. destruct authorization.
  - destruct (item !! "_owner") as [[]|] eqn:Howner; cbn; try discriminate.
    + destruct (is_empty s) eqn:Hempty; cbn; try discriminate.
      destruct (String.eqb (toLowerCase s) "system") eqn:Hsystem; intros [= <-].
      exists s. repeat split; trivial.
      intros Heq. apply String.eqb_eq in Heq. congruence.
    + intros [= <-]. apply lookup_insert_eq.
  - intros [= <-]. apply lookup_insert_eq.
Qed.

(** The four blocks of a normalization that passes, with the items between
    them. *)
Lemma validateInsertItem_blocks rt fresh authorization userId item item' :
  validateInsertItem rt fresh authorization userId item = (Ok tt, item') ->
  exists item1 item2 item3,
    insert_id fresh item = (Ok tt, item1)
    /\ insert_createdDate rt item1 = (Ok tt, item2)
    /\ insert_updatedDate rt item2 = (Ok tt, item3)
    /\ insert_owner authorization userId item3 = (Ok tt, item').
Proof.
  unfold validateInsertItem, bind.
  destruct (insert_id fresh item) as [[[]|] item1] eqn:Hid; try discriminate.
  destruct (insert_createdDate rt item1) as [[[]|] item2] eqn:Hcreated;
    try discriminate.
  destruct (insert_updatedDate rt item2) as [[[]|] item3] eqn:Hupdated;
    try discriminate.
  intros Howner. exists item1, item2, item3. repeat apply conj; trivial.
Qed.

(** X9: the owner of a normalized item.  Under [System] authorization it is
    ['system'], whatever was supplied.  Under [User] authorization a supplied
    owner is kept and is a non-empty string other than 'system' in any letter
    case; without one the owner is the caller's id. *)
Theorem validateInsertItem_owner rt fresh authorization userId item item' :
  validateInsertItem rt fresh authorization userId item = (Ok tt, item') ->
  match authorization with
  | System => item' !! "_owner" = Some (VString "system")
  | User =>
    match item !! "_owner" with
    | Some supplied =>
      exists s, supplied = VString s /\ is_empty s = false
                /\ toLowerCase s <> "system"%string
                /\ item' !! "_owner" = Some supplied
    | None => item' !! "_owner" = Some (id_value userId)
    end
  end.
Proof.
  intros Hrun.
  destruct (validateInsertItem_blocks _ _ _ _ _ _ Hrun)
    as (item1 & item2 & item3 & Hid & Hcreated & Hupdated & Howner).
  assert (Hsame : item3 !! "_owner" = item !! "_owner").
  { rewrite (insert_updatedDate_other _ _ _ "_owner" ltac:(discriminate) Hupdated).
    rewrite (proj2 (insert_createdDate_Ok _ _ _ Hcreated) "_owner" ltac:(discriminate)).
    exact (insert_id_other _ _ _ "_owner" ltac:(discriminate) Hid). }
  pose proof (insert_owner_Ok _ _ _ _ Howner) as Hresult.
  destruct authorization; [|exact Hresult].
  now rewrite Hsame in Hresult.
Qed.

(** A member who names ['SYSTEM'] as the owner is turned away, and a
    normalization that passes under [User] keeps a supplied owner. *)
Lemma validateInsertItem_owner_witness :
  fst (validateInsertItem Scenario.runtime "uuid-0" User (Some "alice"%string)
         {[ "_owner" := VString "SYSTEM" ]})
  <> Ok tt
  /\ snd (validateInsertItem Scenario.runtime "uuid-0" User (Some "alice"%string)
            {[ "_owner" := VString "carol" ]}) !! "_owner"
     = Some (VString "carol").
Proof.
  split.
  - intros Hrun.
    destruct (validateInsertItem Scenario.runtime "uuid-0" User (Some "alice"%string)
                {[ "_owner" := VString "SYSTEM" ]}) as [r item'] eqn:Hsystem.
    cbn [fst] in Hrun. subst r.
    pose proof (validateInsertItem_owner _ _ _ _ _ _ Hsystem) as Howner.
    cbn beta iota in Howner. rewrite lookup_singleton_eq in Howner.
    destruct Howner as (s & [= <-] & _ & Hsystem' & _). now apply Hsystem'.
  - destruct (validateInsertItem Scenario.runtime "uuid-0" User (Some "alice"%string)
                {[ "_owner" := VString "carol" ]}) as [[[]|e] item'] eqn:Hcarol;
      [|vm_compute in Hcarol; discriminate].
    pose proof (validateInsertItem_owner _ _ _ _ _ _ Hcarol) as Howner.
    cbn beta iota in Howner. rewrite lookup_singleton_eq in Howner.
    destruct Howner as (s & _ & _ & _ & Hkept). exact Hkept.
Defined.

(** X10: the id and the caller's own fields of a normalized item.  A supplied
    [_id] is kept and is a non-empty string; without one the id is the one
    drawn from the generator.  Every property other than the four system
    fields is as the caller gave it. *)
Theorem validateInsertItem_frame rt fresh authorization userId item item' :
  validateInsertItem rt fresh authorization userId item = (Ok tt, item') ->
  match item !! "_id" with
  | Some supplied =>
    exists s, supplied = VString s /\ is_empty s = false /\ item' !! "_id" = Some supplied
  | None => item' !! "_id" = Some (VString fresh)
  end
  /\ forall k : string,
       k ∉ ["_id"; "_createdDate"; "_updatedDate"; "_owner"]%string ->
       item' !! k = item !! k.
Proof.
  intros Hrun.
  destruct (validateInsertItem_blocks _ _ _ _ _ _ Hrun)
    as (item1 & item2 & item3 & Hid & Hcreated & Hupdated & Howner).
  assert (Hframe : forall k : string,
             k <> "_createdDate"%string -> k <> "_updatedDate"%string ->
             k <> "_owner"%string -> item' !! k = item1 !! k).
  { intros k Hc Hu Ho.
    rewrite (insert_owner_other _ _ _ _ k Ho Howner).
    rewrite (insert_updatedDate_other _ _ _ k Hu Hupdated).
    exact (proj2 (insert_createdDate_Ok _ _ _ Hcreated) k Hc). }
  split.
  - pose proof (insert_id_Ok _ _ _ Hid) as Hresult.
    rewrite (Hframe "_id") by discriminate.
    exact Hresult.
  - intros k Hk. rewrite Hframe by set_solver.
    apply (insert_id_other fresh item item1 k); [set_solver|exact Hid].
Qed.

(** alice inserts [{ name: 'A' }]: the name is kept and the id is drawn. *)
Lemma validateInsertItem_frame_witness :
  let item' :=
    snd (validateInsertItem Scenario.runtime "uuid-0" User (Some "alice"%string)
           {[ "name" := VString "A" ]}) in
  item' !! "_id" = Some (VString "uuid-0") /\ item' !! "name" = Some (VString "A").
Proof.
  intros item'.
  destruct (validateInsertItem Scenario.runtime "uuid-0" User (Some "alice"%string)
              {[ "name" := VString "A" ]}) as [[[]|e] item1] eqn:Hrun;
    [|vm_compute in Hrun; discriminate].
  destruct (validateInsertItem_frame _ _ _ _ _ _ Hrun) as [Hid Hframe].
  subst item'. cbn [snd]. split.
  - exact Hid.
  - rewrite Hframe by set_solver. apply lookup_singleton_eq.
Defined.

(** X11: [validateUpdateItem] passes exactly on an item whose [_id] is a
    non-empty string.  The item that passes has lost [_createdDate] and
    [_owner], carries the current time as [_updatedDate], and is otherwise
    as before; an item that fails is not changed. *)
Theorem validateUpdateItem_result rt item :
  let outcome := validateUpdateItem rt item in
  (fst outcome = Ok tt
   <-> exists s, item !! "_id" = Some (VString s) /\ is_empty s = false)
  /\ (fst outcome = Ok tt ->
      snd outcome
      = <[ "_updatedDate" := VDate (Some (now rt)) ]>
          (delete "_owner" (delete "_createdDate" item)))
  /\ (fst outcome <> Ok tt -> snd outcome = item).
Proof.
  unfold validateUpdateItem, check_id. run_block.
  destruct (item !! "_id") as [[]|] eqn:Hid; cbn.
  all: split; [split|split].
  all: try discriminate; try reflexivity.
  all: try (intros (s' & [=] & _); fail).
  all: destruct (is_empty s) eqn:Hempty; cbn.
  all: try discriminate; try reflexivity; eauto.
  - intros (s' & [= <-] & Hs). congruence.
  - intros Hne. now contradiction Hne.
Qed.

(** An update that names an owner and a creation date: both are dropped. *)
Lemma validateUpdateItem_result_witness :
  snd (validateUpdateItem Scenario.runtime
         {[ "_id" := VString "n1"; "_owner" := VString "mallory";
            "_createdDate" := VDate (Some 0) ]})
  = <[ "_updatedDate" := VDate (Some (now Scenario.runtime)) ]>
      (delete "_owner"
         (delete "_createdDate"
            {[ "_id" := VString "n1"; "_owner" := VString "mallory";
               "_createdDate" := VDate (Some 0) ]})).
Proof.
  apply (proj1 (proj2 (validateUpdateItem_result Scenario.runtime
                         {[ "_id" := VString "n1"; "_owner" := VString "mallory";
                            "_createdDate" := VDate (Some 0) ]}))).
  vm_compute. reflexivity.
Defined.

(** *** The operators of the filter builder *)

Ltac run_operator :=
  unfold DataFilter.eq, DataFilter.ne, DataFilter.gte, DataFilter.gt, DataFilter.lt,
    DataFilter.lte, DataFilter.compare, DataFilter.in_, DataFilter.nin,
    DataFilter.exists_, DataFilter.check_options, DataFilter.checkProperty,
    bind, throw_if, throw, ret, modify;
  repeat match goal with
         | |- context [if ?c then _ else _] => destruct c
         | |- context [match ?x with _ => _ end] => destruct x
         end.

Lemma assign_lookup_ne (property k : string) (v : value) (o : obj) :
  k <> property -> assign property v o !! k = o !! k.
Proof.
  intros Hk. unfold assign.
  destruct (String.eqb property "__proto__" && negb (has_own property o));
    [reflexivity | now apply lookup_insert_ne].
Qed.

Lemma assign_lookup (property : string) (v : value) (o : obj) :
  property <> "__proto__"%string -> assign property v o !! property = Some v.
Proof.
  intros Hproperty. unfold assign.
  apply String.eqb_neq in Hproperty. rewrite Hproperty. apply lookup_insert_eq.
Qed.

Lemma assign_inherited (v : value) (o : obj) :
  o !! "__proto__" = None -> assign "__proto__" v o = o.
Proof. intros Hown. unfold assign, has_own. now rewrite Hown. Qed.

Lemma assign_assign (property : string) (v1 v2 : value) (o : obj) :
  assign property v2 (assign property v1 o) = assign property v2 o.
Proof.
  unfold assign, has_own.
  destruct (String.eqb property "__proto__"); cbn [andb].
  - destruct (o !! property) eqn:Hown; cbn [negb].
    + rewrite lookup_insert_eq. cbn [negb]. apply insert_insert_eq.
    + now rewrite Hown.
  - apply insert_insert_eq.
Qed.

(** An operator call either fails for every filter and leaves the filter as
    it is, or passes for every filter and assigns one predicate under its
    property. *)
Lemma operator_outcome (op : DataFilter.operator) :
  (exists e, forall o : obj, DataFilter.run op o = (Throw e, o))
  \/ (exists predicate, forall o : obj,
        DataFilter.run op o = (Ok tt, assign (operator_property op) predicate o)).
Proof.
  destruct op; cbn [DataFilter.run operator_property]; run_operator; eauto.
Qed.

(** X12: whether an operator call passes does not depend on what the filter
    holds.  A call that fails leaves the filter as it is.  A call that
    passes keeps every other property of the filter and writes its own,
    except under the name [__proto__] on a filter that has no property of
    that name: there the setter that the filter inherits takes the
    assignment, and the properties of the filter stay as they are. *)
Theorem operator_writes_one_property (op : DataFilter.operator) (o : obj) :
  fst (DataFilter.run op o) = fst (DataFilter.run op ∅)
  /\ match fst (DataFilter.run op o) with
     | Ok _ =>
       (operator_property op <> "__proto__"%string ->
        is_Some (snd (DataFilter.run op o) !! operator_property op))
       /\ (operator_property op = "__proto__"%string ->
           o !! "__proto__" = None -> snd (DataFilter.run op o) = o)
       /\ forall k, k <> operator_property op ->
                    snd (DataFilter.run op o) !! k = o !! k
     | Throw _ => snd (DataFilter.run op o) = o
     end.
Proof.
  destruct (operator_outcome op) as [[e He] | [predicate Hp]].
  - rewrite !He. now cbn.
  - rewrite !Hp. cbn [fst snd]. repeat apply conj; [reflexivity | | |].
    + intros Hproperty. rewrite assign_lookup by assumption. eauto.
    + intros -> Hown. now apply assign_inherited.
    + intros k Hk. now apply assign_lookup_ne.
Qed.

(** X13: of two operator calls on the same property, the later one wins:
    where it passes, the filter is the one it gives without the earlier
    call. *)
Theorem later_operator_on_a_property_wins (op1 op2 : DataFilter.operator) (o : obj) :
  operator_property op1 = operator_property op2 ->
  fst (DataFilter.run op2 o) = Ok tt ->
  snd (DataFilter.run op2 (snd (DataFilter.run op1 o))) = snd (DataFilter.run op2 o).
Proof.
  intros Hsame Hpasses.
  destruct (operator_outcome op2) as [[e He] | [p2 H2]].
  { rewrite He in Hpasses. discriminate. }
  destruct (operator_outcome op1) as [[e He] | [p1 H1]].
  - now rewrite He.
  - rewrite H1, !H2. cbn. rewrite Hsame. apply assign_assign.
Qed.

Lemma later_operator_on_a_property_wins_witness :
  snd (DataFilter.run (DataFilter.Lte "age" (VNumber 30))
         (snd (DataFilter.run (DataFilter.Gte "age" (VNumber 18)) ∅)))
  = snd (DataFilter.run (DataFilter.Lte "age" (VNumber 30)) ∅).
Proof.
  apply later_operator_on_a_property_wins; reflexivity.
Defined.

(** X14: [eq] and [ne] refuse the [caseSensitive] option beside a value
    that is not a string, whatever the option holds, and leave the filter as
    it is. *)
Theorem caseSensitive_is_for_strings_only (property : string) (v : value)
    (fields : obj) (o : obj) :
  is_empty property = false ->
  has_prop "caseSensitive" fields = true ->
  typeof v <> "string"%string ->
  exists message,
    DataFilter.eq property v (Some (VObject fields)) o = (Throw (TSyntaxError message), o)
    /\ DataFilter.ne property v (Some (VObject fields)) o
       = (Throw (TSyntaxError message), o).
Proof.
  intros Hproperty Hkey Hvalue.
  assert (String.eqb (typeof v) "string" = false) as Htype
    by now apply String.eqb_neq.
  assert (has_own "caseSensitive" fields = true) as Hown.
  { revert Hkey. unfold has_prop, has_own.
    now destruct (fields !! "caseSensitive"). }
  unfold DataFilter.eq, DataFilter.ne, DataFilter.check_options, DataFilter.checkProperty.
  cbn [helpers.isRealObject helpers.hasOwnProperty negb].
  rewrite Hproperty, Hown, Htype. cbn. eauto.
Qed.

Lemma caseSensitive_is_for_strings_only_witness :
  exists message,
    DataFilter.eq "age" (VNumber 3) (Some (VObject {[ "caseSensitive" := VBool false ]})) ∅
    = (Throw (TSyntaxError message), ∅)
    /\ DataFilter.ne "age" (VNumber 3)
         (Some (VObject {[ "caseSensitive" := VBool false ]})) ∅
       = (Throw (TSyntaxError message), ∅).
Proof.
  apply caseSensitive_is_for_strings_only; [reflexivity | reflexivity | discriminate].
Defined.

(** *** [between] *)

(** X15: [between] passes exactly when the property is not empty, the start
    is a string, a number or a date, the end is of the same kind and the
    start is not greater than the end; it then assigns the inclusive range
    under the property, and otherwise leaves the filter as it is. *)
Theorem between_accepts_ordered_bounds (rt : Runtime) (property : string)
    (start end_ : value) (o : obj) :
  let outcome := Operators.between rt property start end_ o in
  (fst outcome = Ok tt
   <-> is_empty property = false
       /\ In (Operators.range_type start) ["string"; "number"; "date"]%string
       /\ Operators.range_type start = Operators.range_type end_
       /\ Operators.greater start end_ = false)
  /\ snd outcome
     = match fst outcome with
       | Ok _ => assign property (VObject {[ "$gte" := start; "$lte" := end_ ]}) o
       | Throw _ => o
       end.
Proof.
  cbv zeta. unfold Operators.between, DataFilter.checkProperty, bind, throw_if, throw,
    ret, modify.
  destruct (is_empty property) eqn:Hproperty.
  { split; [split; [discriminate | now intros [? _]] | reflexivity]. }
  assert (forall s : string,
             In s ["string"; "number"; "date"]%string
             <-> (String.eqb s "string" || String.eqb s "number" || String.eqb s "date")
                 = true) as Hkinds.
  { intros s. cbn [In]. rewrite !orb_true_iff, !String.eqb_eq. intuition congruence. }
  destruct (String.eqb (Operators.range_type start) "string"
            || String.eqb (Operators.range_type start) "number"
            || String.eqb (Operators.range_type start) "date") eqn:Hkind; cbn.
  2: { split; [split; [discriminate | ] | reflexivity].
       intros (_ & Hin & _). apply Hkinds in Hin. congruence. }
  destruct (String.eqb (Operators.range_type start) (Operators.range_type end_))
    eqn:Hsame; cbn.
  2: { split; [split; [discriminate | ] | reflexivity].
       intros (_ & _ & Heq & _). apply String.eqb_neq in Hsame. contradiction. }
  destruct (Operators.greater start end_) eqn:Horder; cbn.
  { split; [split; [discriminate | now intros (_ & _ & _ & ?)] | reflexivity]. }
  split; [split; [intros _ | reflexivity] | reflexivity].
  apply String.eqb_eq in Hsame. apply Hkinds in Hkind. auto.
Qed.

(** X16: an Invalid Date passes as either bound of [between] beside any
    date: no comparison with it holds, so the range check lets it through
    and the range is assigned under the property. *)
Theorem between_accepts_an_invalid_date (rt : Runtime) (property : string)
    (t : option Z) (o : obj) :
  is_empty property = false ->
  Operators.between rt property (VDate None) (VDate t) o
  = (Ok tt, assign property (VObject {[ "$gte" := VDate None; "$lte" := VDate t ]}) o)
  /\ Operators.between rt property (VDate t) (VDate None) o
     = (Ok tt, assign property (VObject {[ "$gte" := VDate t; "$lte" := VDate None ]}) o).
Proof.
  intros Hproperty.
  unfold Operators.between, DataFilter.checkProperty, bind, throw_if.
  rewrite Hproperty. destruct t; split; reflexivity.
Qed.

Lemma between_accepts_an_invalid_date_witness :
  Operators.between Scenario.runtime "createdAt" (VDate None) (VDate (Some 5)) ∅
  = (Ok tt,
     assign "createdAt" (VObject {[ "$gte" := VDate None; "$lte" := VDate (Some 5) ]}) ∅)
  /\ Operators.between Scenario.runtime "createdAt" (VDate (Some 5)) (VDate None) ∅
     = (Ok tt,
        assign "createdAt" (VObject {[ "$gte" := VDate (Some 5); "$lte" := VDate None ]}) ∅).
Proof.
  apply between_accepts_an_invalid_date. reflexivity.
Defined.

(** *** [type] *)

Lemma existsb_eqb_elem_of (s : string) (l : list string) :
  existsb (String.eqb s) l = true <-> s ∈ l.
Proof.
  rewrite existsb_exists. split.
  - intros (x & Hin & Heq). apply String.eqb_eq in Heq. subst.
    now apply list_elem_of_In.
  - intros Hin. exists s. split; [now apply list_elem_of_In | apply String.eqb_refl].
Qed.

Lemma collect_types_Ok (rt : Runtime) (types : list value) :
  forall expressions kept,
    NoDup expressions ->
    Forall (fun s => Operators.isSupportedType (VString s) = true) expressions ->
    Operators.collect_types rt expressions types = Ok kept ->
    NoDup kept
    /\ Forall (fun s => Operators.isSupportedType (VString s) = true) kept
    /\ Forall (fun type => Operators.isSupportedType type = true) types
    /\ (forall s, s ∈ kept <-> s ∈ expressions \/ VString s ∈ types).
Proof.
  induction types as [|type rest IH]; intros expressions kept Hnodup Hsupported Hrun.
  - cbn in Hrun. injection Hrun as <-. repeat apply conj; auto.
    intros s. rewrite elem_of_nil. tauto.
  - cbn [Operators.collect_types] in Hrun.
    destruct type as [| | | |s| | | | | |]; try discriminate.
    destruct (existsb (String.eqb s) expressions) eqn:Hseen.
    + apply existsb_eqb_elem_of in Hseen.
      destruct (IH _ _ Hnodup Hsupported Hrun) as (H1 & H2 & H3 & H4).
      repeat apply conj; auto.
      * constructor; auto. rewrite Forall_forall in Hsupported. now apply Hsupported.
      * intros x. rewrite H4, elem_of_cons. split; [tauto|].
        intros [?|[[= ->]|?]]; auto.
    + destruct (Operators.isSupportedType (VString s)) eqn:Hsupp; try discriminate.
      assert (s ∉ expressions) as Hnew.
      { intros Hin. apply existsb_eqb_elem_of in Hin. congruence. }
      destruct (IH (expressions ++ [s]) kept) as (H1 & H2 & H3 & H4); auto.
      * apply NoDup_app. repeat apply conj; auto.
        -- intros x Hx Hx'. apply list_elem_of_singleton in Hx'. now subst.
        -- apply NoDup_singleton.
      * apply Forall_app. auto.
      * repeat apply conj; auto.
        intros x. rewrite H4, elem_of_app, list_elem_of_singleton, elem_of_cons.
        split; [intros [[?| ->]|?]; auto | intros [?|[[= ->]|?]]; auto].
Qed.

Lemma collect_types_supported (rt : Runtime) (types : list value) :
  forall expressions,
    Forall (fun type => Operators.isSupportedType type = true) types ->
    exists kept, Operators.collect_types rt expressions types = Ok kept.
Proof.
  induction types as [|type rest IH]; intros expressions Hsupported; cbn.
  - eauto.
  - inversion Hsupported as [|? ? Htype Hrest]; subst.
    destruct type; try discriminate.
    destruct (existsb _ expressions); [now apply IH|].
    rewrite Htype. now apply IH.
Qed.

(** X17: [type] on an array passes exactly when every element is a
    supported type name; the array under [$type] in the predicate that it
    then assigns under the property holds each of the names once, and no
    other.  An unsupported element leaves the filter as it is. *)
Theorem type_keeps_each_type_once (rt : Runtime) (property : string)
    (types : list value) (o : obj) :
  let outcome := Operators.type_ rt property (VArray types) o in
  (fst outcome = Ok tt
   <-> Forall (fun type => Operators.isSupportedType type = true) types)
  /\ match fst outcome with
     | Ok _ =>
       exists kept,
         snd outcome
         = assign property (VObject {[ "$type" := VArray (VString <$> kept) ]}) o
         /\ NoDup kept
         /\ (forall s, s ∈ kept <-> VString s ∈ types)
     | Throw _ => snd outcome = o
     end.
Proof.
  cbv zeta. cbn [Operators.type_].
  destruct (Operators.collect_types rt [] types) as [kept|e] eqn:Hrun.
  - destruct (collect_types_Ok rt types [] kept) as (H1 & H2 & H3 & H4); auto.
    { constructor. }
    split; [split; auto|].
    cbn. exists kept. repeat apply conj; auto.
    intros s. rewrite H4, elem_of_nil. tauto.
  - split; [|reflexivity]. split; [discriminate|].
    intros Hsupported.
    destruct (collect_types_supported rt types [] Hsupported) as [kept Hkept].
    congruence.
Qed.

(** *** [contains] *)






(** X19: the operators for ranges, lists, text and types never touch
    another property: each either fails and leaves the filter as it is, or
    assigns one predicate under its property. *)
Theorem range_and_text_operators_write_one_property (rt : Runtime)
    (property : string) (o : obj) :
  let writes_one (m : ST obj unit) :=
    match m o with
    | (Ok _, o') => exists predicate, o' = assign property predicate o
    | (Throw _, o') => o' = o
    end in
  (forall start end_, writes_one (Operators.between rt property start end_))
  /\ (forall v, writes_one (Operators.hasAll property v))
  /\ (forall v, writes_one (Operators.hasSome property v))
  /\ (forall v options, writes_one (Operators.startsWith rt property v options))
  /\ (forall v options, writes_one (Operators.endsWith rt property v options))
  /\ (forall v options, writes_one (Operators.contains rt property v options))
  /\ (forall v, writes_one (Operators.type_ rt property v)).
Proof.
  cbv zeta. repeat apply conj; intros.
  all: unfold Operators.between, Operators.hasAll, Operators.hasSome,
         Operators.startsWith, Operators.endsWith, Operators.contains, Operators.type_,
         Operators.new_RegExp, DataFilter.checkProperty, bind, throw_if, throw, ret,
         modify.
  all: repeat match goal with
              | |- context [if ?c then _ else _] => destruct c
              | |- context [RegExp_error ?r ?source] => destruct (RegExp_error r source)
              | |- context [match ?x with _ => _ end] => is_var x; destruct x
              | |- context [Operators.collect_types ?r ?e ?l] =>
                destruct (Operators.collect_types r e l)
              end.
  all: cbn; eauto.
Qed.

(** *** Paging and sorting of a query *)

Section Paging.
Context `{store : Storage}.

(** X20: [limit] passes exactly on the numbers from 1 to 2000 and [skip]
    exactly on the numbers from 0; a call that passes changes its own setting
    only, one that fails changes nothing.  Neither touches the world. *)
Theorem limit_and_skip_bounds (n : Z) (q : DataQuery.t) (w : World) :
  let limited := DataQuery.limit n (q, w) in
  let skipped := DataQuery.skip n (q, w) in
  (fst limited = Ok tt <-> 1 <= n <= 2000)
  /\ (fst skipped = Ok tt <-> 0 <= n)
  /\ snd limited
     = match fst limited with
       | Ok _ => (DataQuery.with_config (DataQuery.with_limit n (DataQuery.config q)) q, w)
       | Throw _ => (q, w)
       end
  /\ snd skipped
     = match fst skipped with
       | Ok _ => (DataQuery.with_config (DataQuery.with_skip n (DataQuery.config q)) q, w)
       | Throw _ => (q, w)
       end.
Proof.
  cbv zeta. unfold DataQuery.limit, DataQuery.skip, DataQuery.on_config, bind, throw_if.
  destruct (Z.ltb_spec n 1), (Z.ltb_spec 2000 n), (Z.ltb_spec n 0); cbn.
  all: repeat apply conj; try reflexivity.
  all: intros; first [discriminate | reflexivity | lia | exfalso; lia].
Qed.

Lemma replace_direction_keys (property : string) (direction : Z)
    (sort : list (string * Z)) :
  (DataQuery.replace_direction property direction sort).*1 = sort.*1.
Proof.
  induction sort as [|[p d] rest IH]; [reflexivity|].
  cbn [DataQuery.replace_direction].
  destruct (String.eqb p property); cbn; [reflexivity | now rewrite IH].
Qed.

Lemma replace_direction_lookup (property : string) (direction : Z)
    (sort : list (string * Z)) :
  NoDup sort.*1 ->
  property ∈ sort.*1 ->
  forall p d,
    (p, d) ∈ DataQuery.replace_direction property direction sort
    <-> (p = property /\ d = direction) \/ (p <> property /\ (p, d) ∈ sort).
Proof.
  induction sort as [|[p0 d0] rest IH]; intros Hnodup Hproperty p d;
    cbn [DataQuery.replace_direction].
  - cbn in Hproperty. now apply elem_of_nil in Hproperty.
  - cbn in Hnodup, Hproperty. apply NoDup_cons in Hnodup as [Hfresh Hnodup].
    destruct (String.eqb_spec p0 property) as [->|Hne]; rewrite !elem_of_cons.
    + split.
      * intros [[= -> ->]|Hin]; [auto|].
        right. split; [|auto].
        intros ->. apply Hfresh. apply list_elem_of_fmap. now exists (property, d).
      * intros [[-> ->]|[Hp [[= ? ?]|Hin]]]; auto. congruence.
    + apply elem_of_cons in Hproperty as [?|Hproperty]; [congruence|].
      rewrite IH by assumption. split.
      * intros [[= -> ->]|[[-> ->]|[Hp Hin]]]; auto.
      * intros [[-> ->]|[Hp [[= -> ->]|Hin]]]; auto.
Qed.

Lemma place_index_Permutation (n : N) (entry : string * Z) (sort : list (string * Z)) :
  DataQuery.place_index n entry sort ≡ₚ entry :: sort.
Proof.
  induction sort as [|[p d] rest IH]; cbn [DataQuery.place_index]; [reflexivity|].
  destruct (DataQuery.array_index p) as [m|]; [|reflexivity].
  destruct (m <? n)%N; [|reflexivity].
  rewrite IH. apply Permutation_swap.
Qed.

Lemma place_index_sublist (n : N) (entry : string * Z) (sort : list (string * Z)) :
  sort `sublist_of` DataQuery.place_index n entry sort.
Proof.
  induction sort as [|[p d] rest IH]; cbn [DataQuery.place_index].
  - apply sublist_nil_l.
  - destruct (DataQuery.array_index p) as [m|]; [|now apply sublist_cons].
    destruct (m <? n)%N; [now apply sublist_skip | now apply sublist_cons].
Qed.

(** A name that the object does not hold, other than [__proto__], is added
    and the others keep their values and their order; [__proto__] adds
    nothing. *)
Lemma set_sort_new (property : string) (direction : Z) (sort : list (string * Z)) :
  property ∉ sort.*1 ->
  (property = "__proto__"%string /\ DataQuery.set_sort property direction sort = sort)
  \/ (property <> "__proto__"%string
      /\ DataQuery.set_sort property direction sort ≡ₚ (property, direction) :: sort).
Proof.
  intros Hnew. unfold DataQuery.set_sort.
  destruct (existsb (String.eqb property) sort.*1) eqn:Hfound.
  { apply existsb_eqb_elem_of in Hfound. contradiction. }
  destruct (String.eqb_spec property "__proto__") as [->|Hname]; [now left|].
  right. split; [exact Hname|].
  destruct (DataQuery.array_index property) as [n|].
  - apply place_index_Permutation.
  - symmetry. apply Permutation_cons_append.
Qed.

Lemma set_sort_old (property : string) (direction : Z) (sort : list (string * Z)) :
  property ∈ sort.*1 ->
  DataQuery.set_sort property direction sort
  = DataQuery.replace_direction property direction sort.
Proof.
  intros Hold. unfold DataQuery.set_sort.
  apply existsb_eqb_elem_of in Hold. now rewrite Hold.
Qed.

Lemma listed_key_or_not (property : string) (keys : list string) :
  property ∈ keys \/ property ∉ keys.
Proof. destruct (decide (property ∈ keys)); auto. Qed.

Lemma set_sort_NoDup (property : string) (direction : Z) (sort : list (string * Z)) :
  NoDup sort.*1 -> NoDup (DataQuery.set_sort property direction sort).*1.
Proof.
  intros Hnodup.
  destruct (listed_key_or_not property sort.*1) as [Hold|Hnew].
  - now rewrite set_sort_old, replace_direction_keys.
  - destruct (set_sort_new property direction sort Hnew) as [[_ ->]|[_ Hperm]];
      [exact Hnodup|].
    rewrite Hperm. cbn. now constructor.
Qed.

Lemma set_sort_lookup (property : string) (direction : Z) (sort : list (string * Z)) :
  NoDup sort.*1 ->
  forall p d,
    (p, d) ∈ DataQuery.set_sort property direction sort
    <-> (p = property /\ d = direction
         /\ (property = "__proto__"%string -> property ∈ sort.*1))
        \/ (p <> property /\ (p, d) ∈ sort).
Proof.
  intros Hnodup p d.
  assert (forall e, (property, e) ∈ sort -> property ∈ sort.*1) as Hkey.
  { intros e He. apply list_elem_of_fmap. now exists (property, e). }
  destruct (listed_key_or_not property sort.*1) as [Hold|Hnew].
  - rewrite set_sort_old, replace_direction_lookup by assumption. tauto.
  - destruct (set_sort_new property direction sort Hnew) as [[Hname ->]|[Hname Hperm]].
    + split.
      * intros Hin. right. split; [|exact Hin].
        intros ->. apply Hnew. now apply (Hkey d).
      * intros [(_ & _ & Hheld)|[_ Hin]]; [|exact Hin].
        now contradiction Hnew; apply Hheld.
    + rewrite Hperm, elem_of_cons. split.
      * intros [[= -> ->]|Hin]; [left; repeat split; congruence|].
        right. split; [|exact Hin]. intros ->. apply Hnew. now apply (Hkey d).
      * intros [(-> & -> & _)|[_ Hin]]; auto.
Qed.

Lemma set_sort_sublist (property : string) (direction : Z) (sort : list (string * Z)) :
  sort.*1 `sublist_of` (DataQuery.set_sort property direction sort).*1.
Proof.
  unfold DataQuery.set_sort.
  destruct (existsb (String.eqb property) sort.*1).
  { now rewrite replace_direction_keys. }
  destruct (String.eqb property "__proto__"); [reflexivity|].
  destruct (DataQuery.array_index property) as [n|].
  - apply fmap_sublist, place_index_sublist.
  - rewrite fmap_app. now apply sublist_inserts_r.
Qed.

(** X21: [ascending] and [descending] keep one direction per property.  On
    a property that is not empty the call passes and assigns the direction
    under the property in the sort.  The property then sorts in the direction
    of this call, except under the name [__proto__] where the sort holds no
    property of that name: the setter that the sort inherits ignores the
    number.  The other properties sort as before and keep their order. *)
Theorem sort_keeps_one_direction_per_property (property : string) (q : DataQuery.t)
    (w : World) :
  is_empty property = false ->
  NoDup (DataQuery.cfg_sort (DataQuery.config q)).*1 ->
  let sort := DataQuery.cfg_sort (DataQuery.config q) in
  let sorts (m : DataQuery.Q unit) (direction : Z) :=
    fst (m (q, w)) = Ok tt
    /\ snd (m (q, w))
       = (DataQuery.with_config
            (DataQuery.with_sort (DataQuery.set_sort property direction sort)
               (DataQuery.config q)) q, w)
    /\ NoDup (DataQuery.set_sort property direction sort).*1
    /\ sort.*1 `sublist_of` (DataQuery.set_sort property direction sort).*1
    /\ forall p d,
         (p, d) ∈ DataQuery.set_sort property direction sort
         <-> (p = property /\ d = direction
              /\ (property = "__proto__"%string -> property ∈ sort.*1))
             \/ (p <> property /\ (p, d) ∈ sort) in
  sorts (DataQuery.ascending property) 1 /\ sorts (DataQuery.descending property) (-1).
Proof.
  intros Hproperty Hnodup. cbv zeta.
  unfold DataQuery.ascending, DataQuery.descending, DataQuery.sort_by.
  rewrite Hproperty. cbn [negb].
  split.
  all: repeat apply conj; try reflexivity.
  all: try (now apply set_sort_NoDup).
  all: try apply set_sort_sublist.
  all: now apply set_sort_lookup.
Qed.

End Paging.

Lemma sort_keeps_one_direction_per_property_witness :
  fst (DataQuery.ascending "name" (Scenario.Members_query, Scenario.world [])) = Ok tt
  /\ fst (DataQuery.descending "name" (Scenario.Members_query, Scenario.world []))
     = Ok tt.
Proof.
  destruct (sort_keeps_one_direction_per_property "name" Scenario.Members_query
              (Scenario.world []))
    as [(Hascending & _) (Hdescending & _)].
  - reflexivity.
  - constructor.
  - split; assumption.
Defined.

(** *** The projection of a query *)

Lemma listed_or_not (s : string) (fields : list value) :
  VString s ∈ fields \/ VString s ∉ fields.
Proof.
  induction fields as [|field rest IH].
  - right. apply not_elem_of_nil.
  - destruct IH as [Hin|Hout]; [left; now apply elem_of_cons; right|].
    destruct field as [| | | |s'| | | | | |];
      try (right; rewrite elem_of_cons; now intros [?|?]).
    destruct (String.eqb_spec s s') as [->|Hne].
    + left. apply elem_of_cons. now left.
    + right. rewrite elem_of_cons. intros [[= ?]|?]; auto.
Qed.

Lemma project_Ok (rt : Runtime) (flag : Z) (fields : list value) :
  forall projection result,
    NoDup projection.*1 ->
    "__proto__"%string ∉ projection.*1 ->
    Projection.project rt flag fields projection = Ok result ->
    Forall field_name fields
    /\ NoDup result.*1
    /\ "__proto__"%string ∉ result.*1
    /\ forall s d,
         (s, d) ∈ result
         <-> (d = flag /\ VString s ∈ fields /\ s <> "__proto__"%string)
             \/ ((VString s ∉ fields) /\ (s, d) ∈ projection).
Proof.
  induction fields as [|field rest IH]; intros projection result Hnodup Hplain Hrun.
  - cbn in Hrun. injection Hrun as <-. repeat apply conj; auto.
    intros s d. rewrite elem_of_nil. split; [|tauto].
    intros Hin. right. split; [tauto | exact Hin].
  - cbn [Projection.project] in Hrun.
    destruct field as [| | | |s0| | | | | |]; try discriminate.
    destruct (is_empty s0) eqn:Hname; try discriminate.
    pose proof (set_sort_NoDup s0 flag projection Hnodup) as Hnodup'.
    pose proof (set_sort_lookup s0 flag projection Hnodup) as Hset.
    assert ("__proto__"%string ∉ (DataQuery.set_sort s0 flag projection).*1) as Hplain'.
    { intros Hheld. apply list_elem_of_fmap in Hheld as ([k e] & Hk & Hheld).
      cbn in Hk. subst k. apply Hset in Hheld as [(<- & _ & Hold)|[_ Hold]].
      - now apply Hplain, Hold.
      - apply Hplain. apply list_elem_of_fmap. now exists ("__proto__"%string, e). }
    destruct (IH _ _ Hnodup' Hplain' Hrun) as (Hnames & Hresult & Hplain'' & Hin).
    repeat apply conj; auto.
    { constructor; auto. now exists s0. }
    intros s d. rewrite Hin, Hset. rewrite !elem_of_cons. split.
    + intros [(-> & ? & ?)|[Hrest [(-> & -> & Hheld)|[Hne ?]]]]; auto.
      * left. repeat split; auto.
        intros ->. now apply Hplain, Hheld.
      * right. split; auto. intros [[= ?]|?]; auto.
    + intros [(-> & [[= ->]|?] & Hs)|[Hout ?]]; auto.
      * destruct (listed_or_not s0 rest); auto.
        right. split; auto. left. repeat split; auto. intros ?. contradiction.
      * right. split; [tauto|]. right. split; auto.
        intros ->. apply Hout. now left.
Qed.

Lemma project_passes (rt : Runtime) (flag : Z) (fields : list value) :
  forall projection,
    Forall field_name fields ->
    exists result, Projection.project rt flag fields projection = Ok result.
Proof.
  induction fields as [|field rest IH]; intros projection Hnames; cbn.
  - eauto.
  - inversion Hnames as [|? ? (s & -> & Hname) Hrest]; subst.
    rewrite Hname. now apply IH.
Qed.

(** X22: [fields] passes exactly when one of the two options is present
    and every listed field is a string that is not empty.  It then replaces
    the projection of the query, whatever it was: an excluded field is marked
    0, an included field that is not excluded is marked 1, each field is
    marked once and no other field is marked; the field [__proto__] is not
    marked, since the setter that the projection inherits ignores the number.
    The rest of the configuration is kept.  A call that fails changes
    nothing. *)
Theorem fields_exclusion_wins (rt : Runtime) (include exclude : option value)
    (c : DataQuery.Config) :
  let outcome := Projection.fields rt include exclude c in
  (fst outcome = Ok tt
   <-> (is_Some include \/ is_Some exclude)
       /\ Forall field_name (Projection.listed include ++ Projection.listed exclude))
  /\ match fst outcome with
     | Ok _ =>
       exists projection,
         snd outcome = Projection.with_projection projection c
         /\ NoDup projection.*1
         /\ forall s d,
              (s, d) ∈ projection
              <-> s <> "__proto__"%string
                  /\ ((d = 0 /\ VString s ∈ Projection.listed exclude)
                      \/ (d = 1 /\ VString s ∈ Projection.listed include
                          /\ VString s ∉ Projection.listed exclude))
     | Throw _ => snd outcome = c
     end.
Proof.
  cbv zeta.
  assert (Projection.fields rt include exclude c
          = match include, exclude with
            | None, None => (Throw (TSyntaxError ("The query's " +:+ dq +:+ "fields" +:+ dq
                         +:+ " cannot be called without either the " +:+ dq +:+ "include"
                         +:+ dq +:+ " or the " +:+ dq +:+ "exclude" +:+ dq +:+ " options")), c)
            | _, _ =>
              match Projection.project rt 1 (Projection.listed include) [] with
              | Throw e => (Throw e, c)
              | Ok included =>
                match Projection.project rt 0 (Projection.listed exclude) included with
                | Throw e => (Throw e, c)
                | Ok projection => (Ok tt, Projection.with_projection projection c)
                end
              end
            end) as ->.
  { unfold Projection.fields.
    destruct include, exclude; try reflexivity.
    all: destruct (Projection.project rt 1 _ []); try reflexivity.
    all: destruct (Projection.project rt 0 _ _); reflexivity. }
  assert (is_Some include \/ is_Some exclude
          <-> ~ (include = None /\ exclude = None)) as Hpresent.
  { destruct include, exclude; split; try (intros _ [? ?]; discriminate); eauto.
    - intros [[? [=]]|[? [=]]].
    - intros H. now contradiction H. }
  destruct (Projection.project rt 1 (Projection.listed include) []) as [included|e]
    eqn:Hincluded.
  2: { assert (~ Forall field_name (Projection.listed include)) as Hbad.
       { intros Hnames.
         destruct (project_passes rt 1 _ [] Hnames) as [? ?]. congruence. }
       destruct include, exclude; cbn [fst snd]; (split; [|reflexivity]).
       all: split; [discriminate|].
       all: intros [_ Hnames]; apply Forall_app in Hnames as [? _]; contradiction. }
  destruct (project_Ok rt 1 _ [] included ltac:(constructor) ltac:(apply not_elem_of_nil)
              Hincluded)
    as (Hnames1 & Hnodup1 & Hplain1 & Hin1).
  destruct (Projection.project rt 0 (Projection.listed exclude) included)
    as [projection|e] eqn:Hexcluded.
  2: { assert (~ Forall field_name (Projection.listed exclude)) as Hbad.
       { intros Hnames.
         destruct (project_passes rt 0 _ included Hnames) as [? ?]. congruence. }
       destruct include, exclude; cbn [fst snd]; (split; [|reflexivity]).
       all: split; [discriminate|].
       all: intros [_ Hnames]; apply Forall_app in Hnames as [_ ?]; contradiction. }
  destruct (project_Ok rt 0 _ included projection Hnodup1 Hplain1 Hexcluded)
    as (Hnames0 & Hnodup0 & _ & Hin0).
  assert (forall s d,
             (s, d) ∈ projection
             <-> s <> "__proto__"%string
                 /\ ((d = 0 /\ VString s ∈ Projection.listed exclude)
                     \/ (d = 1 /\ VString s ∈ Projection.listed include
                         /\ VString s ∉ Projection.listed exclude))) as Hmarks.
  { intros s d. rewrite Hin0, Hin1, elem_of_nil. tauto. }
  destruct include, exclude; cbn [fst snd].
  4: { split; [|reflexivity]. split; [discriminate|].
       intros [[[? [=]]|[? [=]]] _]. }
  all: split; [|eauto].
  all: split; [intros _|reflexivity].
  all: split; [eauto | apply Forall_app; auto].
Qed.

(** *** What [find] and [count] hand back *)

Section Found.
Context `{store : Storage}.

Lemma onFailure_outcome {A} hook options dataOperation context error (w : World) :
  exists w',
    NasriyaDataClient.onFailure (A := A) hook options dataOperation context error w
    = (Throw (TFailure (dataOperation +:+ "_error") context error), w')
    /\ w_calls w' = w_calls w.
Proof.
  unfold NasriyaDataClient.onFailure, bind.
  destruct (negb (is_true (options ≫= suppressHooks))); [|cbn; eauto].
  destruct hook as [hook|]; [|cbn; eauto].
  destruct (hook error context); cbn; eauto.
Qed.

Ltac failed :=
  match goal with
  | |- context [@NasriyaDataClient.onFailure ?st ?A ?h ?o ?d ?c ?e ?w] =>
    let w' := fresh "w'" in
    let Hfailed := fresh "Hfailed" in
    let Hcalls := fresh "Hcalls" in
    destruct (@onFailure_outcome A h o d c e w) as (w' & Hfailed & Hcalls);
    rewrite Hfailed; cbn [fst snd]
  end.

Ltac listing :=
  match goal with
  | |- context [listCollections ?d ?s] =>
    let Hlisting := fresh "Hlisting" in
    destruct (listCollections d s) as [names|?] eqn:Hlisting; cbn [fst snd]
  end.

Ltac listed :=
  match goal with
  | |- context [existsb ?f ?names] =>
    let Hlisted := fresh "Hlisted" in
    destruct (existsb f names) eqn:Hlisted; cbn [fst snd]
  end.

Ltac verdict :=
  match goal with
  | |- context [Verdict_eqb ?v Denied] =>
    let Hverdict := fresh "Hverdict" in
    destruct (Verdict_eqb v Denied) eqn:Hverdict; cbn [fst snd]
  end.

Ltac open_find :=
  unfold DataQuery.find, DataQuery.count, DataQuery.prepareEvent,
    DataQuery.checkCollectionValidity, DataQuery.current_filter, DataQuery.attempt,
    DataQuery.settled, DataQuery.in_world, DataQuery.on_config, DataQuery.this_,
    call_listCollections, call_countDocuments, call_find, call_read, read_obj, alloc,
    bind, try_catch, ret, throw;
  cbn [fst snd].

(** X23: a reader who is denied never reaches the documents.  When the
    verdict on the reader is a denial and the authorization is not
    suppressed, [find] and [count] fail with the failure record of the
    operation, and the only call they make on the store is the listing of the
    collections. *)
Theorem denied_reader_reaches_no_document (q : DataQuery.t) (w : World) options :
  read_verdict q = Denied ->
  is_true (options ≫= suppressAuth) = false ->
  let name := db_name (DataQuery.database (DataQuery.data q)) in
  (exists error,
      fst (DataQuery.find options (q, w))
      = Throw (TFailure "query_error" (DataQuery.context_of q) error))
  /\ (exists error,
         fst (DataQuery.count options (q, w))
         = Throw (TFailure "count_error" (DataQuery.context_of q) error))
  /\ w_calls (snd (snd (DataQuery.find options (q, w))))
     = w_calls w ++ [CallListCollections (Some name)]
  /\ w_calls (snd (snd (DataQuery.count options (q, w))))
     = w_calls w ++ [CallListCollections (Some name)].
Proof.
  unfold read_verdict. intros Hdenied Hsuppress. cbv zeta.
  repeat apply conj; open_find.
  all: destruct (DataQuery.cfg_filter (DataQuery.config q)); cbn [fst snd].
  all: rewrite ?Hsuppress; cbn [negb DataQuery.data DataQuery.config DataQuery.with_config].
  all: rewrite ?Hdenied; cbn [Verdict_eqb].
  all: listing; [listed|]; failed; eauto.
Qed.

Lemma heap_get_new (heap : list obj) (o : obj) :
  heap_get (length heap) (heap ++ [o]) = o.
Proof.
  unfold heap_get. rewrite lookup_app_r by lia. now rewrite Nat.sub_diag.
Qed.

Lemma ceil_div_bounds (totalCount limit : Z) :
  0 < limit ->
  (DataQuery.ceil_div totalCount limit - 1) * limit < totalCount
  /\ totalCount <= DataQuery.ceil_div totalCount limit * limit.
Proof.
  intros Hlimit. unfold DataQuery.ceil_div.
  pose proof (Z.mul_div_le (- totalCount) limit Hlimit).
  pose proof (Z.mul_succ_div_gt (- totalCount) limit Hlimit).
  nia.
Qed.

(** X24: what [find] hands back is one page of one answer of the store.
    When [find] returns a result, the store was asked to count and to fetch
    with the same filter, the one built from the filter object of the query
    and the verdict on the reader, and the result carries the two answers;
    the page size is the limit of the query and the number of pages is the
    least number of such pages that hold the counted items.  No result is
    returned to a reader who is denied. *)
Theorem find_result_is_one_page (q : DataQuery.t) (w : World) options
    (r : DataQuery.QueryResult) :
  fst (DataQuery.find options (q, w)) = Ok r ->
  let name := Some (db_name (DataQuery.database (DataQuery.data q))) in
  let collection := col_name (DataQuery.collection (DataQuery.data q)) in
  let limit := DataQuery.cfg_limit (DataQuery.config q) in
  let sent :=
    default ∅
      (DataQuery.effective_filter options (read_verdict q) (DataQuery.context_of q)
         (Some (default ∅ (own_filter q w)))) in
  countDocuments name collection (Some sent) (w_db w) = Ok (DataQuery.totalCount r)
  /\ find_toArray name collection sent
       {| cur_sort := DataQuery.cfg_sort (DataQuery.config q);
          cur_projection := DataQuery.cfg_projection (DataQuery.config q);
          cur_limit := limit;
          cur_skip := DataQuery.cfg_skip (DataQuery.config q) |} (w_db w)
     = Ok (DataQuery.items r)
  /\ DataQuery.pageSize r = limit
  /\ DataQuery.pages r = DataQuery.ceil_div (DataQuery.totalCount r) limit
  /\ (0 < limit ->
      (DataQuery.pages r - 1) * limit < DataQuery.totalCount r
      /\ DataQuery.totalCount r <= DataQuery.pages r * limit)
  /\ (is_true (options ≫= suppressAuth) = false -> read_verdict q <> Denied).
Proof.
  unfold read_verdict, own_filter. cbv zeta. open_find.
  destruct (DataQuery.cfg_filter (DataQuery.config q)) as [l|] eqn:Hfilter;
    cbn [fst snd DataQuery.data DataQuery.config DataQuery.with_config
         DataQuery.with_filter DataQuery.cfg_filter w_db w_heap with_heap with_call].
  all: listing; [listed|]; try (failed; discriminate).
  all: verdict; try (failed; discriminate).
  all: rewrite ?Hfilter;
    cbn [fst snd DataQuery.data DataQuery.config DataQuery.with_config
         DataQuery.with_filter DataQuery.cfg_filter DataQuery.cfg_sort
         DataQuery.cfg_projection DataQuery.cfg_limit DataQuery.cfg_skip
         w_db w_heap with_heap with_call default from_option id].
  all: rewrite ?heap_get_new, ?effective_filter_verdict.
  all: match goal with
       | |- context [@countDocuments ?st ?d ?c ?f ?s] =>
         destruct (@countDocuments st d c f s) as [n|?] eqn:Hcounted; cbn [fst snd]
       end.
  all: match goal with
       | |- context [@find_toArray ?st ?d ?c ?f ?o ?s] =>
         destruct (@find_toArray st d c f o s) as [found|?] eqn:Hfound; cbn [fst snd]
       end.
  all: try (failed; discriminate).
  all: intros [= <-]; cbn [DataQuery.totalCount DataQuery.items DataQuery.pageSize
                           DataQuery.pages].
  all: repeat apply conj; auto using ceil_div_bounds.
  all: try (intros Hlimit; now apply ceil_div_bounds).
  all: intros Hsuppress Hdenied; rewrite Hsuppress, Hdenied in Hverdict; discriminate.
Qed.

(** X25: [count] agrees with [find].  On a query that holds a filter
    object, when [find] returns a result, [count] with the same options in
    the same world returns the total count of that result. *)
Theorem count_agrees_with_find (q : DataQuery.t) (w : World) options (l : loc)
    (r : DataQuery.QueryResult) :
  DataQuery.cfg_filter (DataQuery.config q) = Some l ->
  fst (DataQuery.find options (q, w)) = Ok r ->
  fst (DataQuery.count options (q, w)) = Ok (DataQuery.totalCount r).
Proof.
  intros Hfilter. open_find. rewrite Hfilter. cbn [fst snd].
  listing; [listed|]; try (failed; discriminate).
  verdict; try (failed; discriminate).
  rewrite Hfilter. cbn [fst snd w_db with_call].
  assert (forall permission o,
             Some (default ∅ (DataQuery.effective_filter options permission
                                (DataQuery.context_of q) (Some o)))
             = DataQuery.effective_filter options permission
                 (DataQuery.context_of q) (Some o)) as ->.
  { intros permission o. unfold DataQuery.effective_filter.
    destruct (is_true (options ≫= suppressAuth)); [reflexivity|].
    destruct (Verdict_eqb permission OwnedItems); reflexivity. }
  match goal with
  | |- context [@countDocuments ?st ?d ?c ?f ?s] =>
    destruct (@countDocuments st d c f s) as [n|?] eqn:Hcounted; cbn [fst snd]
  end.
  all: try match goal with
           | |- context [@find_toArray ?st ?d ?c ?f ?o ?s] =>
             destruct (@find_toArray st d c f o s) as [found|?] eqn:Hfound; cbn [fst snd]
           end.
  all: try (failed; discriminate).
  now intros [= <-].
Qed.

End Found.

Lemma denied_reader_reaches_no_document_witness :
  let q := DataQuery.new
             {| DataQuery.database :=
                  {| db_name := "App"; db_collections := [Scenario.Passwords] |};
                DataQuery.collection := Scenario.Passwords;
                DataQuery.data_user := user Scenario.alice;
                DataQuery.data_authorization := authorization Scenario.alice |} in
  let w := Scenario.world [] in
  w_calls (snd (snd (DataQuery.find None (q, w)))) = [CallListCollections (Some "App"%string)]
  /\ w_calls (snd (snd (DataQuery.count None (q, w))))
     = [CallListCollections (Some "App"%string)].
Proof.
  cbv zeta.
  match goal with
  | |- w_calls (snd (snd (DataQuery.find None (?q, ?w)))) = _ /\ _ =>
    destruct (denied_reader_reaches_no_document q w None) as (_ & _ & Hfind & Hcount)
  end.
  - reflexivity.
  - reflexivity.
  - split; [exact Hfind | exact Hcount].
Defined.

Lemma find_result_is_one_page_witness :
  let outcome := DataQuery.find None (Scenario.Members_query, Scenario.world []) in
  exists r,
    fst outcome = Ok r
    /\ DataQuery.pageSize r = 100
    /\ (DataQuery.pages r - 1) * 100 < DataQuery.totalCount r <= DataQuery.pages r * 100.
Proof.
  cbv zeta. eexists. split; [vm_compute; reflexivity|].
  match goal with
  | |- DataQuery.pageSize ?r = _ /\ _ =>
    destruct (find_result_is_one_page Scenario.Members_query (Scenario.world []) None r)
      as (_ & _ & Hsize & _ & Hpages & _)
  end.
  - vm_compute. reflexivity.
  - split; [exact Hsize | apply Hpages; reflexivity].
Defined.

Lemma count_agrees_with_find_witness :
  let q := DataQuery.with_config
             (DataQuery.with_filter (Some 0%nat) (DataQuery.config Scenario.Members_query))
             Scenario.Members_query in
  let w := Scenario.world [ {[ "name" := VObject {[ "$eq" := VString "m-bob" ]} ]} ] in
  exists r,
    fst (DataQuery.find None (q, w)) = Ok r
    /\ fst (DataQuery.count None (q, w)) = Ok (DataQuery.totalCount r).
Proof.
  cbv zeta. eexists. split; [vm_compute; reflexivity|].
  eapply count_agrees_with_find; [reflexivity | vm_compute; reflexivity].
Defined.

(** *** The selected database *)

Lemma find_first {A} (f g : A -> bool) (l : list A) (x : A) :
  List.find f l = Some x ->
  (forall y, g y = true -> f y = true) ->
  g x = true ->
  List.find g l = Some x.
Proof.
  intros Hfind Hstronger Hx.
  induction l as [|a rest IH]; cbn in Hfind |- *; [discriminate|].
  destruct (f a) eqn:Hfa.
  - injection Hfind as ->. now rewrite Hx.
  - destruct (g a) eqn:Hga; [|now apply IH].
    apply Hstronger in Hga. congruence.
Qed.

(** X26: [db(name)] looks the name up without regard to case and selects
    the registered name of the first database that matches, so that the
    operations of the client then find that very database; the user and the
    authorization of the client are kept.  It fails exactly when no
    registered database has the name, case apart. *)
Theorem db_selects_a_registered_database (databaseManager : list DatabaseDefinition)
    (this : Client) (name : string) :
  match db databaseManager this (Some name) with
  | Ok client =>
    exists database,
      client = with_selected (Some (db_name database)) this
      /\ database ∈ databaseManager
      /\ toLowerCase (db_name database) = toLowerCase name
      /\ NasriyaDataClient.getDatabase databaseManager (selected client) = Some database
  | Throw _ =>
    forall database,
      database ∈ databaseManager -> toLowerCase (db_name database) <> toLowerCase name
  end.
Proof.
  unfold db, getDatabase_ignoring_case.
  destruct (List.find _ databaseManager) as [database|] eqn:Hfind.
  - exists database. pose proof (find_some _ _ Hfind) as [Hin Hname].
    apply String.eqb_eq in Hname.
    repeat apply conj; auto.
    + now apply list_elem_of_In.
    + cbn. eapply find_first; [exact Hfind | | apply String.eqb_refl].
      intros y Hy. apply String.eqb_eq in Hy. apply String.eqb_eq. congruence.
  - intros database Hin Hname.
    apply list_elem_of_In in Hin.
    pose proof (find_none _ _ Hfind _ Hin) as Hno. cbn in Hno.
    apply String.eqb_neq in Hno. contradiction.
Qed.

(** *** The calls that an operation makes on the store *)

Create HintDb calls.

Section Calls.
Context `{store : Storage}.

Lemma adds_weaken {A} (P Q : StorageCall -> Prop) (m : M A) :
  (forall c, P c -> Q c) -> adds P m -> adds Q m.
Proof.
  intros Himpl Hm w. destruct (Hm w) as (tail & Hcalls & Htail).
  exists tail. split; [exact Hcalls|]. eapply Forall_impl; eauto.
Qed.

(** A computation that makes no call on the store. *)
Lemma adds_quiet {A} (P : StorageCall -> Prop) (m : M A) :
  (forall w, w_calls (snd (m w)) = w_calls w) -> adds P m.
Proof.
  intros Hquiet w. exists []. rewrite app_nil_r. split; [apply Hquiet | constructor].
Qed.

Lemma adds_bind {A B} (P : StorageCall -> Prop) (m : M A) (k : A -> M B) :
  adds P m ->
  (forall a, (exists w, fst (m w) = Ok a) -> adds P (k a)) ->
  adds P (bind m k).
Proof.
  intros Hm Hk w. unfold bind.
  destruct (Hm w) as (tail & Hcalls & Htail).
  destruct (m w) as [[a|e] w'] eqn:Hrun; cbn [fst snd] in *.
  - assert (exists w0, fst (m w0) = Ok a) as Hreached.
    { exists w. now rewrite Hrun. }
    destruct (Hk a Hreached w') as (tail' & Hcalls' & Htail').
    exists (tail ++ tail'). split.
    + rewrite Hcalls', Hcalls. now rewrite app_assoc.
    + now apply Forall_app.
  - exists tail. auto.
Qed.

Lemma adds_try_catch {A} (P : StorageCall -> Prop) (m : M A) (handler : thrown -> M A) :
  adds P m -> (forall e, adds P (handler e)) -> adds P (try_catch m handler).
Proof.
  intros Hm Hhandler w. unfold try_catch.
  destruct (Hm w) as (tail & Hcalls & Htail).
  destruct (m w) as [[a|e] w'] eqn:Hrun; cbn [fst snd] in *.
  - exists tail. auto.
  - destruct (Hhandler e w') as (tail' & Hcalls' & Htail').
    exists (tail ++ tail'). split.
    + rewrite Hcalls', Hcalls. now rewrite app_assoc.
    + now apply Forall_app.
Qed.

Lemma adds_call_read {A} (P : StorageCall -> Prop) (c : StorageCall)
    (f : db_state -> result A) :
  P c -> adds P (call_read c f).
Proof.
  intros Hc w. exists [c]. split; [reflexivity | now constructor].
Qed.

Lemma adds_call_write {A} (P : StorageCall -> Prop) (c : StorageCall)
    (f : db_state -> result A * db_state) :
  P c -> adds P (call_write c f).
Proof.
  intros Hc w. exists [c]. unfold call_write.
  destruct (f (w_db w)). split; [reflexivity | now constructor].
Qed.

Lemma adds_ret {A} (P : StorageCall -> Prop) (a : A) : adds P (ret a).
Proof. now apply adds_quiet. Qed.

Lemma adds_throw {A} (P : StorageCall -> Prop) (e : thrown) : adds P (throw (A := A) e).
Proof. now apply adds_quiet. Qed.

Lemma adds_throw_if (P : StorageCall -> Prop) (c : bool) (e : thrown) :
  adds P (throw_if c e).
Proof. apply adds_quiet. now destruct c. Qed.

Lemma adds_on_obj {A} (P : StorageCall -> Prop) (l : loc) (m : ST obj A) :
  adds P (on_obj l m).
Proof. apply adds_quiet. intros w. unfold on_obj. now destruct (m _). Qed.

Lemma adds_read_obj (P : StorageCall -> Prop) (l : loc) : adds P (read_obj l).
Proof. now apply adds_quiet. Qed.

Lemma adds_alloc (P : StorageCall -> Prop) (o : obj) : adds P (alloc o).
Proof. now apply adds_quiet. Qed.

Lemma adds_settle {R} (P : StorageCall -> Prop) (outcome : hook_outcome R) :
  adds P (settle outcome).
Proof. apply adds_quiet. now destruct outcome. Qed.

Lemma adds_call_item_hook (P : StorageCall -> Prop) hook item context :
  adds P (call_item_hook hook item context).
Proof.
  apply adds_quiet. intros w. unfold call_item_hook.
  destruct (hook item context (w_heap w)) as [[] h]; reflexivity.
Qed.

Lemma adds_as_real_object (P : StorageCall -> Prop) r : adds P (as_real_object r).
Proof.
  apply adds_quiet. intros w. destruct r as [l|v]; [reflexivity|].
  destruct v; reflexivity.
Qed.

Lemma adds_deref (P : StorageCall -> Prop) r : adds P (deref r).
Proof. apply adds_quiet. intros w. now destruct r. Qed.

Lemma adds_fetched (P : StorageCall -> Prop) item : adds P (NasriyaDataClient.fetched item).
Proof. apply adds_quiet. intros w. now destruct item. Qed.

#[local] Hint Resolve adds_ret adds_throw adds_throw_if adds_on_obj adds_read_obj adds_alloc
  adds_settle adds_call_item_hook adds_as_real_object adds_deref adds_fetched : calls.

Ltac step :=
  repeat first
    [ solve [auto with calls]
    | apply adds_bind; [|intros ? _]
    | apply adds_try_catch; [|intros ?]
    | match goal with
      | |- adds _ (if ?c then _ else _) => destruct c
      | |- adds _ (match ?x with _ => _ end) => destruct x
      | |- adds _ (let (_, _) := ?x in _) => destruct x
      end ].

Variable rt : Runtime.
Variable databaseManager : list DatabaseDefinition.
Variable this : Client.

Lemma adds_onFailure {A} (P : StorageCall -> Prop) hook options dataOperation context
    error :
  adds P (NasriyaDataClient.onFailure (A := A) hook options dataOperation context error).
Proof.
  apply adds_quiet. intros w.
  destruct (@onFailure_outcome _ A hook options dataOperation context error w)
    as (w' & -> & Hcalls).
  exact Hcalls.
Qed.

Lemma adds_id_event (P : StorageCall -> Prop) hook itemId context options :
  adds P (NasriyaDataClient.id_event hook itemId context options).
Proof. unfold NasriyaDataClient.id_event. step. Qed.

Lemma adds_after_item_event (P : StorageCall -> Prop) hook item context options :
  adds P (NasriyaDataClient.after_item_event hook item context options).
Proof. unfold NasriyaDataClient.after_item_event. step. Qed.

Lemma adds_normalize_insert (P : StorageCall -> Prop) item userId :
  adds P (NasriyaDataClient.normalize_insert rt this item userId).
Proof.
  apply adds_quiet. intros w. unfold NasriyaDataClient.normalize_insert, on_obj.
  cbn [w_heap with_uuid].
  now destruct (validateInsertItem _ _ _ _ _).
Qed.

Lemma adds_beforeInsert (P : StorageCall -> Prop) hook item context options :
  adds P (NasriyaDataClient.beforeInsert rt this hook item context options).
Proof.
  unfold NasriyaDataClient.beforeInsert.
  pose proof (adds_normalize_insert P). step.
Qed.

Lemma adds_beforeUpdate (P : StorageCall -> Prop) hook item context options :
  adds P (NasriyaDataClient.beforeUpdate rt hook item context options).
Proof. unfold NasriyaDataClient.beforeUpdate. step. Qed.

Lemma adds_prepareEvent (P : StorageCall -> Prop) collectionName accessType options :
  adds P (NasriyaDataClient.prepareEvent databaseManager this collectionName accessType
            options).
Proof. unfold NasriyaDataClient.prepareEvent. step. Qed.

Lemma adds_checkArgs (P : StorageCall -> Prop) collectionName argData options :
  P (CallListCollections (selected this)) ->
  adds P (NasriyaDataClient.checkArgs this collectionName argData options).
Proof.
  intros Hlisting.
  unfold NasriyaDataClient.checkArgs, NasriyaDataClient.checkCollectionValidity,
    NasriyaDataClient.check_boolean_option, call_listCollections.
  step. now apply adds_call_read.
Qed.

#[local] Hint Resolve adds_onFailure adds_id_event adds_after_item_event
  adds_beforeInsert adds_beforeUpdate adds_prepareEvent : calls.

Ltac calls :=
  unfold NasriyaDataClient.getItem, NasriyaDataClient.insert, NasriyaDataClient.remove,
    NasriyaDataClient.update, NasriyaDataClient.beforeGetItem,
    NasriyaDataClient.beforeRemove, NasriyaDataClient.afterRemove,
    NasriyaDataClient.afterUpdate, NasriyaDataClient.afterGetItem,
    NasriyaDataClient.afterInsert, call_findOne, call_insertOne, call_updateOne,
    call_deleteOne;
  repeat first
    [ solve [auto with calls]
    | apply adds_checkArgs
    | apply adds_call_read
    | apply adds_call_write
    | apply adds_bind; [|intros ? ?]
    | apply adds_try_catch; [|intros ?]
    | match goal with
      | |- adds _ (if ?c then _ else _) => destruct c
      | |- adds _ (match ?x with _ => _ end) => destruct x
      | |- adds _ (let (_, _) := ?x in _) => destruct x
      end ].

(** X27: each operation keeps to its own methods of the store, whatever the
    arguments, the hooks and the world: [getItem] lists the collections and
    reads one document; [remove] lists and deletes; [update] lists and
    updates; [insert] lists, inserts and reads one document.  So [getItem]
    never writes, and no operation runs a query or an aggregation. *)
Theorem operations_keep_to_their_methods (collectionName itemId : string) (item : loc)
    (options : NasriyaDataOptions) :
  adds (through ["listCollections"; "findOne"]%string)
    (NasriyaDataClient.getItem databaseManager this collectionName itemId options)
  /\ adds (through ["listCollections"; "deleteOne"]%string)
       (NasriyaDataClient.remove rt databaseManager this collectionName itemId options)
  /\ adds (through ["listCollections"; "updateOne"]%string)
       (NasriyaDataClient.update rt databaseManager this collectionName item options)
  /\ adds (through ["listCollections"; "insertOne"; "findOne"]%string)
       (NasriyaDataClient.insert rt databaseManager this collectionName item options).
Proof.
  repeat apply conj; calls.
  all: reflexivity.
Qed.

Lemma prepared_for_the_owner (collectionName : string) (accessType : AccessType)
    (options : NasriyaDataOptions) :
  authorization this = User ->
  is_true (suppressAuth options) = false ->
  (forall database collection,
      NasriyaDataClient.getDatabase databaseManager (selected this) = Some database ->
      List.find (fun i => String.eqb (col_name i) collectionName) (db_collections database)
      = Some collection ->
      NasriyaDataClient.declared_permission collection accessType
      = "MemberAuthor"%string) ->
  forall w permission collection,
    fst (NasriyaDataClient.prepareEvent databaseManager this collectionName accessType
           options w) = Ok (permission, collection) ->
    permission = OwnedItems.
Proof.
  intros Hmode Hsuppress Hdeclared w permission collection.
  unfold NasriyaDataClient.prepareEvent.
  destruct (NasriyaDataClient.getDatabase databaseManager (selected this))
    as [database|] eqn:Hdatabase; [|discriminate].
  destruct (List.find _ (db_collections database)) as [found|] eqn:Hfound;
    [|discriminate].
  rewrite (Hdeclared database found eq_refl Hfound), Hsuppress, Hmode. cbn.
  destruct (user_loggedIn (user this)); cbn; [|discriminate].
  now intros [= <- _].
Qed.

(** X28: on a collection that leaves reading, changing and removing to the
    authors of its items, a [User]-mode client whose authorization is not
    suppressed reaches its own documents only: every criteria object that
    [getItem], [remove] and [update] hand to the store carries the id of the
    caller as [_owner].  A before hook is handed the context object from
    which the criteria then read that id, so this is stated for the calls
    that run no before hook: the hooks are suppressed, or the collection
    declares none for these operations. *)
Theorem owned_items_stay_with_their_owner (collectionName itemId : string) (item : loc)
    (options : NasriyaDataOptions) :
  authorization this = User ->
  is_true (suppressAuth options) = false ->
  is_true (suppressHooks options) = true
  \/ (forall database collection,
         NasriyaDataClient.getDatabase databaseManager (selected this) = Some database ->
         List.find (fun i => String.eqb (col_name i) collectionName)
           (db_collections database) = Some collection ->
         hook_of collection hook_beforeGetItem = None
         /\ hook_of collection hook_beforeRemove = None
         /\ hook_of collection hook_beforeUpdate = None) ->
  (forall database collection accessType,
      NasriyaDataClient.getDatabase databaseManager (selected this) = Some database ->
      List.find (fun i => String.eqb (col_name i) collectionName) (db_collections database)
      = Some collection ->
      accessType <> write ->
      NasriyaDataClient.declared_permission collection accessType
      = "MemberAuthor"%string) ->
  let owner := id_value (user_id (user this)) in
  adds (scoped_to owner)
    (NasriyaDataClient.getItem databaseManager this collectionName itemId options)
  /\ adds (scoped_to owner)
       (NasriyaDataClient.remove rt databaseManager this collectionName itemId options)
  /\ adds (scoped_to owner)
       (NasriyaDataClient.update rt databaseManager this collectionName item options).
Proof.
  intros Hmode Hsuppress _ Hdeclared owner.
  repeat apply conj; calls.
  all: try (left; reflexivity).
  all: repeat match goal with
              | H : exists _ : World, _ |- _ => destruct H as [? H]
              end.
  all: match goal with
       | H : fst (NasriyaDataClient.prepareEvent _ _ _ ?a _ _) = Ok (?v, _) |- _ =>
         apply (prepared_for_the_owner collectionName a options Hmode Hsuppress) in H;
         [subst v
         | intros ? ? Hdatabase Hfound;
           eapply Hdeclared; [exact Hdatabase | exact Hfound | discriminate]]
       end.
  all: right; eexists; split; [reflexivity|].
  all: unfold spread, NasriyaDataClient.owner_scope; cbn [Verdict_eqb].
  all: apply lookup_union_Some_l; apply lookup_singleton_eq.
Qed.

(** X29: a caller whom [prepareEvent] refuses, for a database or a
    collection that is not defined or for an access that is denied, reaches
    no document: the only call that [getItem], [remove], [update] or [insert]
    then makes on the store is the listing of the collections. *)
Theorem refused_caller_reaches_no_document (collectionName itemId : string) (item : loc)
    (options : NasriyaDataOptions) :
  let refused accessType :=
    forall w a,
      fst (NasriyaDataClient.prepareEvent databaseManager this collectionName accessType
             options w) <> Ok a in
  (refused read ->
   adds (through ["listCollections"]%string)
     (NasriyaDataClient.getItem databaseManager this collectionName itemId options))
  /\ (refused delete_ ->
      adds (through ["listCollections"]%string)
        (NasriyaDataClient.remove rt databaseManager this collectionName itemId options))
  /\ (refused modify_ ->
      adds (through ["listCollections"]%string)
        (NasriyaDataClient.update rt databaseManager this collectionName item options))
  /\ (refused write ->
      adds (through ["listCollections"]%string)
        (NasriyaDataClient.insert rt databaseManager this collectionName item options)).
Proof.
  cbv zeta. repeat apply conj; intros Hrefused.
  all: unfold NasriyaDataClient.getItem, NasriyaDataClient.insert,
         NasriyaDataClient.remove, NasriyaDataClient.update.
  all: apply adds_bind; [apply adds_checkArgs; reflexivity | intros ? _].
  all: apply adds_bind; [auto with calls | intros prepared [w Hprepared]].
  all: now apply Hrefused in Hprepared.
Qed.

(** X30: a collection that the store does not list stops every operation
    at its first step: [getItem], [remove], [update] and [insert] throw the
    message of the validity check as it is, not a failure record; the failure
    hook is not called, and the listing is the only call on the store. *)
Theorem unlisted_collection_stops_every_operation (collectionName itemId : string)
    (item : loc) (options : NasriyaDataOptions) (w : World) (names : list string) :
  listCollections (selected this) (w_db w) = Ok names ->
  existsb (String.eqb collectionName) names = false ->
  let stopped : result value * World :=
    (Throw (TMessage ("The (" +:+ collectionName
                      +:+ ") does not exist on your [object Object] database.") None),
     with_call (CallListCollections (selected this)) (w_db w) w) in
  NasriyaDataClient.getItem databaseManager this collectionName itemId options w = stopped
  /\ NasriyaDataClient.remove rt databaseManager this collectionName itemId options w
     = stopped
  /\ NasriyaDataClient.update rt databaseManager this collectionName item options w
     = stopped
  /\ NasriyaDataClient.insert rt databaseManager this collectionName item options w
     = stopped.
Proof.
  intros Hlisting Hunlisted. cbv zeta.
  assert (forall argData,
             NasriyaDataClient.checkArgs this collectionName argData options w
             = (Throw (TMessage ("The (" +:+ collectionName
                        +:+ ") does not exist on your [object Object] database.") None),
                with_call (CallListCollections (selected this)) (w_db w) w)) as Hargs.
  { intros argData.
    unfold NasriyaDataClient.checkArgs, NasriyaDataClient.checkCollectionValidity,
      call_listCollections, call_read, bind, try_catch, ret.
    rewrite Hlisting. cbn [fst snd]. now rewrite Hunlisted. }
  unfold NasriyaDataClient.getItem, NasriyaDataClient.insert, NasriyaDataClient.remove,
    NasriyaDataClient.update.
  repeat apply conj.
  all: unfold bind at 1; now rewrite Hargs.
Qed.

End Calls.

Lemma owned_items_stay_with_their_owner_witness :
  adds (store := MemStore.store) (scoped_to (VString "alice"))
    (NasriyaDataClient.getItem Scenario.databases Scenario.alice "Members" "m-bob"
       default_options)
  /\ adds (store := MemStore.store) (scoped_to (VString "alice"))
       (NasriyaDataClient.remove Scenario.runtime Scenario.databases Scenario.alice
          "Members" "m-bob" default_options)
  /\ adds (store := MemStore.store) (scoped_to (VString "alice"))
       (NasriyaDataClient.update Scenario.runtime Scenario.databases Scenario.alice
          "Members" 0%nat default_options).
Proof.
  apply (owned_items_stay_with_their_owner (store := MemStore.store) Scenario.runtime
           Scenario.databases Scenario.alice "Members" "m-bob" 0%nat default_options).
  - reflexivity.
  - reflexivity.
  - right. intros database collection Hdatabase Hfound.
    vm_compute in Hdatabase. injection Hdatabase as <-.
    vm_compute in Hfound. injection Hfound as <-.
    repeat split.
  - intros database collection accessType Hdatabase Hfound Haccess.
    vm_compute in Hdatabase. injection Hdatabase as <-.
    vm_compute in Hfound. injection Hfound as <-.
    destruct accessType; [reflexivity | contradiction | reflexivity | reflexivity].
Defined.

Lemma refused_caller_reaches_no_document_witness :
  adds (store := MemStore.store) (through ["listCollections"]%string)
    (NasriyaDataClient.getItem Scenario.databases Scenario.alice "Passwords" "p1"
       default_options).
Proof.
  apply (refused_caller_reaches_no_document (store := MemStore.store) Scenario.runtime
           Scenario.databases Scenario.alice "Passwords" "p1" 0%nat default_options).
  intros w a. vm_compute. discriminate.
Defined.

Lemma unlisted_collection_stops_every_operation_witness :
  fst (NasriyaDataClient.getItem Scenario.databases Scenario.alice "Nowhere" "n1"
         default_options (Scenario.world []))
  = Throw (TMessage "The (Nowhere) does not exist on your [object Object] database." None)
  /\ w_calls (snd (NasriyaDataClient.insert Scenario.runtime Scenario.databases
                     Scenario.alice "Nowhere" 0%nat default_options (Scenario.world [∅])))
     = [CallListCollections (Some "App"%string)].
Proof.
  split.
  - destruct (unlisted_collection_stops_every_operation (store := MemStore.store)
                Scenario.runtime Scenario.databases Scenario.alice "Nowhere" "n1" 0%nat
                default_options (Scenario.world [])
                ["Members"; "Passwords"; "Profiles"; "Guests"; "Notes"; "Drafts"]%string)
      as (-> & _); reflexivity.
  - destruct (unlisted_collection_stops_every_operation (store := MemStore.store)
                Scenario.runtime Scenario.databases Scenario.alice "Nowhere" "n1" 0%nat
                default_options (Scenario.world [∅])
                ["Members"; "Passwords"; "Profiles"; "Guests"; "Notes"; "Drafts"]%string)
      as (_ & _ & _ & ->); reflexivity.
Defined.
